(** * ViewManager (src/js/view-manager.js): a shallow embedding

    The class [ViewManager] fetches HTML fragments, caches them, mounts them
    into [#app-container], toggles the [active] class of the four views and
    dispatches per-view work to collaborating managers.

    The embedding follows the source method by method.  [this], the document,
    the console and the pending promises live in one record [World]; a method
    is a computation in the monad [JS] (state plus JavaScript exceptions, the
    state surviving a throw).  An [async] method is cut at its [await]: the
    part before it runs inside the caller, the part after it runs when the
    event loop settles the pending task, and the caller's continuation
    ([.then], [Promise.all], a plain caller) is a constructor of [Cont].

    What the model leaves abstract:
    - the document is the list of fragment roots in document order, each with
      its id, its [active] class and the two controls the class queries;
      elements below a root carry no view id, and no fragment root carries
      the id of the container itself ([app-container]), which would make the
      mount replace the container and all it holds;
    - the collaborators ([stateManager], [questionManager], [testManager],
      the class [ReviewAnswersManager] and its instance) are outside the
      class: a call to one, the constructor included, is recorded in the
      trace and returns or throws, and does not call back into the class;
    - [componentCache] is a finite map from component names to markup (no
      name is inherited from [Object.prototype]);
    - [initializeComponent] and [createFallbackView], which the class calls
      and does not define, follow the specification (see their comments). *)

From stdpp Require Import base option list strings gmap.
From Stdlib Require Import ZArith Lia.

Local Open Scope string_scope.
Local Open Scope list_scope.

(** ** JavaScript values the class handles *)

(** [String.prototype.includes]. *)
Fixpoint includes (needle hay : string) : bool :=
  String.prefix needle hay ||
  match hay with
  | EmptyString => false
  | String _ rest => includes needle rest
  end.

(** Errors that can be thrown and caught. *)
Inductive JsError :=
  | FetchFailure (componentName : string) (status : Z)
      (* new Error(`Failed to load component: ${componentName} (${response.status})`) *)
  | NetworkError                       (* fetch() or response.text() rejected *)
  | TypeError (what : string)          (* property access on null/undefined *)
  | ReferenceError (what : string)     (* an undeclared global *)
  | CollaboratorError (method : string). (* thrown inside a collaborator *)

(** What a call into a collaborator does, seen from this class. *)
Inductive Call (A : Type) :=
  | Returns (a : A)
  | Raises.
Arguments Returns {A} a.
Arguments Raises {A}.

(** Opaque tokens for the objects handed from one collaborator to another. *)
Definition Results := nat.
Definition Questions := nat.

Record StateManager := {
  getTestResults : Call Results;
  setReviewCurrentQuestion : Call unit
}.

Record QuestionManager := {
  getQuestions : Call Questions
}.

(** The test collaborator's methods are optional ([?.()] and [typeof]). *)
Record TestManager := {
  updateQuestionDisplay : option (Call unit);
  calculateResults : option (Call unit);
  initializeReview : option (Call unit)
}.

(** An instance of the external class [ReviewAnswersManager]. *)
Record ReviewAnswersManager := {
  rm_initialize : Call unit;
  loadReviewQuestion : Call unit;
  closeSidebar : Call unit
}.

(** [window.app]. *)
Record App := {
  app_stateManager : option StateManager;
  app_questionManager : option QuestionManager;
  app_testManager : option TestManager
}.

(** ** The document *)

(** A node below the sidebar list: an identity and a tag name. *)
Record Node := {
  node_key : nat;
  node_tag : string
}.

(** [#back-to-results-btn]: its [dataset.bound] flag and the number of click
    listeners attached to it. *)
Record Control := {
  bound : bool;
  listeners : nat
}.

(** [#reviewSidebarList]: [dataset.delegationBound], its click listeners and
    its element children in order. *)
Record Sidebar := {
  delegationBound : bool;
  sb_listeners : nat;
  children : list Node
}.

(** A root element of a fragment, as far as this class looks at it: its [id]
    (empty when the markup has none), whether [classList] contains [active],
    and the two controls [querySelector] is asked for. *)
Record Element := {
  el_id : string;
  el_active : bool;
  backBtn : option Control;
  sidebarList : option Sidebar
}.

Definition set_id (id : string) (e : Element) : Element :=
  {| el_id := id; el_active := el_active e;
     backBtn := backBtn e; sidebarList := sidebarList e |}.

Definition set_active (b : bool) (e : Element) : Element :=
  {| el_id := el_id e; el_active := b;
     backBtn := backBtn e; sidebarList := sidebarList e |}.

Definition set_backBtn (c : option Control) (e : Element) : Element :=
  {| el_id := el_id e; el_active := el_active e;
     backBtn := c; sidebarList := sidebarList e |}.

Definition set_sidebarList (s : option Sidebar) (e : Element) : Element :=
  {| el_id := el_id e; el_active := el_active e;
     backBtn := backBtn e; sidebarList := s |}.

Definition has_id (id : string) (e : Element) : bool := String.eqb (el_id e) id.

(** [document.getElementById]: the first element in document order whose id is
    [id]; an empty id matches nothing.  The document is the list of fragment
    roots in document order, new children of the container coming last. *)
Definition getElementById (id : string) (doc : list Element) : option Element :=
  if String.eqb id "" then None else List.find (has_id id) doc.

(** A mutation of the object [getElementById id] returned. *)
Fixpoint update_first (id : string) (f : Element -> Element)
    (doc : list Element) : list Element :=
  match doc with
  | [] => []
  | e :: rest =>
      if has_id id e then f e :: rest else e :: update_first id f rest
  end.

(** ** Effects visible outside the class *)

Inductive Effect :=
  | Fetch (url : string)
  | TM_updateQuestionDisplay
  | TM_calculateResults
  | TM_initializeReview (element : string)
  | SM_getTestResults
  | SM_setReviewCurrentQuestion (idx : Z)
  | QM_getQuestions
  | RM_new
  | RM_initialize (testResults : Results) (questions : Questions) (element : string)
  | RM_loadReviewQuestion (idx : Z)
  | RM_closeSidebar.

(** ** The network *)

Record Response := {
  status : Z;
  text : Call string        (* await response.text() *)
}.

(** [response.ok]. *)
Definition ok (r : Response) : bool :=
  ((200 <=? status r)%Z && (status r <=? 299)%Z)%bool.

Inductive NetOutcome :=
  | FetchRejects
  | Responds (r : Response).

(** ** Pending asynchronous work *)

(** Where [loadComponent] stands after its synchronous prefix: it has returned
    the cached markup, or it is suspended at [await fetch(...)]. *)
Inductive Started :=
  | Hit (html : string)
  | Fetching.

(** Who waits for the promise [loadComponent] returned. *)
Inductive Cont :=
  | KCaller                        (* code outside the class *)
  | KRetry (viewName : string)     (* the .then/.catch of showView *)
  | KBatch (b : nat).              (* Promise.all in loadAllComponents, batch b *)

Record Task := {
  task_name : string;
  task_started : Started;
  task_cont : Cont
}.

(** The promise [Promise.all] returned to [init]. *)
Inductive BatchStatus :=
  | BWaiting (remaining : nat)
  | BRejected
  | BFulfilled.

Inductive Completion (A : Type) :=
  | Normal (a : A)
  | Throw (e : JsError).
Arguments Normal {A} a.
Arguments Throw {A} e.

(** ** The world *)

Record World := {
  (* this *)
  currentView : string;
  componentCache : gmap string string;
  stateManager : option StateManager;
  questionManager : option QuestionManager;
  testManager : option TestManager;
  reviewManager : option ReviewAnswersManager;
  (* globals *)
  window_app : option App;
  ReviewAnswersManager_class : option (Call ReviewAnswersManager);
      (* the global class, when it is declared: what [new] on it does *)
  (* document *)
  has_container : bool;               (* #app-container exists *)
  document : list Element;
  (* observations *)
  console : list string;              (* console.error, oldest first *)
  trace : list Effect;                (* calls leaving the class, oldest first *)
  dispatched : list string;           (* onViewActivated invocations (ghost) *)
  delivered : list (string * Completion string);
                                      (* promises settled for outside callers *)
  (* event loop *)
  pending : list Task;
  batches : list BatchStatus
}.

Definition with_currentView (v : string) (w : World) : World :=
  {| currentView := v; componentCache := componentCache w;
     stateManager := stateManager w; questionManager := questionManager w;
     testManager := testManager w; reviewManager := reviewManager w;
     window_app := window_app w;
     ReviewAnswersManager_class := ReviewAnswersManager_class w;
     has_container := has_container w; document := document w;
     console := console w; trace := trace w; dispatched := dispatched w;
     delivered := delivered w; pending := pending w; batches := batches w |}.

Definition with_componentCache (c : gmap string string) (w : World) : World :=
  {| currentView := currentView w; componentCache := c;
     stateManager := stateManager w; questionManager := questionManager w;
     testManager := testManager w; reviewManager := reviewManager w;
     window_app := window_app w;
     ReviewAnswersManager_class := ReviewAnswersManager_class w;
     has_container := has_container w; document := document w;
     console := console w; trace := trace w; dispatched := dispatched w;
     delivered := delivered w; pending := pending w; batches := batches w |}.

Definition with_reviewManager (r : option ReviewAnswersManager) (w : World) : World :=
  {| currentView := currentView w; componentCache := componentCache w;
     stateManager := stateManager w; questionManager := questionManager w;
     testManager := testManager w; reviewManager := r;
     window_app := window_app w;
     ReviewAnswersManager_class := ReviewAnswersManager_class w;
     has_container := has_container w; document := document w;
     console := console w; trace := trace w; dispatched := dispatched w;
     delivered := delivered w; pending := pending w; batches := batches w |}.

Definition with_document (d : list Element) (w : World) : World :=
  {| currentView := currentView w; componentCache := componentCache w;
     stateManager := stateManager w; questionManager := questionManager w;
     testManager := testManager w; reviewManager := reviewManager w;
     window_app := window_app w;
     ReviewAnswersManager_class := ReviewAnswersManager_class w;
     has_container := has_container w; document := d;
     console := console w; trace := trace w; dispatched := dispatched w;
     delivered := delivered w; pending := pending w; batches := batches w |}.

Definition with_console (c : list string) (w : World) : World :=
  {| currentView := currentView w; componentCache := componentCache w;
     stateManager := stateManager w; questionManager := questionManager w;
     testManager := testManager w; reviewManager := reviewManager w;
     window_app := window_app w;
     ReviewAnswersManager_class := ReviewAnswersManager_class w;
     has_container := has_container w; document := document w;
     console := c; trace := trace w; dispatched := dispatched w;
     delivered := delivered w; pending := pending w; batches := batches w |}.

Definition with_trace (t : list Effect) (w : World) : World :=
  {| currentView := currentView w; componentCache := componentCache w;
     stateManager := stateManager w; questionManager := questionManager w;
     testManager := testManager w; reviewManager := reviewManager w;
     window_app := window_app w;
     ReviewAnswersManager_class := ReviewAnswersManager_class w;
     has_container := has_container w; document := document w;
     console := console w; trace := t; dispatched := dispatched w;
     delivered := delivered w; pending := pending w; batches := batches w |}.

Definition with_dispatched (d : list string) (w : World) : World :=
  {| currentView := currentView w; componentCache := componentCache w;
     stateManager := stateManager w; questionManager := questionManager w;
     testManager := testManager w; reviewManager := reviewManager w;
     window_app := window_app w;
     ReviewAnswersManager_class := ReviewAnswersManager_class w;
     has_container := has_container w; document := document w;
     console := console w; trace := trace w; dispatched := d;
     delivered := delivered w; pending := pending w; batches := batches w |}.

Definition with_delivered (d : list (string * Completion string)) (w : World) : World :=
  {| currentView := currentView w; componentCache := componentCache w;
     stateManager := stateManager w; questionManager := questionManager w;
     testManager := testManager w; reviewManager := reviewManager w;
     window_app := window_app w;
     ReviewAnswersManager_class := ReviewAnswersManager_class w;
     has_container := has_container w; document := document w;
     console := console w; trace := trace w; dispatched := dispatched w;
     delivered := d; pending := pending w; batches := batches w |}.

Definition with_pending (p : list Task) (w : World) : World :=
  {| currentView := currentView w; componentCache := componentCache w;
     stateManager := stateManager w; questionManager := questionManager w;
     testManager := testManager w; reviewManager := reviewManager w;
     window_app := window_app w;
     ReviewAnswersManager_class := ReviewAnswersManager_class w;
     has_container := has_container w; document := document w;
     console := console w; trace := trace w; dispatched := dispatched w;
     delivered := delivered w; pending := p; batches := batches w |}.

Definition with_batches (b : list BatchStatus) (w : World) : World :=
  {| currentView := currentView w; componentCache := componentCache w;
     stateManager := stateManager w; questionManager := questionManager w;
     testManager := testManager w; reviewManager := reviewManager w;
     window_app := window_app w;
     ReviewAnswersManager_class := ReviewAnswersManager_class w;
     has_container := has_container w; document := document w;
     console := console w; trace := trace w; dispatched := dispatched w;
     delivered := delivered w; pending := pending w; batches := b |}.

(** ** The monad of method bodies *)

Definition JS (A : Type) : Type := World -> Completion A * World.

Definition ret {A} (a : A) : JS A := fun w => (Normal a, w).

Definition bind {A B} (m : JS A) (k : A -> JS B) : JS B :=
  fun w =>
    match m w with
    | (Normal a, w') => k a w'
    | (Throw e, w') => (Throw e, w')
    end.

Definition throw {A} (e : JsError) : JS A := fun w => (Throw e, w).

(** [try { body } catch (error) { handler }]. *)
Definition try_catch {A} (body : JS A) (handler : JsError -> JS A) : JS A :=
  fun w =>
    match body w with
    | (Normal a, w') => (Normal a, w')
    | (Throw e, w') => handler e w'
    end.

Definition gets {A} (f : World -> A) : JS A := fun w => (Normal (f w), w).

Definition modify (f : World -> World) : JS unit := fun w => (Normal tt, f w).

#[export] Instance JS_ret : MRet JS := @ret.
#[export] Instance JS_bind : MBind JS := fun A B k m => bind m k.

Definition console_error (msg : string) : JS unit :=
  modify (fun w => with_console (console w ++ [msg]) w).

Definition emit (e : Effect) : JS unit :=
  modify (fun w => with_trace (trace w ++ [e]) w).

(** A call [collaborator.method(...)]: the call leaves the class, then the
    collaborator returns or throws. *)
Definition call {A} (e : Effect) (method : string) (c : Call A) : JS A :=
  emit e;;
  match c with
  | Returns a => ret a
  | Raises => throw (CollaboratorError method)
  end.

(** [for (x of xs) body(x)], as [Array.prototype.forEach] runs it. *)
Fixpoint forEach {A} (xs : list A) (body : A -> JS unit) : JS unit :=
  match xs with
  | [] => ret tt
  | x :: rest => body x;; forEach rest body
  end.

(** [capture m] runs [m] and hands its completion over as a value: the way a
    promise holds the outcome of an async body. *)
Definition capture {A} (m : JS A) : JS (Completion A) :=
  fun w => let '(c, w') := m w in (Normal c, w').

(** JavaScript truthiness of a string. *)
Definition truthy (s : string) : bool := negb (String.eqb s "").

(** ** The class *)

Section ViewManager.

(** [tempDiv.innerHTML = html; tempDiv.firstElementChild]: the browser's HTML
    parser, which this class does not define. *)
Variable firstElementChild : string -> option Element.

(** [this.views] (line 7). *)
Definition views : list string := ["landing"; "test"; "result"; "review-answers"].

(** The constructor's arguments and the globals it consults (lines 5-14). *)
Record Browser := {
  br_app : option App;
  br_stateManager : option StateManager;
  br_questionManager : option QuestionManager;
  br_testManager : option TestManager;
  br_ReviewAnswersManager : option (Call ReviewAnswersManager);
  br_has_container : bool;
  br_document : list Element
}.

(** [a || b] on possibly missing objects. *)
Definition or_else {A} (a b : option A) : option A :=
  match a with Some x => Some x | None => b end.

Definition constructor (stateManager0 : option StateManager)
    (questionManager0 : option QuestionManager)
    (testManager0 : option TestManager) (br : Browser) : World :=
  {| currentView := "landing";
     componentCache := ∅;
     stateManager :=
       or_else stateManager0
         (or_else (br_app br ≫= app_stateManager) (br_stateManager br));
     questionManager :=
       or_else questionManager0
         (or_else (br_app br ≫= app_questionManager) (br_questionManager br));
     testManager :=
       or_else testManager0
         (or_else (br_app br ≫= app_testManager) (br_testManager br));
     reviewManager := None;
     window_app := br_app br;
     ReviewAnswersManager_class := br_ReviewAnswersManager br;
     has_container := br_has_container br;
     document := br_document br;
     console := []; trace := []; dispatched := []; delivered := [];
     pending := []; batches := [] |}.

(** *** initializeReviewManager (lines 134-151) *)

(** [own || window.app.field]: the global is read only when [own] is falsy,
    and reading a property of an undefined [window.app] throws. *)
Definition own_or_app {A} (own : option A) (field : App -> option A)
    (what : string) : JS (option A) :=
  match own with
  | Some x => mret (Some x)
  | None =>
      app ← gets window_app;
      match app with
      | Some a => mret (field a)
      | None => throw (TypeError what)
      end
  end.

Definition initializeReviewManager (element : string) : JS unit :=
  try_catch
    (own_sm ← gets stateManager;
     sm ← own_or_app own_sm app_stateManager "window.app.stateManager";
     own_qm ← gets questionManager;
     qm ← own_or_app own_qm app_questionManager "window.app.questionManager";
     match sm, qm with
     | Some sm, Some qm =>
         existing ← gets reviewManager;
         rm ← match existing with
              | Some rm => mret rm
              | None =>
                  cls ← gets ReviewAnswersManager_class;
                  match cls with
                  | Some construct =>
                      rm ← call RM_new "ReviewAnswersManager" construct;
                      modify (with_reviewManager (Some rm));;
                      mret rm
                  | None => throw (ReferenceError "ReviewAnswersManager")
                  end
              end;
         testResults ← call SM_getTestResults "getTestResults" (getTestResults sm);
         questions ← call QM_getQuestions "getQuestions" (getQuestions qm);
         call (RM_initialize testResults questions element) "initialize"
           (rm_initialize rm)
     | _, _ => mret tt
     end)
    (fun error => console_error "Error initializing review manager:").

(** *** onViewActivated (lines 187-211) *)

(** [object.method?.()]. *)
Definition optional_call (e : Effect) (method : string)
    (m : option (Call unit)) : JS unit :=
  match m with
  | Some c => call e method c
  | None => mret tt
  end.

(** The first line is not in the source: it records the invocation in the
    ghost field [dispatched]. *)
Definition onViewActivated (viewName element : string) : JS unit :=
  modify (fun w => with_dispatched (dispatched w ++ [viewName]) w);;
  try_catch
    (if String.eqb viewName "test" then
       tm ← gets testManager;
       match tm with
       | Some tm =>
           optional_call TM_updateQuestionDisplay "updateQuestionDisplay"
             (updateQuestionDisplay tm)
       | None => mret tt
       end
     else if String.eqb viewName "result" then
       tm ← gets testManager;
       match tm with
       | Some tm =>
           optional_call TM_calculateResults "calculateResults"
             (calculateResults tm)
       | None => mret tt
       end
     else if String.eqb viewName "review-answers" then
       tm ← gets testManager;
       match tm ≫= initializeReview with
       | Some c => call (TM_initializeReview element) "initializeReview" c
       | None => initializeReviewManager element
       end
     else mret tt)
    (fun error => console_error ("Error in view activation for " +:+ viewName +:+ ":")).

(** *** initializeReviewAnswersView (lines 98-131), the binding part *)

(** Lines 101-105. *)
Definition bind_backBtn (e : Element) : Element :=
  match backBtn e with
  | Some c =>
      if negb (bound c)
      then set_backBtn (Some {| bound := true; listeners := S (listeners c) |}) e
      else e
  | None => e
  end.

(** Lines 108-124, the attachment of the delegated listener. *)
Definition bind_sidebarList (e : Element) : Element :=
  match sidebarList e with
  | Some s =>
      if negb (delegationBound s)
      then set_sidebarList
             (Some {| delegationBound := true;
                      sb_listeners := S (sb_listeners s);
                      children := children s |}) e
      else e
  | None => e
  end.

Definition initializeReviewAnswersView (element : string) : JS unit :=
  try_catch
    (modify (fun w => with_document (update_first element bind_backBtn (document w)) w);;
     modify (fun w => with_document (update_first element bind_sidebarList (document w)) w);;
     initializeReviewManager element)
    (fun error => console_error "initializeReviewAnswersView error:").

(** *** Helpers of loadComponent that view-manager.js calls but does not define *)

(** Modelled from the spec: [initializeComponent(componentName, element)] is
    called at line 80 and its body is not in view-manager.js.  The spec (4.2)
    calls it the one-time initialize hook run after mounting, made idempotent
    by the binding flags; the only hook the source holds is
    [initializeReviewAnswersView], so the model runs that one for the review
    view and nothing for the other components. *)
Definition initializeComponent (componentName element : string) : JS unit :=
  if String.eqb componentName "review-answers-view"
  then initializeReviewAnswersView element
  else mret tt.

(** Lines 73-78: replace the element that has this id, else append. *)
Definition mount (el : Element) : JS unit :=
  doc ← gets document;
  match getElementById (el_id el) doc with
  | Some _ => modify (with_document (update_first (el_id el) (fun _ => el) doc))
  | None => modify (with_document (doc ++ [el]))
  end.

Definition fallbackElement (componentName : string) : Element :=
  {| el_id := componentName; el_active := false;
     backBtn := None; sidebarList := None |}.

Definition fallbackMarkup (componentName : string) : string :=
  "<div id='" +:+ componentName +:+ "' class='view'></div>".

(** Modelled from the spec: [createFallbackView(componentName)] is called at
    line 90 and its body is not in view-manager.js.  The spec (4.2, 8) says
    the fallback always yields a mounted element identified by the view's
    name, a minimal placeholder; [loadComponent] returns what it returns. *)
Definition createFallbackView (componentName : string) : JS string :=
  mount (fallbackElement componentName);;
  mret (fallbackMarkup componentName).

(** *** loadComponent (lines 46-95) *)

(** Lines 47-52, up to [await fetch(...)]. *)
Definition loadComponent_begin (componentName : string) : JS Started :=
  cache ← gets componentCache;
  match cache !! componentName with
  | Some html =>
      if truthy html then mret (Hit html)
      else emit (Fetch ("components/" +:+ componentName +:+ ".html"));; mret Fetching
  | None =>
      emit (Fetch ("components/" +:+ componentName +:+ ".html"));; mret Fetching
  end.

(** Lines 60-83: insert the component into the DOM if it is a view or panel. *)
Definition loadComponent_insert (componentName html : string) : JS unit :=
  if includes "view" componentName || String.eqb componentName "review-panel" then
    container ← gets has_container;
    if (container : bool) then
      match firstElementChild html with
      | Some componentElement =>
          let componentElement :=
            if includes "view" componentName && negb (truthy (el_id componentElement))
            then set_id componentName componentElement
            else componentElement in
          mount componentElement;;
          initializeComponent componentName (el_id componentElement)
      | None => mret tt
      end
    else mret tt
  else mret tt.

(** Lines 52-94, from the settled fetch on.  The two awaits (the fetch and
    [response.text()]) are one suspension: the code between them touches
    nothing but the response. *)
Definition loadComponent_finish (componentName : string) (net : NetOutcome) : JS string :=
  try_catch
    (response ← match net with
                | FetchRejects => throw NetworkError
                | Responds r => mret r
                end;
     if negb (ok response) then throw (FetchFailure componentName (status response))
     else
       html ← match text response with
              | Returns s => mret s
              | Raises => throw NetworkError
              end;
       modify (fun w => with_componentCache (<[componentName := html]> (componentCache w)) w);;
       loadComponent_insert componentName html;;
       mret html)
    (fun error =>
       console_error ("Error loading component " +:+ componentName +:+ ":");;
       if includes "view" componentName
       then createFallbackView componentName
       else throw error).

(** A call of [loadComponent] whose promise is awaited by [k]. *)
Definition loadComponent (componentName : string) (k : Cont) : JS unit :=
  started ← loadComponent_begin componentName;
  modify (fun w =>
    with_pending
      (pending w ++ [{| task_name := componentName; task_started := started;
                        task_cont := k |}]) w).

(** *** showView (lines 154-185) *)

(** Lines 156-161. *)
Definition showView_deactivate : JS unit :=
  forEach views (fun view =>
    doc ← gets document;
    match getElementById (view +:+ "-view") doc with
    | Some _ =>
        modify (with_document (update_first (view +:+ "-view") (set_active false) doc))
    | None => mret tt
    end).

Definition showView (viewName : string) : JS unit :=
  try_catch
    (showView_deactivate;;
     doc ← gets document;
     match getElementById (viewName +:+ "-view") doc with
     | Some _ =>
         modify (with_document (update_first (viewName +:+ "-view") (set_active true) doc));;
         modify (with_currentView viewName);;
         onViewActivated viewName (viewName +:+ "-view")
     | None =>
         console_error ("View " +:+ viewName +:+ " not found in DOM");;
         loadComponent (viewName +:+ "-view") (KRetry viewName)
     end)
    (fun error => console_error "Show view error:").

(** Lines 171-180: the [.then] callback and the [.catch] behind it. *)
Definition showView_retry (viewName : string) (outcome : Completion string) : JS unit :=
  try_catch
    (match outcome with
     | Normal _ =>
         doc ← gets document;
         match getElementById (viewName +:+ "-view") doc with
         | Some _ =>
             modify (with_document (update_first (viewName +:+ "-view") (set_active true) doc));;
             modify (with_currentView viewName);;
             onViewActivated viewName (viewName +:+ "-view")
         | None => mret tt
         end
     | Throw e => throw e
     end)
    (fun error => console_error ("Failed to reload component " +:+ viewName +:+ "-view:")).

(** *** loadAllComponents and init (lines 17-43) *)

(** Lines 29-35: the five calls start in order; the batch then waits. *)
Definition loadAllComponents_begin : JS nat :=
  b ← gets (fun w => length (batches w));
  loadComponent "landing-view" (KBatch b);;
  loadComponent "test-view" (KBatch b);;
  loadComponent "result-view" (KBatch b);;
  loadComponent "review-answers-view" (KBatch b);;
  loadComponent "review-panel" (KBatch b);;
  modify (fun w => with_batches (batches w ++ [BWaiting 5]) w);;
  mret b.

(** Lines 37-42, once [Promise.all] has settled. *)
Definition loadAllComponents_end (all : Completion unit) : JS unit :=
  try_catch
    (match all with
     | Normal _ => mret tt
     | Throw e => throw e
     end)
    (fun error => console_error "Error loading components:";; throw error).

Definition init : JS unit :=
  try_catch
    (loadAllComponents_begin;; mret tt)
    (fun error => console_error "ViewManager initialization error:").

(** Lines 20-24, after the await. *)
Definition init_end (all : Completion unit) : JS unit :=
  try_catch
    (loadAllComponents_end all;;
     showView "landing")
    (fun error => console_error "ViewManager initialization error:").

Definition set_batch (b : nat) (s : BatchStatus) : JS unit :=
  modify (fun w => with_batches (<[b := s]> (batches w)) w).

(** [Promise.all]: fulfilled when the last promise is, rejected with the first
    rejection; later settlements are ignored. *)
Definition batch_settled (b : nat) (outcome : Completion string) : JS unit :=
  bs ← gets batches;
  match bs !! b with
  | Some (BWaiting n) =>
      match outcome with
      | Normal _ =>
          match n with
          | 1%nat => set_batch b BFulfilled;; init_end (Normal tt)
          | S (S m) => set_batch b (BWaiting (S m))
          | O => mret tt
          end
      | Throw e => set_batch b BRejected;; init_end (Throw e)
      end
  | _ => mret tt
  end.

(** *** The event loop *)

Definition resume (k : Cont) (componentName : string)
    (outcome : Completion string) : JS unit :=
  match k with
  | KCaller =>
      modify (fun w => with_delivered (delivered w ++ [(componentName, outcome)]) w)
  | KRetry viewName => showView_retry viewName outcome
  | KBatch b => batch_settled b outcome
  end.

(** The pending task [i] settles; [net] is what the network answered when the
    task waits for a fetch. *)
Definition settle (i : nat) (net : NetOutcome) : JS unit :=
  tasks ← gets pending;
  match tasks !! i with
  | None => mret tt
  | Some t =>
      modify (with_pending (delete i tasks));;
      outcome ← match task_started t with
                | Hit html => mret (Normal html)
                | Fetching => capture (loadComponent_finish (task_name t) net)
                end;
      resume (task_cont t) (task_name t) outcome
  end.

(** *** The bound handlers (lines 103 and 110-122) *)

(** [e.target.closest('li')] along the target's chain of ancestors, the
    target first. *)
Definition closest_li (chain : list Node) : option Node :=
  List.find (fun n => String.eqb (node_tag n) "li") chain.

Fixpoint indexOf_from (cs : list Node) (n : Node) (i : Z) : Z :=
  match cs with
  | [] => (-1)%Z
  | c :: rest =>
      if Nat.eqb (node_key c) (node_key n) then i
      else indexOf_from rest n (i + 1)%Z
  end.

(** [Array.from(sidebarList.children).indexOf(btn)]. *)
Definition indexOf (cs : list Node) (n : Node) : Z := indexOf_from cs n 0%Z.

(** [Number.isNaN] on an integer. *)
Definition Number_isNaN (z : Z) : bool := false.

Definition sidebar_listener (sidebar : Sidebar) (chain : list Node) : JS unit :=
  match closest_li chain with
  | Some btn =>
      let idx := indexOf (children sidebar) btn in
      if negb (Number_isNaN idx) then
        sm ← gets stateManager;
        match sm with
        | Some sm =>
            call (SM_setReviewCurrentQuestion idx) "setReviewCurrentQuestion"
              (setReviewCurrentQuestion sm)
        | None => throw (TypeError "this.stateManager")
        end;;
        rm ← gets reviewManager;
        match rm with
        | Some rm =>
            call (RM_loadReviewQuestion idx) "loadReviewQuestion" (loadReviewQuestion rm)
        | None => mret tt
        end;;
        rm ← gets reviewManager;
        match rm with
        | Some rm => call RM_closeSidebar "closeSidebar" (closeSidebar rm)
        | None => throw (TypeError "this.reviewManager")
        end
      else mret tt
  | None => mret tt
  end.

(** A click runs every attached listener; a listener that throws does not
    stop the next one, and the first fault is what the page reports. *)
Fixpoint fire (n : nat) (listener : JS unit) : JS unit :=
  match n with
  | O => mret tt
  | S m => fun w =>
      match listener w with
      | (Normal _, w') => fire m listener w'
      | (Throw e, w') => (Throw e, snd (fire m listener w'))
      end
  end.

(** What can happen to the page: a call from outside the class, the
    settlement of a pending promise, a click on a bound control. *)
Inductive Event :=
  | CallInit
  | CallShowView (viewName : string)
  | CallLoadComponent (componentName : string)
  | Settle (i : nat) (net : NetOutcome)
  | ClickBack (element : string)
  | ClickSidebar (element : string) (chain : list Node).

Definition step (ev : Event) : JS unit :=
  match ev with
  | CallInit => init
  | CallShowView viewName => showView viewName
  | CallLoadComponent componentName => loadComponent componentName KCaller
  | Settle i net => settle i net
  | ClickBack element =>
      doc ← gets document;
      match getElementById element doc ≫= backBtn with
      | Some c => fire (listeners c) (showView "result")
      | None => mret tt
      end
  | ClickSidebar element chain =>
      doc ← gets document;
      match getElementById element doc ≫= sidebarList with
      | Some s => fire (sb_listeners s) (sidebar_listener s chain)
      | None => mret tt
      end
  end.

(** Events one after the other; a fault of one event does not stop the loop. *)
Fixpoint run (evs : list Event) (w : World) : World :=
  match evs with
  | [] => w
  | ev :: rest => run rest (snd (step ev w))
  end.

End ViewManager.

(** ** Concrete pages for the examples *)

Module Demo.

(** A reader for the markup the examples use: a root [<div id='...'>] has
    that id, any other tag has none, text has no element; the root carries
    the marker when its class list names [active]; it holds an unbound back
    button or an unbound sidebar list of three items when the markup names
    them. *)
Fixpoint until_quote (s : string) : string :=
  match s with
  | EmptyString => EmptyString
  | String c rest =>
      if Ascii.eqb c (Ascii.ascii_of_nat 39) then EmptyString
      else String c (until_quote rest)
  end.

Definition item (k : nat) : Node := {| node_key := k; node_tag := "li" |}.

Definition controls_of (html : string) (id : string) : Element :=
  {| el_id := id;
     el_active := includes " active" html;
     backBtn :=
       if includes "id='back-to-results-btn'" html
       then Some {| bound := false; listeners := 0 |} else None;
     sidebarList :=
       if includes "id='reviewSidebarList'" html
       then Some {| delegationBound := false; sb_listeners := 0;
                    children := [item 10; item 11; item 12] |}
       else None |}.

Definition firstElementChild (html : string) : option Element :=
  if String.prefix "<div id='" html then
    Some (controls_of html (until_quote (String.substring 9 (String.length html) html)))
  else if String.prefix "<" html then Some (controls_of html "")
  else None.

(** The review fragment: a back button and the sidebar list. *)
Definition review_markup : string :=
  "<div id='review-answers-view' class='view'>" +:+
  "<button id='back-to-results-btn'></button>" +:+
  "<ul id='reviewSidebarList'><li></li><li></li><li></li></ul></div>".

Definition landing_view : Element :=
  {| el_id := "landing-view"; el_active := true;
     backBtn := None; sidebarList := None |}.

(** A page whose static markup holds the landing view only; no collaborator
    is injected and no global is defined. *)
Definition bare_browser : Browser :=
  {| br_app := None; br_stateManager := None; br_questionManager := None;
     br_testManager := None; br_ReviewAnswersManager := None;
     br_has_container := true; br_document := [landing_view] |}.

Definition bare : World := constructor None None None bare_browser.

Definition ok_with (html : string) : NetOutcome :=
  Responds {| status := 200; text := Returns html |}.

Definition not_found : NetOutcome :=
  Responds {| status := 404; text := Returns "Not Found" |}.

(** Collaborators that answer every call. *)
Definition state_manager : StateManager :=
  {| getTestResults := Returns 7%nat; setReviewCurrentQuestion := Returns tt |}.

Definition question_manager : QuestionManager :=
  {| getQuestions := Returns 9%nat |}.

Definition review_manager : ReviewAnswersManager :=
  {| rm_initialize := Returns tt; loadReviewQuestion := Returns tt;
     closeSidebar := Returns tt |}.

(** The review view with a sidebar of three items, the listener attached. *)
Definition review_view : Element :=
  {| el_id := "review-answers-view"; el_active := true;
     backBtn := Some {| bound := true; listeners := 1 |};
     sidebarList :=
       Some {| delegationBound := true; sb_listeners := 1;
               children := [item 10; item 11; item 12] |} |}.

Definition review_browser : Browser :=
  {| br_app := None; br_stateManager := None; br_questionManager := None;
     br_testManager := None; br_ReviewAnswersManager := Some (Returns review_manager);
     br_has_container := true; br_document := [landing_view; review_view] |}.

(** A page in review, the collaborators injected and the handle built. *)
Definition reviewing : World :=
  with_reviewManager (Some review_manager)
    (constructor (Some state_manager) (Some question_manager) None review_browser).

(** The page of [bare] with the collaborators injected and the
    [ReviewAnswersManager] class loaded. *)
Definition configured_browser : Browser :=
  {| br_app := None; br_stateManager := None; br_questionManager := None;
     br_testManager := None; br_ReviewAnswersManager := Some (Returns review_manager);
     br_has_container := true; br_document := [landing_view] |}.

Definition configured : World :=
  constructor (Some state_manager) (Some question_manager) None configured_browser.

End Demo.

(** ** Observations and judgements used by the statements *)

(** The view [view] carries the active marker. *)
Definition carries (w : World) (view : string) : bool :=
  match getElementById (view +:+ "-view") (document w) with
  | Some e => el_active e
  | None => false
  end.

Definition markers (doc : list Element) : list (string * bool) :=
  List.map (fun e => (el_id e, el_active e)) doc.

Definition is_Fetch (e : Effect) : bool :=
  match e with
  | Fetch _ => true
  | _ => false
  end.

(** The network requests made so far. *)
Definition fetches (t : list Effect) : list Effect := List.filter is_Fetch t.

(** [keeps f m]: running [m] leaves the observation [f] as it was. *)
Definition keeps {A B} (f : World -> B) (m : JS A) : Prop :=
  forall w, f (snd (m w)) = f w.

(** [total m]: [m] completes normally from every world. *)
Definition total {A} (m : JS A) : Prop :=
  forall w, exists a, fst (m w) = Normal a.

(** Everything of the world but the handle, the console, the trace and the
    binding flags inside the document. *)
Definition hook_frame (w : World) :=
  (currentView w, componentCache w, pending w, delivered w, batches w,
   dispatched w, has_container w, markers (document w), fetches (trace w),
   (stateManager w, questionManager w, testManager w, window_app w,
    ReviewAnswersManager_class w)).

(** The same with the whole document and without the dispatch history. *)
Definition dispatch_frame (w : World) :=
  (currentView w, componentCache w, pending w, delivered w, batches w,
   has_container w, document w, fetches (trace w),
   (stateManager w, questionManager w, testManager w, window_app w,
    ReviewAnswersManager_class w)).

(** What a settled load leaves alone. *)
Definition load_frame (w : World) :=
  (currentView w, pending w, delivered w, batches w, dispatched w,
   has_container w, fetches (trace w),
   (stateManager w, questionManager w, testManager w, window_app w,
    ReviewAnswersManager_class w)).

(** The document once lines 156-161 have run. *)
Definition deactivated (doc : list Element) : list Element :=
  update_first "review-answers-view" (set_active false)
    (update_first "result-view" (set_active false)
       (update_first "test-view" (set_active false)
          (update_first "landing-view" (set_active false) doc))).

Definition is_view_id (id : string) : bool :=
  String.eqb id "landing-view" || String.eqb id "test-view" ||
  String.eqb id "result-view" || String.eqb id "review-answers-view".

(** The task [showView] queues when the target is missing. *)
Definition retry_task (viewName : string) (started : Started) : Task :=
  {| task_name := viewName +:+ "-view"; task_started := started;
     task_cont := KRetry viewName |}.

(** The fetch did not produce markup: the request was rejected, the status is
    not a success, or the body could not be read. *)
Definition fetch_fails (net : NetOutcome) : Prop :=
  match net with
  | FetchRejects => True
  | Responds r => ok r = false \/ text r = Raises
  end.

(** Where [loadComponent] stops in world [w]: the cached markup when it is
    truthy, the fetch otherwise (lines 47-52). *)
Definition started_of (componentName : string) (w : World) : Started :=
  match componentCache w !! componentName with
  | Some html => if truthy html then Hit html else Fetching
  | None => Fetching
  end.

(** The marker of the element [getElementById id] finds. *)
Definition marker_at (doc : list Element) (id : string) : bool :=
  match getElementById id doc with
  | Some e => el_active e
  | None => false
  end.

(** The root element of the fetched markup, if the fetch yields one, does not
    carry the marker. *)
Definition mounts_unmarked (parse : string -> option Element) (net : NetOutcome) : Prop :=
  match net with
  | FetchRejects => True
  | Responds r =>
      match text r with
      | Returns html =>
          match parse html with
          | Some el => el_active el = false
          | None => True
          end
      | Raises => True
      end
  end.

(** [preserves P m]: [m] keeps the property [P] of the world. *)
Definition preserves {A} (P : World -> Prop) (m : JS A) : Prop :=
  forall w, P w -> P (snd (m w)).

(** The ids of the document's elements, in document order. *)
Definition ids (doc : list Element) : list string := List.map el_id doc.

Definition is_RM_new (e : Effect) : bool :=
  match e with
  | RM_new => true
  | _ => false
  end.

(** How often [new ReviewAnswersManager()] has run. *)
Definition constructions (t : list Effect) : nat := length (List.filter is_RM_new t).

(** The handle is there exactly when the constructor has run, and it has run
    once. *)
Definition handle_counted (w : World) : Prop :=
  constructions (trace w) = match reviewManager w with Some _ => 1%nat | None => 0%nat end.

(** [new ReviewAnswersManager()] does not throw (the class may be missing). *)
Definition constructor_returns (w : World) : Prop :=
  match ReviewAnswersManager_class w with
  | Some Raises => False
  | _ => True
  end.

(** The document still starts with the elements whose ids are [l], in that
    order, and has no two elements with one id if [l] had none. *)
Definition document_extends (l : list string) (w : World) : Prop :=
  (exists more, ids (document w) = l ++ more) /\
  (List.NoDup l -> List.NoDup (ids (document w))).

(** The components [loadAllComponents] loads, in the order of lines 30-34. *)
Definition components : list string :=
  ["landing-view"; "test-view"; "result-view"; "review-answers-view"; "review-panel"].

(** The task [loadAllComponents] queues for [componentName] in world [w]. *)
Definition batch_load (b : nat) (w : World) (componentName : string) : Task :=
  {| task_name := componentName; task_started := started_of componentName w;
     task_cont := KBatch b |}.

(** A load awaited by the batch [b] whose failure the fallback answers. *)
Definition batch_task (b : nat) (t : Task) : Prop :=
  task_cont t = KBatch b /\ includes "view" (task_name t) = true.

(** The batch [b] waits for [k] more loads, the tasks [rest] queued behind
    [p]; the current view is [cv] and the dispatch history [d]. *)
Definition batch_waits (p : list Task) (b : nat) (cv : string) (d : list string)
    (k : nat) (rest : list Task) (w : World) : Prop :=
  pending w = p ++ rest /\ batches w !! b = Some (BWaiting k) /\
  currentView w = cv /\ dispatched w = d /\ Forall (batch_task b) rest.

(** The settled fetch of [componentName] puts an element of that id into
    the document: the fetch failed and the fallback is mounted, or the page
    has its container and the root of the markup has no id or this one. *)
Definition yields_element (parse : string -> option Element) (componentName : string)
    (net : NetOutcome) (container : bool) : Prop :=
  match net with
  | FetchRejects => True
  | Responds r =>
      if negb (ok r) then True
      else match text r with
           | Raises => True
           | Returns html =>
               container = true /\
               match parse html with
               | Some el => el_id el = "" \/ el_id el = componentName
               | None => False
               end
           end
  end.

(** * Properties *)

(** ** Strings *)

Lemma includes_app_r (needle s t : string) :
  includes needle t = true -> includes needle (s +:+ t) = true.
Proof.
  intros H. induction s as [|c s IH]; simpl; [exact H|].
  rewrite IH. apply orb_true_r.
Qed.

Lemma includes_view_suffix (v : string) : includes "view" (v +:+ "-view") = true.
Proof. apply includes_app_r. reflexivity. Qed.

Lemma length_append (s t : string) :
  String.length (s +:+ t) = (String.length s + String.length t)%nat.
Proof. induction s as [|c s IH]; simpl; [reflexivity|]. rewrite IH. reflexivity. Qed.

Lemma append_suffix_inj (s u v : string) : u +:+ s = v +:+ s -> u = v.
Proof.
  revert v. induction u as [|a u IH]; intros [|b v] H; simpl in H.
  - reflexivity.
  - apply (f_equal String.length) in H.
    rewrite !length_append in H. simpl in H. rewrite ?length_append in H. lia.
  - apply (f_equal String.length) in H.
    rewrite !length_append in H. simpl in H. rewrite ?length_append in H. lia.
  - injection H as -> H. f_equal. apply IH, H.
Qed.

Lemma eqb_view_suffix (u v : string) :
  String.eqb (u +:+ "-view") (v +:+ "-view") = String.eqb u v.
Proof.
  destruct (String.eqb_spec u v) as [->|Hne].
  - apply String.eqb_refl.
  - apply String.eqb_neq. intros H. apply Hne, (append_suffix_inj _ _ _ H).
Qed.

Lemma view_id_nonempty (v : string) : String.eqb (v +:+ "-view") "" = false.
Proof. destruct v; reflexivity. Qed.

(** ** The document *)

Lemma getElementById_update_first (id id' : string) f doc :
  (forall e, has_id id e = true -> has_id id (f e) = true) ->
  getElementById id' (update_first id f doc) =
    if String.eqb id' id then f <$> getElementById id' doc
    else getElementById id' doc.
Proof.
  intros Hf. unfold getElementById.
  destruct (String.eqb id' "") eqn:Hempty.
  { destruct (String.eqb id' id); reflexivity. }
  destruct (String.eqb_spec id' id) as [->|Hne].
  - induction doc as [|e doc IH]; simpl; [reflexivity|].
    destruct (has_id id e) eqn:He; simpl.
    + rewrite (Hf e He). reflexivity.
    + rewrite He. exact IH.
  - induction doc as [|e doc IH]; simpl; [reflexivity|].
    destruct (has_id id e) eqn:He; simpl.
    + pose proof (Hf e He) as Hfe. unfold has_id in *.
      apply String.eqb_eq in He, Hfe.
      assert (String.eqb (el_id (f e)) id' = false) as ->
        by (apply String.eqb_neq; congruence).
      assert (String.eqb (el_id e) id' = false) as ->
        by (apply String.eqb_neq; congruence).
      reflexivity.
    + destruct (has_id id' e); [reflexivity|exact IH].
Qed.

Lemma update_first_absent (id : string) f doc :
  List.find (has_id id) doc = None -> update_first id f doc = doc.
Proof.
  induction doc as [|e doc IH]; simpl; [reflexivity|].
  destruct (has_id id e); [discriminate|]. intros H. f_equal. apply IH, H.
Qed.

Lemma getElementById_app (id : string) doc el :
  getElementById id (doc ++ [el]) =
    match getElementById id doc with
    | Some e => Some e
    | None => if String.eqb id "" then None
              else if has_id id el then Some el else None
    end.
Proof.
  unfold getElementById. destruct (String.eqb id ""); [reflexivity|].
  induction doc as [|e doc IH]; simpl.
  - destruct (has_id id el); reflexivity.
  - destruct (has_id id e); [reflexivity|exact IH].
Qed.

Lemma has_id_set_active id b e : has_id id (set_active b e) = has_id id e.
Proof. reflexivity. Qed.

Lemma markers_update_first id f doc :
  (forall e, el_id (f e) = el_id e /\ el_active (f e) = el_active e) ->
  markers (update_first id f doc) = markers doc.
Proof.
  intros Hf. induction doc as [|e doc IH]; simpl; [reflexivity|].
  destruct (has_id id e); simpl.
  - destruct (Hf e) as [-> ->]. reflexivity.
  - rewrite IH. reflexivity.
Qed.

Lemma bind_backBtn_same e :
  el_id (bind_backBtn e) = el_id e /\ el_active (bind_backBtn e) = el_active e.
Proof.
  unfold bind_backBtn. destruct (backBtn e) as [c|]; [|split; reflexivity].
  destruct (negb (bound c)); split; reflexivity.
Qed.

Lemma bind_sidebarList_same e :
  el_id (bind_sidebarList e) = el_id e /\
  el_active (bind_sidebarList e) = el_active e.
Proof.
  unfold bind_sidebarList. destruct (sidebarList e) as [s|]; [|split; reflexivity].
  destruct (negb (delegationBound s)); split; reflexivity.
Qed.

Lemma find_markers id doc doc' :
  markers doc' = markers doc ->
  option_map el_active (List.find (has_id id) doc') =
  option_map el_active (List.find (has_id id) doc).
Proof.
  revert doc'. induction doc as [|e doc IH]; intros [|e' doc'] H;
    simpl in *; try discriminate; [reflexivity|].
  injection H as Hid Hact Hrest. unfold has_id at 1 3. rewrite Hid.
  destruct (String.eqb (el_id e) id); simpl; [congruence|].
  apply IH, Hrest.
Qed.

Lemma fetches_snoc e t :
  fetches (t ++ [e]) = fetches t ++ (if is_Fetch e then [e] else []).
Proof.
  unfold fetches. rewrite List.filter_app. simpl. destruct (is_Fetch e); reflexivity.
Qed.

(** ** Rules for method bodies *)

Section Rules.
Context {B : Type} (f : World -> B).

Lemma keeps_mret {A} (a : A) : keeps f (mret a).
Proof. intros w. reflexivity. Qed.

Lemma keeps_throw {A} e : keeps f (@throw A e).
Proof. intros w. reflexivity. Qed.

Lemma keeps_gets {A} (g : World -> A) : keeps f (gets g).
Proof. intros w. reflexivity. Qed.

Lemma keeps_modify g : (forall w, f (g w) = f w) -> keeps f (modify g).
Proof. intros H w. apply H. Qed.

Lemma keeps_bind {A C} (m : JS A) (k : A -> JS C) :
  keeps f m -> (forall a, keeps f (k a)) -> keeps f (m ≫= k).
Proof.
  intros Hm Hk w. unfold mbind, JS_bind, bind.
  specialize (Hm w). destruct (m w) as [[a|e] w']; simpl in *.
  - rewrite Hk. exact Hm.
  - exact Hm.
Qed.

Lemma keeps_try_catch {A} (body : JS A) handler :
  keeps f body -> (forall e, keeps f (handler e)) -> keeps f (try_catch body handler).
Proof.
  intros Hb Hh w. unfold try_catch.
  specialize (Hb w). destruct (body w) as [[a|e] w']; simpl in *.
  - exact Hb.
  - rewrite Hh. exact Hb.
Qed.

Lemma keeps_capture {A} (m : JS A) : keeps f m -> keeps f (capture m).
Proof.
  intros Hm w. unfold capture. specialize (Hm w).
  destruct (m w) as [c w']. exact Hm.
Qed.

Lemma keeps_forEach {A} (xs : list A) body :
  (forall x, keeps f (body x)) -> keeps f (forEach xs body).
Proof.
  intros Hb. induction xs as [|x xs IH]; simpl.
  - apply keeps_mret.
  - apply keeps_bind; [apply Hb|intros _; exact IH].
Qed.

Lemma keeps_fire n (listener : JS unit) : keeps f listener -> keeps f (fire n listener).
Proof.
  intros Hl. induction n as [|n IH]; simpl; intros w.
  - reflexivity.
  - specialize (Hl w). destruct (listener w) as [[a|e] w']; simpl in *.
    + rewrite IH. exact Hl.
    + rewrite IH. exact Hl.
Qed.

End Rules.

Lemma total_mret {A} (a : A) : total (mret a : JS A).
Proof. intros w. exists a. reflexivity. Qed.

Lemma total_gets {A} (g : World -> A) : total (gets g).
Proof. intros w. exists (g w). reflexivity. Qed.

Lemma total_modify g : total (modify g).
Proof. intros w. exists tt. reflexivity. Qed.

Lemma total_bind {A C} (m : JS A) (k : A -> JS C) :
  total m -> (forall a, total (k a)) -> total (m ≫= k).
Proof.
  intros Hm Hk w. unfold mbind, JS_bind, bind.
  destruct (Hm w) as [a Ha]. destruct (m w) as [c w']. simpl in Ha. subst c.
  apply Hk.
Qed.

Lemma total_try_catch {A} (body : JS A) handler :
  (forall e, total (handler e)) -> total (try_catch body handler).
Proof.
  intros Hh w. unfold try_catch. destruct (body w) as [[a|e] w'].
  - exists a. reflexivity.
  - apply Hh.
Qed.

Lemma total_capture {A} (m : JS A) : total (capture m).
Proof. intros w. unfold capture. destruct (m w) as [c w']. exists c. reflexivity. Qed.

Lemma total_forEach {A} (xs : list A) body :
  (forall x, total (body x)) -> total (forEach xs body).
Proof.
  intros Hb. induction xs as [|x xs IH]; simpl.
  - apply total_mret.
  - apply total_bind; [apply Hb|intros _; exact IH].
Qed.

Lemma total_fire n (listener : JS unit) : total listener -> total (fire n listener).
Proof.
  intros Hl. induction n as [|n IH]; simpl; intros w.
  - exists tt. reflexivity.
  - destruct (Hl w) as [a Ha]. destruct (listener w) as [c w']. simpl in Ha.
    subst c. apply IH.
Qed.

Lemma total_unit (m : JS unit) w : total m -> fst (m w) = Normal tt.
Proof. intros H. destruct (H w) as [[] E]. exact E. Qed.

(** What a bind does once its first part is known to complete. *)
Lemma bind_normal {A C} (m : JS A) (k : A -> JS C) w a w' :
  m w = (Normal a, w') -> (m ≫= k) w = k a w'.
Proof. intros H. unfold mbind, JS_bind, bind. rewrite H. reflexivity. Qed.

Lemma bind_throw {A C} (m : JS A) (k : A -> JS C) w e w' :
  m w = (Throw e, w') -> (m ≫= k) w = (Throw e, w').
Proof. intros H. unfold mbind, JS_bind, bind. rewrite H. reflexivity. Qed.

Ltac keeps_side :=
  intros; unfold hook_frame, dispatch_frame, load_frame; cbn -[fetches markers];
  rewrite ?fetches_snoc, ?app_nil_r,
    ?(markers_update_first _ _ _ bind_backBtn_same),
    ?(markers_update_first _ _ _ bind_sidebarList_same);
  cbn -[fetches markers]; rewrite ?app_nil_r; reflexivity.

Ltac keeps_tac :=
  repeat first
    [ apply keeps_mret
    | apply keeps_throw
    | apply keeps_gets
    | apply keeps_capture
    | apply keeps_bind; [|intros ?]
    | apply keeps_try_catch; [|intros ?]
    | apply keeps_forEach; intros ?
    | apply keeps_modify; keeps_side
    | progress unfold console_error, emit, call, optional_call, own_or_app
    | match goal with
      | |- keeps _ (match ?x with _ => _ end) => destruct x
      end
    | solve [eauto with keeps] ].

Ltac total_tac :=
  repeat first
    [ apply total_mret
    | apply total_gets
    | apply total_modify
    | apply total_capture
    | apply total_try_catch; intros ?
    | apply total_bind; [|intros ?]
    | apply total_forEach; intros ?
    | progress unfold console_error, emit
    | match goal with
      | |- total (match ?x with _ => _ end) => destruct x
      end
    | solve [eauto with total] ].

Create HintDb keeps.
Create HintDb total.

(** ** What each method leaves alone *)

Lemma initializeReviewManager_total element : total (initializeReviewManager element).
Proof. unfold initializeReviewManager. total_tac. Qed.

Lemma initializeReviewManager_keeps element :
  keeps (fun w => (dispatch_frame w, dispatched w)) (initializeReviewManager element).
Proof. unfold initializeReviewManager. keeps_tac. Qed.

Lemma keeps_weaken {A B C} (f : World -> B) (g : World -> C) (m : JS A) :
  keeps f m -> (forall w w', f w' = f w -> g w' = g w) -> keeps g m.
Proof. intros Hm Hfg w. apply Hfg, Hm. Qed.

Ltac frame_weaken :=
  unfold hook_frame, dispatch_frame, load_frame; cbn -[fetches markers];
  intros; congruence.

#[local] Hint Resolve initializeReviewManager_total : total.
#[local] Hint Extern 1 (keeps _ (initializeReviewManager _)) =>
  (eapply keeps_weaken; [apply initializeReviewManager_keeps | frame_weaken]) : keeps.

Lemma onViewActivated_total viewName element : total (onViewActivated viewName element).
Proof. unfold onViewActivated. total_tac. Qed.

Lemma onViewActivated_keeps viewName element :
  keeps dispatch_frame (onViewActivated viewName element).
Proof. unfold onViewActivated. keeps_tac. Qed.

Lemma onViewActivated_dispatched viewName element w :
  dispatched (snd (onViewActivated viewName element w)) = dispatched w ++ [viewName].
Proof.
  unfold onViewActivated.
  rewrite (bind_normal _ _ w tt (with_dispatched (dispatched w ++ [viewName]) w))
    by reflexivity.
  match goal with
  | |- dispatched (snd (?m ?w')) = _ =>
      assert (keeps dispatched m) as H by keeps_tac; rewrite (H w')
  end.
  reflexivity.
Qed.

#[local] Hint Resolve onViewActivated_total : total.
#[local] Hint Extern 1 (keeps _ (onViewActivated _ _)) =>
  (eapply keeps_weaken; [apply onViewActivated_keeps | frame_weaken]) : keeps.

Lemma initializeReviewAnswersView_total element :
  total (initializeReviewAnswersView element).
Proof. unfold initializeReviewAnswersView. total_tac. Qed.

Lemma initializeReviewAnswersView_keeps element :
  keeps hook_frame (initializeReviewAnswersView element).
Proof. unfold initializeReviewAnswersView. keeps_tac. Qed.

Lemma initializeComponent_total componentName element :
  total (initializeComponent componentName element).
Proof.
  unfold initializeComponent.
  destruct (String.eqb componentName "review-answers-view");
    [apply initializeReviewAnswersView_total|apply total_mret].
Qed.

Lemma initializeComponent_keeps componentName element :
  keeps hook_frame (initializeComponent componentName element).
Proof.
  unfold initializeComponent.
  destruct (String.eqb componentName "review-answers-view");
    [apply initializeReviewAnswersView_keeps|apply keeps_mret].
Qed.

#[local] Hint Resolve initializeComponent_total : total.
#[local] Hint Extern 1 (keeps _ (initializeComponent _ _)) =>
  (eapply keeps_weaken; [apply initializeComponent_keeps | frame_weaken]) : keeps.

Lemma mount_total el : total (mount el).
Proof. unfold mount. total_tac. Qed.

Lemma mount_keeps el : keeps (fun w => (load_frame w, componentCache w)) (mount el).
Proof. unfold mount. keeps_tac. Qed.

#[local] Hint Resolve mount_total : total.
#[local] Hint Extern 1 (keeps _ (mount _)) =>
  (eapply keeps_weaken; [apply mount_keeps | frame_weaken]) : keeps.

Lemma createFallbackView_total componentName : total (createFallbackView componentName).
Proof. unfold createFallbackView. total_tac. Qed.

Lemma createFallbackView_keeps componentName :
  keeps (fun w => (load_frame w, componentCache w)) (createFallbackView componentName).
Proof. unfold createFallbackView. keeps_tac. Qed.

#[local] Hint Resolve createFallbackView_total : total.
#[local] Hint Extern 1 (keeps _ (createFallbackView _)) =>
  (eapply keeps_weaken; [apply createFallbackView_keeps | frame_weaken]) : keeps.

Section WithParser.
Variable parse : string -> option Element.

Lemma loadComponent_insert_total componentName html :
  total (loadComponent_insert parse componentName html).
Proof. unfold loadComponent_insert. total_tac. Qed.

Lemma loadComponent_insert_keeps componentName html :
  keeps (fun w => (load_frame w, componentCache w))
    (loadComponent_insert parse componentName html).
Proof. unfold loadComponent_insert. keeps_tac. Qed.

Lemma loadComponent_finish_keeps componentName net :
  keeps load_frame (loadComponent_finish parse componentName net).
Proof.
  pose proof (loadComponent_insert_keeps componentName) as Hins.
  unfold loadComponent_finish. keeps_tac.
  eapply keeps_weaken; [apply Hins | frame_weaken].
Qed.

End WithParser.

(** ** showView *)

Lemma with_document_same w : with_document (document w) w = w.
Proof. destruct w; reflexivity. Qed.

Lemma deactivate_one (id : string) w :
  String.eqb id "" = false ->
  (doc ← gets document;
   match getElementById id doc with
   | Some _ => modify (with_document (update_first id (set_active false) doc))
   | None => mret tt
   end) w
  = (Normal tt, with_document (update_first id (set_active false) (document w)) w).
Proof.
  intros Hid. unfold mbind, JS_bind, bind, gets. cbn.
  destruct (getElementById id (document w)) eqn:E; [reflexivity|].
  unfold getElementById in E. rewrite Hid in E. cbn.
  rewrite (update_first_absent _ _ _ E), with_document_same. reflexivity.
Qed.

Lemma showView_deactivate_eq w :
  showView_deactivate w = (Normal tt, with_document (deactivated (document w)) w).
Proof.
  unfold showView_deactivate, views, forEach.
  rewrite (bind_normal _ _ _ _ _ (deactivate_one "landing-view" w eq_refl)).
  rewrite (bind_normal _ _ _ _ _ (deactivate_one "test-view" _ eq_refl)).
  rewrite (bind_normal _ _ _ _ _ (deactivate_one "result-view" _ eq_refl)).
  rewrite (bind_normal _ _ _ _ _ (deactivate_one "review-answers-view" _ eq_refl)).
  reflexivity.
Qed.

Lemma has_id_off id e : has_id id e = true -> has_id id (set_active false e) = true.
Proof. intros H. exact H. Qed.

Lemma has_id_on id e : has_id id e = true -> has_id id (set_active true e) = true.
Proof. intros H. exact H. Qed.

Lemma deactivated_lookup id doc :
  getElementById id (deactivated doc) =
    if is_view_id id then set_active false <$> getElementById id doc
    else getElementById id doc.
Proof.
  unfold deactivated, is_view_id.
  rewrite !getElementById_update_first by apply has_id_off.
  destruct (String.eqb_spec id "review-answers-view") as [->|_]; [reflexivity|].
  destruct (String.eqb_spec id "result-view") as [->|_]; [reflexivity|].
  destruct (String.eqb_spec id "test-view") as [->|_]; [reflexivity|].
  destruct (String.eqb_spec id "landing-view") as [->|_]; reflexivity.
Qed.

Lemma deactivated_found id doc :
  getElementById id (deactivated doc) = None <-> getElementById id doc = None.
Proof.
  rewrite deactivated_lookup.
  destruct (is_view_id id), (getElementById id doc); simpl; split; congruence.
Qed.

Lemma is_view_id_views u : In u views -> is_view_id (u +:+ "-view") = true.
Proof.
  unfold views. simpl. intros [<-|[<-|[<-|[<-|[]]]]]; reflexivity.
Qed.

(** The found branch, lines 164-168. *)
Lemma showView_found viewName w e :
  getElementById (viewName +:+ "-view") (document w) = Some e ->
  showView viewName w =
    (Normal tt,
     snd (onViewActivated viewName (viewName +:+ "-view")
            (with_currentView viewName
               (with_document
                  (update_first (viewName +:+ "-view") (set_active true)
                     (deactivated (document w))) w)))).
Proof.
  intros Hfound. unfold showView, try_catch.
  rewrite (bind_normal _ _ _ _ _ (showView_deactivate_eq w)).
  unfold mbind at 1, JS_bind, bind, gets. cbn.
  destruct (getElementById (viewName +:+ "-view") (deactivated (document w))) eqn:E.
  2:{ apply (proj1 (deactivated_found _ _)) in E. congruence. }
  set (w1 := with_currentView viewName
               (with_document
                  (update_first (viewName +:+ "-view") (set_active true)
                     (deactivated (document w))) w)).
  change ((let (c, w') := onViewActivated viewName (viewName +:+ "-view") w1 in
           match c with
           | Normal a => (Normal a, w')
           | Throw _ => console_error "Show view error:" w'
           end) = (Normal tt, snd (onViewActivated viewName (viewName +:+ "-view") w1))).
  pose proof (total_unit _ w1 (onViewActivated_total viewName (viewName +:+ "-view"))) as Hn.
  destruct (onViewActivated viewName (viewName +:+ "-view") w1) as [c w''].
  simpl in Hn. subst c. reflexivity.
Qed.

Lemma loadComponent_begin_total componentName : total (loadComponent_begin componentName).
Proof. unfold loadComponent_begin. total_tac. Qed.

Lemma loadComponent_total componentName k : total (loadComponent componentName k).
Proof.
  unfold loadComponent.
  apply total_bind; [apply loadComponent_begin_total|intros ?; apply total_modify].
Qed.

(** The missing branch, lines 169-171 up to the pending promise. *)
Lemma showView_missing viewName w :
  getElementById (viewName +:+ "-view") (document w) = None ->
  showView viewName w =
    (Normal tt,
     snd (loadComponent (viewName +:+ "-view") (KRetry viewName)
            (with_console (console w ++ ["View " +:+ viewName +:+ " not found in DOM"])
               (with_document (deactivated (document w)) w)))).
Proof.
  intros Hmiss. unfold showView, try_catch.
  rewrite (bind_normal _ _ _ _ _ (showView_deactivate_eq w)).
  unfold mbind at 1, JS_bind, bind, gets. cbn.
  destruct (getElementById (viewName +:+ "-view") (deactivated (document w))) eqn:E.
  1:{ assert (getElementById (viewName +:+ "-view") (deactivated (document w)) <> None)
        as Hne by congruence.
      rewrite deactivated_found in Hne. congruence. }
  set (w1 := with_console (console w ++ ["View " +:+ viewName +:+ " not found in DOM"])
               (with_document (deactivated (document w)) w)).
  change ((let (c, w') := loadComponent (viewName +:+ "-view") (KRetry viewName) w1 in
           match c with
           | Normal a => (Normal a, w')
           | Throw _ => console_error "Show view error:" w'
           end) = (Normal tt, snd (loadComponent (viewName +:+ "-view") (KRetry viewName) w1))).
  pose proof (total_unit _ w1 (loadComponent_total (viewName +:+ "-view") (KRetry viewName))) as Hn.
  destruct (loadComponent (viewName +:+ "-view") (KRetry viewName) w1) as [c w''].
  simpl in Hn. subst c. reflexivity.
Qed.

Lemma onViewActivated_document viewName element w :
  document (snd (onViewActivated viewName element w)) = document w.
Proof.
  pose proof (onViewActivated_keeps viewName element w) as H.
  unfold dispatch_frame in H. congruence.
Qed.

Lemma onViewActivated_currentView viewName element w :
  currentView (snd (onViewActivated viewName element w)) = currentView w.
Proof.
  pose proof (onViewActivated_keeps viewName element w) as H.
  unfold dispatch_frame in H. congruence.
Qed.

Lemma showView_total viewName : total (showView viewName).
Proof. unfold showView. apply total_try_catch. intros e. total_tac. Qed.

(** After a direct activation the views that carry the marker are exactly
    the target. *)
Lemma showView_found_carries viewName w e u :
  getElementById (viewName +:+ "-view") (document w) = Some e ->
  carries (snd (showView viewName w)) u =
    if String.eqb u viewName then true
    else if is_view_id (u +:+ "-view") then false else carries w u.
Proof.
  intros Hfound. rewrite (showView_found _ _ _ Hfound). cbn [snd].
  unfold carries. rewrite onViewActivated_document. cbn [document with_currentView with_document].
  rewrite getElementById_update_first by apply has_id_on.
  rewrite eqb_view_suffix, deactivated_lookup.
  destruct (String.eqb_spec u viewName) as [->|Hne].
  - rewrite Hfound. destruct (is_view_id (viewName +:+ "-view")); reflexivity.
  - destruct (is_view_id (u +:+ "-view")); [|reflexivity].
    destruct (getElementById (u +:+ "-view") (document w)); reflexivity.
Qed.

Lemma showView_found_exclusive viewName w e :
  getElementById (viewName +:+ "-view") (document w) = Some e ->
  forall u, In u views ->
    carries (snd (showView viewName w)) u = String.eqb u viewName.
Proof.
  intros Hfound u Hu. rewrite (showView_found_carries _ _ _ _ Hfound).
  rewrite (is_view_id_views _ Hu). destruct (String.eqb u viewName); reflexivity.
Qed.

Lemma showView_found_state viewName w e :
  getElementById (viewName +:+ "-view") (document w) = Some e ->
  currentView (snd (showView viewName w)) = viewName /\
  dispatched (snd (showView viewName w)) = dispatched w ++ [viewName].
Proof.
  intros Hfound. rewrite (showView_found _ _ _ Hfound). cbn [snd].
  rewrite onViewActivated_currentView, onViewActivated_dispatched. split; reflexivity.
Qed.

(** ** loadComponent *)

Section Loading.
Variable parse : string -> option Element.

Lemma loadComponent_begin_miss componentName w :
  match componentCache w !! componentName with
  | Some html => truthy html
  | None => false
  end = false ->
  loadComponent_begin componentName w =
    (Normal Fetching,
     with_trace (trace w ++ [Fetch ("components/" +:+ componentName +:+ ".html")]) w).
Proof.
  intros H. unfold loadComponent_begin, mbind, JS_bind, bind, gets. cbn.
  destruct (componentCache w !! componentName) as [html|]; [|reflexivity].
  rewrite H. reflexivity.
Qed.

Lemma loadComponent_begin_hit componentName html w :
  componentCache w !! componentName = Some html -> truthy html = true ->
  loadComponent_begin componentName w = (Normal (Hit html), w).
Proof.
  intros Hc Ht. unfold loadComponent_begin, mbind, JS_bind, bind, gets. cbn.
  rewrite Hc, Ht. reflexivity.
Qed.

(** A fetch answered with a success status and a readable body. *)
Lemma loadComponent_finish_ok componentName r html w :
  ok r = true -> text r = Returns html ->
  loadComponent_finish parse componentName (Responds r) w =
    (Normal html,
     snd (loadComponent_insert parse componentName html
            (with_componentCache (<[componentName := html]> (componentCache w)) w))).
Proof.
  intros Hok Htext. unfold loadComponent_finish, try_catch.
  unfold mbind at 1, JS_bind, bind. cbn. rewrite Hok, Htext. cbn.
  set (w1 := with_componentCache (<[componentName := html]> (componentCache w)) w).
  pose proof (total_unit _ w1 (loadComponent_insert_total parse componentName html)) as Hn.
  change ((let (c, w') :=
             (let (c1, w'1) := loadComponent_insert parse componentName html w1 in
              match c1 with
              | Normal _ => (Normal html, w'1)
              | Throw e => (Throw e, w'1)
              end) in
           match c with
           | Normal a => (Normal a, w')
           | Throw e =>
               (console_error ("Error loading component " +:+ componentName +:+ ":");;
                if includes "view" componentName
                then createFallbackView componentName
                else throw e) w'
           end)
          = (Normal html, snd (loadComponent_insert parse componentName html w1))).
  destruct (loadComponent_insert parse componentName html w1) as [c w2].
  simpl in Hn. subst c. reflexivity.
Qed.

Lemma settle_eq i net w t :
  pending w !! i = Some t ->
  settle parse i net w =
    (outcome ← match task_started t with
               | Hit html => mret (Normal html)
               | Fetching => capture (loadComponent_finish parse (task_name t) net)
               end;
     resume (task_cont t) (task_name t) outcome)
      (with_pending (delete i (pending w)) w).
Proof.
  intros H. unfold settle. unfold mbind at 1, JS_bind, bind, gets. cbn.
  rewrite H. reflexivity.
Qed.

Lemma lookup_snoc {A} (l : list A) (x : A) : (l ++ [x]) !! length l = Some x.
Proof. rewrite lookup_app_r by lia. rewrite Nat.sub_diag. reflexivity. Qed.

Lemma delete_snoc {A} (l : list A) (x : A) : delete (length l) (l ++ [x]) = l.
Proof.
  induction l as [|a l IH]; simpl; [reflexivity|]. f_equal. exact IH.
Qed.

End Loading.

Section LoadAwaited.
Variable parse : string -> option Element.

Lemma run_app evs1 evs2 w : run parse (evs1 ++ evs2) w = run parse evs2 (run parse evs1 w).
Proof. revert w. induction evs1 as [|ev evs1 IH]; intros w; simpl; [reflexivity|apply IH]. Qed.

Lemma with_pending_restore p t w :
  with_pending (pending w) (with_pending p (with_trace t w)) = with_trace t w.
Proof. destruct w; reflexivity. Qed.

Lemma with_pending_restore' p w : with_pending (pending w) (with_pending p w) = w.
Proof. destruct w; reflexivity. Qed.

(** An outside caller awaits [loadComponent] on an uncached name. *)
Lemma load_settle_miss componentName net w :
  match componentCache w !! componentName with
  | Some html => truthy html
  | None => false
  end = false ->
  run parse [CallLoadComponent componentName; Settle (length (pending w)) net] w =
    let r := loadComponent_finish parse componentName net
               (with_trace (trace w ++ [Fetch ("components/" +:+ componentName +:+ ".html")]) w) in
    with_delivered (delivered (snd r) ++ [(componentName, fst r)]) (snd r).
Proof.
  intros Hmiss. cbn [run step]. unfold loadComponent.
  rewrite (bind_normal _ _ _ _ _ (loadComponent_begin_miss _ _ Hmiss)).
  cbn [snd modify].
  erewrite settle_eq by (cbn [pending with_pending with_trace]; apply lookup_snoc).
  cbn [pending with_pending with_trace task_started task_name task_cont].
  rewrite delete_snoc.
  change (with_pending (pending w) _) with
    (with_pending (pending w)
       (with_pending
          (pending w ++ [{| task_name := componentName; task_started := Fetching;
                            task_cont := KCaller |}])
          (with_trace (trace w ++ [Fetch ("components/" +:+ componentName +:+ ".html")]) w))).
  rewrite with_pending_restore.
  unfold mbind, JS_bind, bind, capture.
  destruct (loadComponent_finish parse componentName net _) as [c w']. reflexivity.
Qed.

(** An outside caller awaits [loadComponent] on a cached name. *)
Lemma load_settle_hit componentName html net w :
  componentCache w !! componentName = Some html -> truthy html = true ->
  run parse [CallLoadComponent componentName; Settle (length (pending w)) net] w =
    with_delivered (delivered w ++ [(componentName, Normal html)]) w.
Proof.
  intros Hc Ht. cbn [run step]. unfold loadComponent.
  rewrite (bind_normal _ _ _ _ _ (loadComponent_begin_hit _ _ _ Hc Ht)).
  cbn [snd modify].
  erewrite settle_eq by (cbn [pending with_pending]; apply lookup_snoc).
  cbn [pending with_pending task_started task_name task_cont].
  rewrite delete_snoc.
  change (with_pending (pending w) _) with
    (with_pending (pending w)
       (with_pending
          (pending w ++ [{| task_name := componentName; task_started := Hit html;
                            task_cont := KCaller |}]) w)).
  rewrite with_pending_restore'. reflexivity.
Qed.

End LoadAwaited.

(** ** The fallback *)

Lemma mount_lookup el w :
  String.eqb (el_id el) "" = false ->
  getElementById (el_id el) (document (snd (mount el w))) = Some el.
Proof.
  intros Hid. unfold mount, mbind, JS_bind, bind, gets. cbn.
  destruct (getElementById (el_id el) (document w)) eqn:E; cbn.
  - rewrite getElementById_update_first, String.eqb_refl, E; [reflexivity|].
    intros _ _. apply String.eqb_refl.
  - rewrite getElementById_app, E, Hid. unfold has_id. rewrite String.eqb_refl.
    reflexivity.
Qed.

Lemma includes_nonempty needle s :
  includes needle s = true -> String.eqb needle "" = false -> String.eqb s "" = false.
Proof. destruct s; [|reflexivity]. destruct needle; simpl; congruence. Qed.

Section Fallback.
Variable parse : string -> option Element.

(** Lines 86-91 for a name that contains [view]. *)
Lemma loadComponent_finish_failed componentName net w :
  fetch_fails net -> includes "view" componentName = true ->
  loadComponent_finish parse componentName net w =
    (Normal (fallbackMarkup componentName),
     snd (mount (fallbackElement componentName)
            (with_console
               (console w ++ ["Error loading component " +:+ componentName +:+ ":"]) w))).
Proof.
  intros Hfail Hview. unfold loadComponent_finish, try_catch.
  assert (exists e,
    (response ← match net with
                | FetchRejects => throw NetworkError
                | Responds r => mret r
                end;
     if negb (ok response) then throw (FetchFailure componentName (status response))
     else
       html ← match text response with
              | Returns s => mret s
              | Raises => throw NetworkError
              end;
       modify (fun w => with_componentCache (<[componentName := html]> (componentCache w)) w);;
       loadComponent_insert parse componentName html;;
       mret html) w = (Throw e, w)) as [e He].
  { unfold mbind at 1, JS_bind, bind. destruct net as [|r]; cbn.
    - eexists. reflexivity.
    - destruct (ok r) eqn:Hok; cbn.
      + destruct Hfail as [Hf|Hf]; [congruence|]. rewrite Hf.
        eexists. reflexivity.
      + eexists. reflexivity. }
  rewrite He, Hview. unfold createFallbackView, console_error.
  unfold mbind, JS_bind, bind, modify, mret, JS_ret, ret. cbn.
  match goal with
  | |- context [mount ?el ?w'] =>
      pose proof (total_unit _ w' (mount_total el)) as Hn;
      destruct (mount el w') as [c w'']
  end.
  simpl in Hn. subst c. reflexivity.
Qed.

End Fallback.

(** ** The recovery of showView *)

Lemma loadComponent_eq componentName k w :
  loadComponent componentName k w =
    (Normal tt,
     with_pending
       (pending w ++ [{| task_name := componentName;
                         task_started := started_of componentName w;
                         task_cont := k |}])
       (match started_of componentName w with
        | Hit _ => w
        | Fetching =>
            with_trace (trace w ++ [Fetch ("components/" +:+ componentName +:+ ".html")]) w
        end)).
Proof.
  unfold loadComponent, loadComponent_begin, started_of, mbind, JS_bind, bind, gets.
  cbn. destruct (componentCache w !! componentName) as [html|]; [|reflexivity].
  destruct (truthy html); reflexivity.
Qed.

(** The world when [showView] returns from the missing branch. *)
Lemma showView_missing_world viewName w :
  getElementById (viewName +:+ "-view") (document w) = None ->
  let w1 := snd (showView viewName w) in
  document w1 = deactivated (document w) /\
  currentView w1 = currentView w /\
  dispatched w1 = dispatched w /\
  console w1 = console w ++ ["View " +:+ viewName +:+ " not found in DOM"] /\
  pending w1 =
    pending w ++ [retry_task viewName (started_of (viewName +:+ "-view") w)] /\
  fetches (trace w1) =
    fetches (trace w) ++
    match started_of (viewName +:+ "-view") w with
    | Hit _ => []
    | Fetching => [Fetch ("components/" +:+ (viewName +:+ "-view") +:+ ".html")]
    end.
Proof.
  intros Hmiss w1. subst w1. rewrite (showView_missing _ _ Hmiss), loadComponent_eq.
  cbn [snd]. unfold retry_task.
  change (started_of (viewName +:+ "-view") (with_console _ _))
    with (started_of (viewName +:+ "-view") w).
  destruct (started_of (viewName +:+ "-view") w);
    cbn -[fetches]; rewrite ?fetches_snoc, ?app_nil_r; cbn; repeat split; reflexivity.
Qed.

Lemma marker_at_deactivated doc u :
  In u views -> marker_at (deactivated doc) (u +:+ "-view") = false.
Proof.
  intros Hu. unfold marker_at. rewrite deactivated_lookup, (is_view_id_views _ Hu).
  destruct (getElementById (u +:+ "-view") doc); reflexivity.
Qed.

(** The [.then] callback, lines 171-177. *)
Lemma showView_retry_eq viewName html w :
  showView_retry viewName (Normal html) w =
    match getElementById (viewName +:+ "-view") (document w) with
    | Some _ =>
        (Normal tt,
         snd (onViewActivated viewName (viewName +:+ "-view")
                (with_currentView viewName
                   (with_document
                      (update_first (viewName +:+ "-view") (set_active true)
                         (document w)) w))))
    | None => (Normal tt, w)
    end.
Proof.
  unfold showView_retry, try_catch. unfold mbind at 1, JS_bind, bind, gets. cbn.
  destruct (getElementById (viewName +:+ "-view") (document w)) eqn:E; [|reflexivity].
  cbn.
  set (w1 := with_currentView viewName
               (with_document
                  (update_first (viewName +:+ "-view") (set_active true) (document w)) w)).
  change ((let (c, w') := onViewActivated viewName (viewName +:+ "-view") w1 in
           match c with
           | Normal a => (Normal a, w')
           | Throw _ =>
               console_error ("Failed to reload component " +:+ viewName +:+ "-view:") w'
           end) = (Normal tt, snd (onViewActivated viewName (viewName +:+ "-view") w1))).
  pose proof (total_unit _ w1 (onViewActivated_total viewName (viewName +:+ "-view"))) as Hn.
  destruct (onViewActivated viewName (viewName +:+ "-view") w1) as [c w2].
  simpl in Hn. subst c. reflexivity.
Qed.

(** When the retry does not find the element nothing happens; when the
    promise was rejected only the console changes. *)
Lemma showView_retry_not_found viewName outcome w :
  getElementById (viewName +:+ "-view")
    (document (snd (showView_retry viewName outcome w))) = None ->
  match outcome with
  | Normal _ => snd (showView_retry viewName outcome w) = w
  | Throw _ =>
      snd (showView_retry viewName outcome w) =
        with_console
          (console w ++ ["Failed to reload component " +:+ viewName +:+ "-view:"]) w
  end.
Proof.
  destruct outcome as [html|e]; [|reflexivity].
  rewrite showView_retry_eq.
  destruct (getElementById (viewName +:+ "-view") (document w)) eqn:E; [|reflexivity].
  cbn [snd]. rewrite onViewActivated_document. cbn [document with_currentView with_document].
  rewrite getElementById_update_first by apply has_id_on.
  rewrite String.eqb_refl, E. discriminate.
Qed.

Lemma showView_retry_total viewName outcome : total (showView_retry viewName outcome).
Proof. unfold showView_retry. apply total_try_catch. intros e. total_tac. Qed.

(** ** Properties that survive a method *)

Section Preserves.
Variable P : World -> Prop.

Lemma preserves_mret {A} (a : A) : preserves P (mret a).
Proof. intros w H. exact H. Qed.

Lemma preserves_throw {A} e : preserves P (@throw A e).
Proof. intros w H. exact H. Qed.

Lemma preserves_gets {A} (g : World -> A) : preserves P (gets g).
Proof. intros w H. exact H. Qed.

Lemma preserves_modify g : (forall w, P w -> P (g w)) -> preserves P (modify g).
Proof. intros H w Hw. apply H, Hw. Qed.

Lemma preserves_bind {A C} (m : JS A) (k : A -> JS C) :
  preserves P m -> (forall a, preserves P (k a)) -> preserves P (m ≫= k).
Proof.
  intros Hm Hk w Hw. unfold mbind, JS_bind, bind.
  specialize (Hm w Hw). destruct (m w) as [[a|e] w']; simpl in *.
  - apply Hk, Hm.
  - exact Hm.
Qed.

Lemma preserves_try_catch {A} (body : JS A) handler :
  preserves P body -> (forall e, preserves P (handler e)) ->
  preserves P (try_catch body handler).
Proof.
  intros Hb Hh w Hw. unfold try_catch.
  specialize (Hb w Hw). destruct (body w) as [[a|e] w']; simpl in *.
  - exact Hb.
  - apply Hh, Hb.
Qed.

Lemma preserves_capture {A} (m : JS A) : preserves P m -> preserves P (capture m).
Proof.
  intros Hm w Hw. unfold capture. specialize (Hm w Hw).
  destruct (m w) as [c w']. exact Hm.
Qed.

Lemma preserves_keeps {A B} (f : World -> B) (m : JS A) :
  keeps f m -> (forall w w', f w' = f w -> P w -> P w') -> preserves P m.
Proof. intros Hk Hf w Hw. apply (Hf w), Hw. apply Hk. Qed.

End Preserves.

Ltac preserves_side :=
  intros ? ?; cbn; rewrite ?in_app_iff; solve [auto].

Ltac preserves_tac :=
  repeat first
    [ apply preserves_mret
    | apply preserves_throw
    | apply preserves_gets
    | apply preserves_capture
    | apply preserves_bind; [|intros ?]
    | apply preserves_try_catch; [|intros ?]
    | progress unfold console_error, emit, call, optional_call, own_or_app
    | match goal with
      | |- preserves _ (match ?x with _ => _ end) => destruct x
      end
    | apply preserves_modify; preserves_side
    | solve [eauto with preserves] ].

Create HintDb preserves.

(** A line written to the console stays there. *)
Lemma initializeReviewManager_console msg element :
  preserves (fun w => In msg (console w)) (initializeReviewManager element).
Proof. unfold initializeReviewManager. preserves_tac. Qed.
#[local] Hint Resolve initializeReviewManager_console : preserves.

Lemma initializeComponent_console msg componentName element :
  preserves (fun w => In msg (console w)) (initializeComponent componentName element).
Proof.
  unfold initializeComponent, initializeReviewAnswersView. preserves_tac.
Qed.
#[local] Hint Resolve initializeComponent_console : preserves.

Lemma mount_console msg el : preserves (fun w => In msg (console w)) (mount el).
Proof. unfold mount. preserves_tac. Qed.
#[local] Hint Resolve mount_console : preserves.

Lemma loadComponent_finish_console parse msg componentName net :
  preserves (fun w => In msg (console w)) (loadComponent_finish parse componentName net).
Proof.
  unfold loadComponent_finish, loadComponent_insert, createFallbackView. preserves_tac.
Qed.

Lemma onViewActivated_console msg viewName element :
  preserves (fun w => In msg (console w)) (onViewActivated viewName element).
Proof. unfold onViewActivated. preserves_tac. Qed.

(** ** Settling the recovery *)

Section Recovery.
Variable parse : string -> option Element.

Lemma settle_retry i net w viewName started :
  pending w !! i = Some (retry_task viewName started) ->
  settle parse i net w =
    let wl := with_pending (delete i (pending w)) w in
    match started with
    | Hit html => showView_retry viewName (Normal html) wl
    | Fetching =>
        let r := loadComponent_finish parse (viewName +:+ "-view") net wl in
        showView_retry viewName (fst r) (snd r)
    end.
Proof.
  intros Hi. rewrite (settle_eq parse _ _ _ _ Hi).
  cbn [retry_task task_started task_name task_cont resume].
  unfold mbind, JS_bind, bind, capture. destruct started as [html|]; cbn zeta.
  - reflexivity.
  - destruct (loadComponent_finish parse (viewName +:+ "-view") net _) as [c w'].
    reflexivity.
Qed.

(** A retry that does not find the element changes nothing but the console
    and what the load itself did. *)
Lemma settle_retry_not_found i net w viewName started :
  pending w !! i = Some (retry_task viewName started) ->
  let w2 := snd (settle parse i net w) in
  getElementById (viewName +:+ "-view") (document w2) = None ->
  currentView w2 = currentView w /\
  dispatched w2 = dispatched w /\
  pending w2 = delete i (pending w) /\
  (forall msg, In msg (console w) -> In msg (console w2)).
Proof.
  intros Hi w2 Hnone. subst w2. rewrite (settle_retry _ _ _ _ _ Hi) in *.
  cbn zeta in *. destruct started as [html|].
  - apply showView_retry_not_found in Hnone. rewrite Hnone.
    repeat split. intros msg Hm. exact Hm.
  - set (wl := with_pending (delete i (pending w)) w) in *.
    pose proof (loadComponent_finish_keeps parse (viewName +:+ "-view") net wl) as Hk.
    pose proof (fun msg => loadComponent_finish_console parse msg (viewName +:+ "-view") net wl)
      as Hc.
    destruct (loadComponent_finish parse (viewName +:+ "-view") net wl) as [c w1].
    cbn [fst snd] in *. unfold load_frame in Hk.
    apply showView_retry_not_found in Hnone.
    subst wl. cbn -[fetches] in Hk, Hc. injection Hk as Hcur Hpen _ _ Hdis _.
    destruct c as [html|e]; rewrite Hnone; cbn [currentView dispatched pending console with_console].
    + repeat split; try assumption.
    + repeat split; try assumption. intros msg Hm. apply in_app_iff. left. apply Hc, Hm.
Qed.

End Recovery.

(** ** Where the marker can come from *)

Lemma marker_at_markers doc doc' id :
  markers doc' = markers doc -> marker_at doc' id = marker_at doc id.
Proof.
  intros H. unfold marker_at, getElementById.
  destruct (String.eqb id ""); [reflexivity|].
  pose proof (find_markers id doc doc' H) as Hf.
  destruct (List.find (has_id id) doc'), (List.find (has_id id) doc);
    simpl in Hf; congruence.
Qed.

Lemma mount_unmarked el id :
  el_active el = false ->
  preserves (fun w => marker_at (document w) id = false) (mount el).
Proof.
  intros Hel w Hw. unfold mount, mbind, JS_bind, bind, gets. cbn.
  destruct (getElementById (el_id el) (document w)) eqn:E; cbn; unfold marker_at in *.
  - rewrite getElementById_update_first.
    + destruct (String.eqb id (el_id el)); [|exact Hw].
      destruct (getElementById id (document w)); simpl; [exact Hel|reflexivity].
    + intros _ _. apply String.eqb_refl.
  - rewrite getElementById_app.
    destruct (getElementById id (document w)); [exact Hw|].
    destruct (String.eqb id ""); [reflexivity|].
    destruct (has_id id el); [exact Hel|reflexivity].
Qed.

Lemma initializeComponent_unmarked componentName element id :
  preserves (fun w => marker_at (document w) id = false)
    (initializeComponent componentName element).
Proof.
  eapply preserves_keeps; [apply initializeComponent_keeps|].
  intros w w' Hf Hw. unfold hook_frame in Hf.
  rewrite (marker_at_markers (document w) (document w') id); [exact Hw|congruence].
Qed.

Lemma preserves_mret_bind {A C} P (a : A) (k : A -> JS C) :
  preserves P (k a) -> preserves P (mret a ≫= k).
Proof. intros H w Hw. apply H, Hw. Qed.

Lemma preserves_throw_bind {A C} P e (k : A -> JS C) : preserves P (throw e ≫= k).
Proof. intros w Hw. exact Hw. Qed.

Section Markers.
Variable parse : string -> option Element.

Lemma loadComponent_finish_unmarked componentName net id :
  mounts_unmarked parse net ->
  preserves (fun w => marker_at (document w) id = false)
    (loadComponent_finish parse componentName net).
Proof.
  intros Hnet. unfold loadComponent_finish.
  apply preserves_try_catch.
  - destruct net as [|r]; [apply preserves_throw_bind|].
    apply preserves_mret_bind.
    destruct (negb (ok r)); [apply preserves_throw|].
    simpl in Hnet. destruct (text r) as [html|]; [|apply preserves_throw_bind].
    apply preserves_mret_bind.
    apply preserves_bind; [apply preserves_modify; intros w Hw; exact Hw|intros _].
    apply preserves_bind; [|intros _; apply preserves_mret].
    unfold loadComponent_insert.
    destruct (includes "view" componentName || String.eqb componentName "review-panel");
      [|apply preserves_mret].
    apply preserves_bind; [apply preserves_gets|intros container].
    destruct container; [|apply preserves_mret].
    destruct (parse html) as [el|]; [|apply preserves_mret].
    cbn zeta.
    apply preserves_bind; [|intros _; apply initializeComponent_unmarked].
    apply mount_unmarked.
    destruct (includes "view" componentName && negb (truthy (el_id el))); exact Hnet.
  - intros e. apply preserves_bind; [preserves_tac|intros _].
    destruct (includes "view" componentName); [|apply preserves_throw].
    unfold createFallbackView.
    apply preserves_bind; [apply mount_unmarked; reflexivity|intros _; apply preserves_mret].
Qed.

End Markers.

(** ** The sidebar listener *)

Lemma closest_li_inside inner item outer :
  Forall (fun n => node_tag n <> "li") inner -> node_tag item = "li" ->
  closest_li (inner ++ item :: outer) = Some item.
Proof.
  intros Hinner Hitem. unfold closest_li.
  induction Hinner as [|n inner Hn _ IH]; simpl.
  - rewrite Hitem. reflexivity.
  - destruct (String.eqb_spec (node_tag n) "li") as [E|_]; [contradiction|exact IH].
Qed.

Lemma indexOf_from_lookup cs item k i :
  List.NoDup (List.map node_key cs) -> cs !! k = Some item ->
  indexOf_from cs item i = (i + Z.of_nat k)%Z.
Proof.
  revert k i. induction cs as [|c cs IH]; intros k i Hnd Hk; [discriminate|].
  inversion Hnd as [|key keys Hnotin Hnd']; subst. destruct k as [|k]; simpl in *.
  - injection Hk as ->. rewrite Nat.eqb_refl. lia.
  - destruct (Nat.eqb_spec (node_key c) (node_key item)) as [E|_].
    + exfalso. apply Hnotin. rewrite E. apply List.in_map.
      apply list_elem_of_In. eapply list_elem_of_lookup_2. exact Hk.
    + rewrite (IH k (i + 1)%Z Hnd' Hk). lia.
Qed.

Lemma indexOf_lookup cs item k :
  List.NoDup (List.map node_key cs) -> cs !! k = Some item ->
  indexOf cs item = Z.of_nat k.
Proof. intros Hnd Hk. unfold indexOf. rewrite (indexOf_from_lookup _ _ k); [lia|assumption..]. Qed.

(** ** Nothing escapes the continuations *)

Lemma init_end_total all : total (init_end all).
Proof. unfold init_end. apply total_try_catch. intros e. total_tac. Qed.

Lemma batch_settled_total b outcome : total (batch_settled b outcome).
Proof.
  pose proof init_end_total.
  unfold batch_settled, set_batch.
  apply total_bind; [apply total_gets|intros bs].
  destruct (bs !! b) as [[n| |]|]; try apply total_mret.
  destruct outcome as [html|e].
  - destruct n as [|[|m]]; total_tac.
  - total_tac.
Qed.

Lemma resume_total k componentName outcome : total (resume k componentName outcome).
Proof.
  destruct k; cbn [resume];
    [apply total_modify|apply showView_retry_total|apply batch_settled_total].
Qed.

Lemma init_total : total init.
Proof. unfold init. apply total_try_catch. intros e. total_tac. Qed.

Section Faults.
Variable parse : string -> option Element.

Lemma settle_total i net : total (settle parse i net).
Proof.
  pose proof resume_total.
  unfold settle. apply total_bind; [apply total_gets|intros tasks].
  destruct (tasks !! i) as [t|]; [|apply total_mret].
  apply total_bind; [apply total_modify|intros _].
  apply total_bind; [destruct (task_started t); total_tac|intros outcome].
  apply resume_total.
Qed.

Lemma loadComponent_finish_view_total componentName net :
  includes "view" componentName = true ->
  total (loadComponent_finish parse componentName net).
Proof.
  intros Hview. unfold loadComponent_finish. apply total_try_catch. intros e.
  rewrite Hview. total_tac.
Qed.

Lemma loadComponent_finish_throws componentName net w e :
  fst (loadComponent_finish parse componentName net w) = Throw e ->
  includes "view" componentName = false /\ fetch_fails net.
Proof.
  intros Hthrow. split.
  - destruct (includes "view" componentName) eqn:Hview; [|reflexivity].
    destruct (loadComponent_finish_view_total _ net Hview w) as [html Hn]. congruence.
  - destruct net as [|r]; [exact I|]. simpl.
    destruct (ok r) eqn:Hok; [|left; reflexivity].
    destruct (text r) as [html|] eqn:Htext; [|right; reflexivity].
    rewrite (loadComponent_finish_ok parse _ _ _ _ Hok Htext) in Hthrow. discriminate.
Qed.

End Faults.

(** ** initializeReviewManager without its collaborators *)

(** The collaborator the method would use: [own || window.app.field]. *)
Lemma initializeReviewManager_skips element w :
  (stateManager w = None /\
   (window_app w = None \/ window_app w ≫= app_stateManager = None)) \/
  (questionManager w = None /\
   (window_app w = None \/ window_app w ≫= app_questionManager = None)) ->
  fst (initializeReviewManager element w) = Normal tt /\
  reviewManager (snd (initializeReviewManager element w)) = reviewManager w /\
  trace (snd (initializeReviewManager element w)) = trace w /\
  (window_app w <> None -> snd (initializeReviewManager element w) = w).
Proof.
  intros Habsent.
  unfold initializeReviewManager, try_catch, own_or_app, console_error,
    mbind, JS_bind, bind, gets, modify, throw, mret, JS_ret, ret.
  cbn.
  destruct (stateManager w) as [sm|] eqn:Hsm, (questionManager w) as [qm|] eqn:Hqm,
    (window_app w) as [app|] eqn:Happ; cbn;
    try (destruct (app_stateManager app) eqn:Hasm);
    try (destruct (app_questionManager app) eqn:Haqm);
    cbn in Habsent;
    try (exfalso; intuition congruence);
    repeat (cbn; rewrite ?Hsm, ?Hqm, ?Happ, ?Hasm, ?Haqm);
    repeat split; try reflexivity; intros Hne; congruence.
Qed.

(** * Statements about the specification *)

(** The recovery when nothing else runs before it settles and the mounted
    fragment does not carry the marker itself: if the retry finds the target,
    the target is the one view that carries the marker. *)
Lemma showView_recovered_exclusive parse viewName w net :
  getElementById (viewName +:+ "-view") (document w) = None ->
  mounts_unmarked parse net ->
  let w2 := snd (settle parse (length (pending w)) net (snd (showView viewName w))) in
  getElementById (viewName +:+ "-view") (document w2) <> None ->
  currentView w2 = viewName /\
  forall u, In u views -> carries w2 u = String.eqb u viewName.
Proof.
  intros Hmiss Hnet w2 Hfound.
  destruct (showView_missing_world _ _ Hmiss) as (Hdoc & _ & _ & _ & Hpen & _).
  set (w1 := snd (showView viewName w)) in *.
  assert (pending w1 !! length (pending w) =
          Some (retry_task viewName (started_of (viewName +:+ "-view") w))) as Hi
    by (rewrite Hpen; apply lookup_snoc).
  assert (forall u, In u views -> marker_at (document w1) (u +:+ "-view") = false) as Hun.
  { intros u Hu. rewrite Hdoc. apply (marker_at_deactivated _ u Hu). }
  subst w2. rewrite (settle_retry parse _ _ _ _ _ Hi) in *. cbn zeta in *.
  set (wl := with_pending (delete (length (pending w)) (pending w1)) w1) in *.
  assert (exists html w3,
             (forall u, In u views -> marker_at (document w3) (u +:+ "-view") = false) /\
             match started_of (viewName +:+ "-view") w with
             | Hit html0 => showView_retry viewName (Normal html0) wl
             | Fetching =>
                 showView_retry viewName
                   (fst (loadComponent_finish parse (viewName +:+ "-view") net wl))
                   (snd (loadComponent_finish parse (viewName +:+ "-view") net wl))
             end = showView_retry viewName (Normal html) w3) as (html & w3 & Hun3 & Heq).
  { destruct (started_of (viewName +:+ "-view") w) as [html0|].
    - exists html0, wl. split; [exact Hun|reflexivity].
    - destruct (loadComponent_finish_view_total parse _ net
                  (includes_view_suffix viewName) wl) as [html Hn].
      exists html, (snd (loadComponent_finish parse (viewName +:+ "-view") net wl)).
      split; [|rewrite Hn; reflexivity].
      intros u Hu.
      apply (loadComponent_finish_unmarked parse _ net (u +:+ "-view") Hnet wl (Hun u Hu)). }
  rewrite Heq in *. rewrite showView_retry_eq in *.
  destruct (getElementById (viewName +:+ "-view") (document w3)) as [e|] eqn:E;
    cbn [snd] in *; [|congruence].
  rewrite onViewActivated_currentView. split; [reflexivity|].
  intros u Hu. unfold carries. rewrite onViewActivated_document.
  cbn [document with_currentView with_document].
  rewrite getElementById_update_first by apply has_id_on.
  rewrite eqb_view_suffix. destruct (String.eqb u viewName) eqn:Huv.
  - apply String.eqb_eq in Huv. subst u. rewrite E. reflexivity.
  - apply (Hun3 u Hu).
Qed.

(** C1: exclusivity of the active marker after a successful activation, found
    directly or after recovery.  The recovery callback (lines 172-177) marks
    the target without clearing the other views again, unlike the direct path
    (lines 156-166).  Here [showView('result')] misses, [showView('landing')]
    runs while the fetch is pending, and the fetch then succeeds: the
    activation of the result view succeeds and both views carry the marker. *)
Theorem showView_retry_leaves_two_active :
  let html := "<div id='result-view' class='view'></div>" in
  let w := run Demo.firstElementChild
             [CallShowView "result"; CallShowView "landing";
              Settle 0 (Demo.ok_with html)] Demo.bare in
  getElementById "result-view" (document Demo.bare) = None /\
  currentView w = "result" /\
  dispatched w = ["landing"; "result"] /\
  carries w "result" = true /\
  carries w "landing" = true.
Proof. vm_compute. repeat split; reflexivity. Qed.

(** C2, counterexample: when the fetch fails, nothing is cached and the second
    call fetches again: two calls, two fetches.  The same happens when the
    fetched markup is the empty string (line 47 tests truthiness) and when
    the second call starts before the first fetch has settled. *)
Lemma loadComponent_twice_failed_fetch :
  let failed := run Demo.firstElementChild
                  [CallLoadComponent "landing-view"; Settle 0 Demo.not_found;
                   CallLoadComponent "landing-view"; Settle 0 Demo.not_found] Demo.bare in
  let empty := run Demo.firstElementChild
                 [CallLoadComponent "footer"; Settle 0 (Demo.ok_with "");
                  CallLoadComponent "footer"; Settle 0 (Demo.ok_with "")] Demo.bare in
  let overlapping := run Demo.firstElementChild
                       [CallLoadComponent "footer"; CallLoadComponent "footer";
                        Settle 0 (Demo.ok_with "<footer></footer>");
                        Settle 0 (Demo.ok_with "<footer></footer>")] Demo.bare in
  (fetches (trace failed) =
     [Fetch "components/landing-view.html"; Fetch "components/landing-view.html"] /\
   length (fetches (trace failed)) <> 1%nat) /\
  fetches (trace empty) = [Fetch "components/footer.html"; Fetch "components/footer.html"] /\
  fetches (trace overlapping) =
    [Fetch "components/footer.html"; Fetch "components/footer.html"].
Proof. vm_compute. repeat split; try reflexivity. discriminate. Qed.

(** C2 (amended): for a name that is not cached and whose fetch succeeds with
    non-empty markup, two awaited calls of [loadComponent] make exactly one
    fetch and both return that markup; for a name cached with non-empty
    markup, a call returns the cached markup and makes no call at all. *)
Theorem loadComponent_twice_fetches_once parse componentName html w :
  truthy html = true ->
  (forall r net2,
      match componentCache w !! componentName with
      | Some h => truthy h
      | None => false
      end = false ->
      ok r = true -> text r = Returns html ->
      let i := length (pending w) in
      let w' := run parse [CallLoadComponent componentName; Settle i (Responds r);
                           CallLoadComponent componentName; Settle i net2] w in
      fetches (trace w') =
        fetches (trace w) ++ [Fetch ("components/" +:+ componentName +:+ ".html")] /\
      delivered w' =
        delivered w ++ [(componentName, Normal html); (componentName, Normal html)]) /\
  (forall net,
      componentCache w !! componentName = Some html ->
      let w' := run parse [CallLoadComponent componentName;
                           Settle (length (pending w)) net] w in
      trace w' = trace w /\
      delivered w' = delivered w ++ [(componentName, Normal html)]).
Proof.
  intros Ht. split.
  - intros r net2 Hmiss Hok Htext i w'. subst i w'.
    change [CallLoadComponent componentName; Settle (length (pending w)) (Responds r);
            CallLoadComponent componentName; Settle (length (pending w)) net2]
      with ([CallLoadComponent componentName; Settle (length (pending w)) (Responds r)]
            ++ [CallLoadComponent componentName; Settle (length (pending w)) net2]).
    rewrite run_app, (load_settle_miss parse _ _ _ Hmiss).
    rewrite (loadComponent_finish_ok parse _ _ _ _ Hok Htext). cbn [fst snd].
    set (w0 := with_componentCache _ _).
    pose proof (loadComponent_insert_keeps parse componentName html w0) as Hk.
    set (w1 := snd (loadComponent_insert parse componentName html w0)) in *.
    unfold load_frame in Hk. subst w0.
    cbn [currentView pending delivered batches dispatched has_container trace
         stateManager questionManager testManager window_app
         ReviewAnswersManager_class componentCache with_componentCache with_trace] in Hk.
    injection Hk as Hcur Hpen Hdel Hbat Hdis Hcon Hfet Hsm Hqm Htm Happ Hcls Hcache.
    set (w2 := with_delivered (delivered w1 ++ [(componentName, Normal html)]) w1).
    assert (length (pending w) = length (pending w2)) as ->
      by (cbn [w2 pending with_delivered]; rewrite Hpen; reflexivity).
    rewrite (load_settle_hit parse componentName html net2 w2).
    + cbn [w2 trace delivered with_delivered]. rewrite Hfet, Hdel, fetches_snoc.
      cbn [is_Fetch]. rewrite <- app_assoc. split; reflexivity.
    + cbn [w2 componentCache with_delivered]. rewrite Hcache. apply lookup_insert_eq.
    + exact Ht.
  - intros net Hc w'. subst w'.
    rewrite (load_settle_hit parse _ _ _ _ Hc Ht). split; reflexivity.
Qed.

Lemma loadComponent_twice_fetches_once_witness :
  let html := "<div id='test-view' class='view'></div>" in
  let w := run Demo.firstElementChild
             [CallLoadComponent "test-view"; Settle 0 (Demo.ok_with html);
              CallLoadComponent "test-view"; Settle 0 Demo.not_found] Demo.bare in
  let w' := run Demo.firstElementChild
              [CallLoadComponent "test-view"; Settle 0 Demo.not_found] w in
  (fetches (trace w) = [Fetch "components/test-view.html"] /\
   delivered w = [("test-view", Normal html); ("test-view", Normal html)]) /\
  (trace w' = trace w /\
   delivered w' = delivered w ++ [("test-view", Normal html)]).
Proof.
  split.
  - exact (proj1 (loadComponent_twice_fetches_once Demo.firstElementChild "test-view"
                    "<div id='test-view' class='view'></div>" Demo.bare eq_refl)
             {| status := 200; text := Returns "<div id='test-view' class='view'></div>" |}
             Demo.not_found eq_refl eq_refl eq_refl).
  - exact (proj2 (loadComponent_twice_fetches_once Demo.firstElementChild "test-view"
                    "<div id='test-view' class='view'></div>"
                    (run Demo.firstElementChild
                       [CallLoadComponent "test-view";
                        Settle 0 (Demo.ok_with "<div id='test-view' class='view'></div>");
                        CallLoadComponent "test-view"; Settle 0 Demo.not_found] Demo.bare)
                    eq_refl)
             Demo.not_found eq_refl).
Defined.

(** C3: when the fetch of a view fragment fails, [loadComponent] is fulfilled
    with the fallback markup and the document holds the fallback element under
    the view's identifier; activating that view then succeeds at once.  The
    review-answers view is the instance [viewName := "review-answers"]. *)
Theorem failed_view_fetch_yields_fallback parse viewName net w :
  fetch_fails net ->
  let r := loadComponent_finish parse (viewName +:+ "-view") net w in
  fst r = Normal (fallbackMarkup (viewName +:+ "-view")) /\
  getElementById (viewName +:+ "-view") (document (snd r)) =
    Some (fallbackElement (viewName +:+ "-view")) /\
  let w' := snd (showView viewName (snd r)) in
  currentView w' = viewName /\
  carries w' viewName = true /\
  (forall u, In u views -> carries w' u = String.eqb u viewName) /\
  dispatched w' = dispatched w ++ [viewName].
Proof.
  intros Hfail r.
  assert (getElementById (viewName +:+ "-view") (document (snd r)) =
          Some (fallbackElement (viewName +:+ "-view"))) as Hel.
  { subst r. rewrite (loadComponent_finish_failed parse _ _ _ Hfail (includes_view_suffix _)).
    cbn [snd]. apply (mount_lookup (fallbackElement (viewName +:+ "-view"))).
    apply view_id_nonempty. }
  split; [|split; [exact Hel|]].
  - subst r. rewrite (loadComponent_finish_failed parse _ _ _ Hfail (includes_view_suffix _)).
    reflexivity.
  - cbn zeta. destruct (showView_found_state _ _ _ Hel) as [Hcur Hdis].
    split; [exact Hcur|]. split; [|split].
    + rewrite (showView_found_carries _ _ _ _ Hel), String.eqb_refl. reflexivity.
    + apply (showView_found_exclusive _ _ _ Hel).
    + rewrite Hdis. f_equal.
      pose proof (loadComponent_finish_keeps parse (viewName +:+ "-view") net w) as Hk.
      unfold load_frame in Hk. subst r. congruence.
Qed.

Lemma failed_view_fetch_yields_fallback_witness :
  let r := loadComponent_finish Demo.firstElementChild "review-answers-view"
             Demo.not_found Demo.bare in
  getElementById "review-answers-view" (document (snd r)) =
    Some (fallbackElement "review-answers-view") /\
  currentView (snd (showView "review-answers" (snd r))) = "review-answers".
Proof.
  pose proof (failed_view_fetch_yields_fallback Demo.firstElementChild "review-answers"
                Demo.not_found Demo.bare (or_introl eq_refl)) as H.
  cbv zeta in H. split; [exact (proj1 (proj2 H))|exact (proj1 (proj2 (proj2 H)))].
Defined.

(** C4: when the target element is not mounted, [showView] reports the miss,
    issues exactly one [loadComponent] whose promise the retry awaits, and
    changes neither the current view nor the dispatch history; whenever that
    promise settles and the retry does not find the element either, the
    activation is dropped: the current view and the dispatch history stay as
    they are, no further load is queued and the report stays in the console. *)
Theorem showView_missing_retries_once parse viewName w :
  getElementById (viewName +:+ "-view") (document w) = None ->
  let w1 := snd (showView viewName w) in
  fst (showView viewName w) = Normal tt /\
  pending w1 =
    pending w ++ [retry_task viewName (started_of (viewName +:+ "-view") w)] /\
  length (fetches (trace w1)) <= S (length (fetches (trace w))) /\
  console w1 = console w ++ ["View " +:+ viewName +:+ " not found in DOM"] /\
  currentView w1 = currentView w /\
  dispatched w1 = dispatched w /\
  (forall w' i net started,
      pending w' !! i = Some (retry_task viewName started) ->
      let w2 := snd (settle parse i net w') in
      getElementById (viewName +:+ "-view") (document w2) = None ->
      currentView w2 = currentView w' /\
      dispatched w2 = dispatched w' /\
      pending w2 = delete i (pending w') /\
      (forall msg, In msg (console w') -> In msg (console w2))).
Proof.
  intros Hmiss w1.
  destruct (showView_missing_world _ _ Hmiss) as (Hdoc & Hcur & Hdis & Hcon & Hpen & Hfet).
  fold w1 in Hdoc, Hcur, Hdis, Hcon, Hpen, Hfet.
  split; [apply total_unit, showView_total|].
  split; [exact Hpen|]. split.
  { rewrite Hfet, length_app.
    destruct (started_of (viewName +:+ "-view") w); simpl; lia. }
  split; [exact Hcon|]. split; [exact Hcur|]. split; [exact Hdis|].
  intros w' i net started Hi. apply (settle_retry_not_found parse _ _ _ _ _ Hi).
Qed.

Lemma showView_missing_retries_once_witness :
  let w1 := snd (showView "result" Demo.bare) in
  pending w1 = [retry_task "result" Fetching] /\
  currentView w1 = "landing" /\
  let w2 := snd (settle Demo.firstElementChild 0 (Demo.ok_with "no markup") w1) in
  currentView w2 = "landing" /\ dispatched w2 = [] /\ pending w2 = [].
Proof.
  pose proof (showView_missing_retries_once Demo.firstElementChild "result" Demo.bare eq_refl)
    as (_ & Hpen & _ & _ & Hcur & _ & Hlater).
  split; [exact Hpen|]. split; [exact Hcur|].
  destruct (Hlater (snd (showView "result" Demo.bare)) 0%nat (Demo.ok_with "no markup")
              Fetching eq_refl eq_refl) as (H1 & H2 & H3 & _).
  split; [exact H1|]. split; [exact H2|exact H3].
Defined.

(** C10, counterexample: a failed recovery after which a view carries the
    marker.  In the first run [showView('landing')] is called while the
    recovery of the result view is pending; in the second the fragment served
    for the result view has a root with the landing view's id and the class
    [active], and replaces the landing view.  In both the result view is
    missing at the call and still missing after the recovery. *)
Lemma failed_recovery_with_marker :
  let w := run Demo.firstElementChild
             [CallShowView "result"; CallShowView "landing";
              Settle 0 (Demo.ok_with "no markup")] Demo.bare in
  let w' := run Demo.firstElementChild
              [CallShowView "result";
               Settle 0 (Demo.ok_with "<div id='landing-view' class='view active'></div>")]
              Demo.bare in
  getElementById "result-view" (document Demo.bare) = None /\
  (getElementById "result-view" (document w) = None /\ carries w "landing" = true) /\
  (getElementById "result-view" (document w') = None /\ carries w' "landing" = true).
Proof. vm_compute. repeat split; reflexivity. Qed.

(** C10 (amended): when the target element is absent, [showView] returns with
    no view carrying the marker and the current view unchanged; if the
    recovery settles next, mounts no element that carries the marker itself
    and still does not produce the target, then again no view carries the
    marker, the current view still names the previous view and nothing was
    dispatched. *)
Theorem showView_failed_recovery_unmarked parse viewName w :
  getElementById (viewName +:+ "-view") (document w) = None ->
  let w1 := snd (showView viewName w) in
  (forall u, In u views -> carries w1 u = false) /\
  currentView w1 = currentView w /\
  (forall net,
      mounts_unmarked parse net ->
      let w2 := snd (settle parse (length (pending w)) net w1) in
      getElementById (viewName +:+ "-view") (document w2) = None ->
      (forall u, In u views -> carries w2 u = false) /\
      currentView w2 = currentView w /\
      dispatched w2 = dispatched w).
Proof.
  intros Hmiss w1.
  destruct (showView_missing_world _ _ Hmiss) as (Hdoc & Hcur & Hdis & Hcon & Hpen & Hfet).
  fold w1 in Hdoc, Hcur, Hdis, Hcon, Hpen, Hfet.
  assert (forall u, In u views -> carries w1 u = false) as Hun.
  { intros u Hu. unfold carries. rewrite Hdoc.
    apply (marker_at_deactivated (document w) u Hu). }
  split; [exact Hun|]. split; [exact Hcur|].
  intros net Hnet w2 Hnone.
  assert (pending w1 !! length (pending w) =
          Some (retry_task viewName (started_of (viewName +:+ "-view") w))) as Hi
    by (rewrite Hpen; apply lookup_snoc).
  destruct (settle_retry_not_found parse _ net _ _ _ Hi Hnone) as (Hcur2 & Hdis2 & _ & _).
  fold w2 in Hcur2, Hdis2.
  split; [|split; congruence].
  intros u Hu. specialize (Hun u Hu). subst w2.
  rewrite (settle_retry parse _ _ _ _ _ Hi) in *. cbn zeta in *.
  set (wl := with_pending (delete (length (pending w)) (pending w1)) w1) in *.
  assert (carries wl u = false) as Hwl by exact Hun.
  destruct (started_of (viewName +:+ "-view") w) as [html|].
  - apply showView_retry_not_found in Hnone. rewrite Hnone. exact Hwl.
  - pose proof (loadComponent_finish_unmarked parse (viewName +:+ "-view") net
                  (u +:+ "-view") Hnet wl Hwl) as Hm.
    destruct (loadComponent_finish parse (viewName +:+ "-view") net wl) as [c w3].
    cbn [fst snd] in *. apply showView_retry_not_found in Hnone.
    destruct c as [html|e]; rewrite Hnone; exact Hm.
Qed.

Lemma showView_failed_recovery_unmarked_witness :
  let w1 := snd (showView "result" Demo.bare) in
  let w2 := snd (settle Demo.firstElementChild 0 (Demo.ok_with "no markup") w1) in
  (forall u, In u views -> carries w2 u = false) /\ currentView w2 = "landing".
Proof.
  pose proof (showView_failed_recovery_unmarked Demo.firstElementChild "result" Demo.bare
                eq_refl) as (_ & _ & H).
  destruct (H (Demo.ok_with "no markup") I eq_refl) as (H1 & H2 & _).
  split; [exact H1|exact H2].
Defined.

Lemma onViewActivated_review element w :
  onViewActivated "review-answers" element w =
    try_catch
      (match testManager w ≫= initializeReview with
       | Some c => call (TM_initializeReview element) "initializeReview" c
       | None => initializeReviewManager element
       end)
      (fun error => console_error "Error in view activation for review-answers:")
      (with_dispatched (dispatched w ++ ["review-answers"]) w).
Proof. reflexivity. Qed.

(** C5: what the dispatcher calls.  For [test] it calls the test
    collaborator's [updateQuestionDisplay] and nothing else, for [result] its
    [calculateResults] and nothing else (each only when the collaborator and
    the method exist); for [review-answers] it calls the test collaborator's
    [initializeReview] when that is a function and otherwise runs this class's
    own [initializeReviewManager], once; for [landing] it calls nothing.  It
    never throws, and a direct activation invokes it exactly once. *)
Theorem onViewActivated_dispatch element w :
  trace (snd (onViewActivated "test" element w)) =
    trace w ++ match testManager w ≫= updateQuestionDisplay with
               | Some _ => [TM_updateQuestionDisplay]
               | None => []
               end /\
  trace (snd (onViewActivated "result" element w)) =
    trace w ++ match testManager w ≫= calculateResults with
               | Some _ => [TM_calculateResults]
               | None => []
               end /\
  match testManager w ≫= initializeReview with
  | Some _ =>
      trace (snd (onViewActivated "review-answers" element w)) =
        trace w ++ [TM_initializeReview element] /\
      reviewManager (snd (onViewActivated "review-answers" element w)) = reviewManager w
  | None =>
      snd (onViewActivated "review-answers" element w) =
        snd (initializeReviewManager element
               (with_dispatched (dispatched w ++ ["review-answers"]) w))
  end /\
  trace (snd (onViewActivated "landing" element w)) = trace w /\
  (forall viewName,
      fst (onViewActivated viewName element w) = Normal tt /\
      dispatched (snd (onViewActivated viewName element w)) = dispatched w ++ [viewName]) /\
  (forall viewName e,
      getElementById (viewName +:+ "-view") (document w) = Some e ->
      dispatched (snd (showView viewName w)) = dispatched w ++ [viewName]).
Proof.
  split; [|split; [|split; [|split; [|split]]]].
  - unfold onViewActivated, try_catch, optional_call, call, emit, console_error,
      mbind, JS_bind, bind, gets, modify. cbn.
    destruct (testManager w) as [tm|]; cbn; [|rewrite app_nil_r; reflexivity].
    destruct (updateQuestionDisplay tm) as [[[]|]|]; cbn;
      rewrite ?app_nil_r; reflexivity.
  - unfold onViewActivated, try_catch, optional_call, call, emit, console_error,
      mbind, JS_bind, bind, gets, modify. cbn.
    destruct (testManager w) as [tm|]; cbn; [|rewrite app_nil_r; reflexivity].
    destruct (calculateResults tm) as [[[]|]|]; cbn;
      rewrite ?app_nil_r; reflexivity.
  - rewrite onViewActivated_review.
    set (w1 := with_dispatched (dispatched w ++ ["review-answers"]) w).
    unfold try_catch.
    destruct (testManager w ≫= initializeReview) as [c|].
    + unfold call, emit, console_error, mbind, JS_bind, bind, modify.
      destruct c as [[]|]; split; reflexivity.
    + pose proof (total_unit _ w1 (initializeReviewManager_total element)) as Hn.
      destruct (initializeReviewManager element w1) as [c w2].
      simpl in Hn. subst c. reflexivity.
  - reflexivity.
  - intros viewName. split.
    + apply total_unit, onViewActivated_total.
    + apply onViewActivated_dispatched.
  - intros viewName e Hfound. apply (showView_found_state _ _ _ Hfound).
Qed.

(** C6: the guard of line 114 tests [Number.isNaN(idx)], and [indexOf]
    answers [-1], never [NaN], for a node that is not a child of the list.
    On the review fragment as it is mounted (three items, the listener
    attached by [initializeReviewAnswersView], the handle built), a click on
    an [li] nested inside the item at position 1, and a click on the list
    itself when the list sits inside an [li] of an enclosing list, both call
    [setReviewCurrentQuestion(-1)], [loadReviewQuestion(-1)] and
    [closeSidebar()]: neither the position 1 nor no call at all. *)
Theorem sidebar_click_passes_minus_one :
  let page :=
    with_document
      [Demo.landing_view; Demo.controls_of Demo.review_markup "review-answers-view"]
      Demo.configured in
  let w := snd (initializeReviewAnswersView "review-answers-view" page) in
  let nested := {| node_key := 77; node_tag := "li" |} in
  let list := {| node_key := 3; node_tag := "ul" |} in
  let enclosing := {| node_key := 88; node_tag := "li" |} in
  (getElementById "review-answers-view" (document w) ≫= sidebarList =
     Some {| delegationBound := true; sb_listeners := 1;
             children := [Demo.item 10; Demo.item 11; Demo.item 12] |}) /\
  indexOf [Demo.item 10; Demo.item 11; Demo.item 12] (Demo.item 11) = 1%Z /\
  step Demo.firstElementChild
    (ClickSidebar "review-answers-view" [nested; Demo.item 11; list]) w =
    (Normal tt,
     with_trace
       (trace w ++ [SM_setReviewCurrentQuestion (-1); RM_loadReviewQuestion (-1);
                    RM_closeSidebar]) w) /\
  step Demo.firstElementChild
    (ClickSidebar "review-answers-view" [list; enclosing]) w =
    (Normal tt,
     with_trace
       (trace w ++ [SM_setReviewCurrentQuestion (-1); RM_loadReviewQuestion (-1);
                    RM_closeSidebar]) w).
Proof. vm_compute. repeat split; reflexivity. Qed.

(** The same on a page in review: the nearest [li] of the target is not a
    child of the list. *)
Example sidebar_click_on_foreign_item :
  let nested := {| node_key := 77; node_tag := "li" |} in
  trace (snd (step Demo.firstElementChild
                (ClickSidebar "review-answers-view" [nested; Demo.item 11])
                Demo.reviewing)) =
    [SM_setReviewCurrentQuestion (-1); RM_loadReviewQuestion (-1); RM_closeSidebar].
Proof. reflexivity. Qed.

(** Where the listener does navigate: with the listener attached once to a
    sidebar list whose element children are distinct nodes, a click on the
    item at position [k] or on anything inside it up to that item (no nearer
    [li]) calls
    [setReviewCurrentQuestion(k)] on the state collaborator, then
    [loadReviewQuestion(k)] and [closeSidebar()] on the handle, and nothing
    else; the collaborator and the handle exist and their methods return.
    A click whose target has no [li] ancestor-or-self changes nothing. *)
Theorem sidebar_click_navigates parse w element e s k item inner outer sm rm :
  getElementById element (document w) = Some e ->
  sidebarList e = Some s ->
  sb_listeners s = 1%nat ->
  List.NoDup (List.map node_key (children s)) ->
  children s !! k = Some item ->
  node_tag item = "li" ->
  Forall (fun n => node_tag n <> "li") inner ->
  stateManager w = Some sm -> setReviewCurrentQuestion sm = Returns tt ->
  reviewManager w = Some rm ->
  loadReviewQuestion rm = Returns tt -> closeSidebar rm = Returns tt ->
  step parse (ClickSidebar element (inner ++ item :: outer)) w =
    (Normal tt,
     with_trace
       (trace w ++ [SM_setReviewCurrentQuestion (Z.of_nat k);
                    RM_loadReviewQuestion (Z.of_nat k);
                    RM_closeSidebar]) w) /\
  (forall target,
      closest_li target = None ->
      step parse (ClickSidebar element target) w = (Normal tt, w)).
Proof.
  intros He Hs Hone Hnd Hk Hli Hinner Hsm Hset Hrm Hload Hclose. split.
  - cbn [step]. unfold mbind at 1, JS_bind, bind, gets. cbn beta iota.
    rewrite He. cbn [mbind option_bind]. rewrite Hs, Hone. cbn [fire].
    unfold sidebar_listener. rewrite (closest_li_inside _ _ _ Hinner Hli).
    rewrite (indexOf_lookup _ _ _ Hnd Hk).
    unfold Number_isNaN, call, emit, mbind, JS_bind, bind, gets, modify, mret, JS_ret, ret.
    cbn. rewrite Hsm, Hset. cbn. rewrite Hrm, Hload. cbn. rewrite Hrm, Hclose. cbn.
    rewrite <- !app_assoc. reflexivity.
  - intros target Hnone. cbn [step]. unfold mbind at 1, JS_bind, bind, gets. cbn beta iota.
    rewrite He. cbn [mbind option_bind]. rewrite Hs.
    unfold sidebar_listener. rewrite Hnone.
    generalize (sb_listeners s). intros n. induction n as [|n IH]; [reflexivity|].
    cbn [fire]. cbn. exact IH.
Qed.

Lemma sidebar_click_navigates_witness :
  let inside := {| node_key := 40; node_tag := "span" |} in
  fst (step Demo.firstElementChild
         (ClickSidebar "review-answers-view"
            [inside; Demo.item 11; {| node_key := 3; node_tag := "ul" |}])
         Demo.reviewing) = Normal tt /\
  trace (snd (step Demo.firstElementChild
                (ClickSidebar "review-answers-view"
                   [inside; Demo.item 11; {| node_key := 3; node_tag := "ul" |}])
                Demo.reviewing)) =
    [SM_setReviewCurrentQuestion 1; RM_loadReviewQuestion 1; RM_closeSidebar].
Proof.
  assert (Forall (fun n => node_tag n <> "li") [{| node_key := 40; node_tag := "span" |}])
    as Hinner by (constructor; [discriminate|constructor]).
  assert (List.NoDup (List.map node_key [Demo.item 10; Demo.item 11; Demo.item 12])) as Hnd.
  { repeat constructor; simpl; intuition lia. }
  pose proof (proj1 (sidebar_click_navigates Demo.firstElementChild Demo.reviewing
                       "review-answers-view" Demo.review_view
                       {| delegationBound := true; sb_listeners := 1;
                          children := [Demo.item 10; Demo.item 11; Demo.item 12] |}
                       1 (Demo.item 11) [{| node_key := 40; node_tag := "span" |}]
                       [{| node_key := 3; node_tag := "ul" |}]
                       Demo.state_manager Demo.review_manager
                       eq_refl eq_refl eq_refl Hnd eq_refl eq_refl Hinner
                       eq_refl eq_refl eq_refl eq_refl eq_refl)) as H.
  cbn [app] in H. cbv zeta. rewrite H. split; reflexivity.
Defined.


(** C8: with no state collaborator injected and [window.app] undefined, the
    method reads [window.app.stateManager] (line 136) and the TypeError lands
    in its own catch: no handle is built and no handle method is called, but
    the skip is not silent. *)
Theorem initializeReviewManager_logs_when_app_undefined :
  let r := initializeReviewManager "review-answers-view" Demo.bare in
  stateManager Demo.bare = None /\
  window_app Demo.bare = None /\
  fst r = Normal tt /\
  reviewManager (snd r) = None /\
  trace (snd r) = [] /\
  console (snd r) = ["Error initializing review manager:"].
Proof. vm_compute. repeat split; reflexivity. Qed.

(** C9, counterexample: [loadComponent('footer')] whose fetch answers 404 is
    rejected and the rejection reaches the caller (line 93).  On a page
    without a state collaborator the review fragment is mounted and its
    sidebar listener attached all the same; a click on an item then throws a
    TypeError out of the listener (line 115), which nothing catches.  And a
    failed activation is visible: the landing view was marked, and after
    [showView('result')] has failed no view is, while no placeholder is
    shown. *)
Lemma faults_that_escape :
  let w := run Demo.firstElementChild
             [CallLoadComponent "footer"; Settle 0 Demo.not_found] Demo.bare in
  let w' := run Demo.firstElementChild
              [CallLoadComponent "review-answers-view";
               Settle 0 (Demo.ok_with Demo.review_markup)] Demo.bare in
  let w'' := run Demo.firstElementChild
               [CallShowView "result"; Settle 0 (Demo.ok_with "no markup")] Demo.bare in
  (includes "view" "footer" = false /\
   delivered w = [("footer", Throw (FetchFailure "footer" 404))]) /\
  (stateManager w' = None /\
   fst (step Demo.firstElementChild
          (ClickSidebar "review-answers-view" [Demo.item 11]) w') =
     Throw (TypeError "this.stateManager")) /\
  (carries Demo.bare "landing" = true /\
   carries w'' "landing" = false /\
   document w'' = [set_active false Demo.landing_view]).
Proof. vm_compute. repeat split; reflexivity. Qed.

(** C9 (amended): nothing is thrown out of [init], [showView], the dispatcher,
    the two initializers, the settlement of any pending promise (the retry and
    the batch included) or the back button's handler; [loadComponent] is
    fulfilled for every name that contains [view], and it is rejected only
    for a name that does not, when the fetch failed.  A failed fetch of a view
    fragment leaves the placeholder mounted, and a recovery that does not find
    its target leaves the current view as it was. *)
Theorem no_fault_escapes parse w :
  fst (init w) = Normal tt /\
  (forall viewName, fst (showView viewName w) = Normal tt) /\
  (forall viewName element, fst (onViewActivated viewName element w) = Normal tt) /\
  (forall element, fst (initializeReviewManager element w) = Normal tt) /\
  (forall element, fst (initializeReviewAnswersView element w) = Normal tt) /\
  (forall i net, fst (settle parse i net w) = Normal tt) /\
  (forall element, fst (step parse (ClickBack element) w) = Normal tt) /\
  (forall componentName net,
      includes "view" componentName = true ->
      exists html, fst (loadComponent_finish parse componentName net w) = Normal html) /\
  (forall componentName net e,
      fst (loadComponent_finish parse componentName net w) = Throw e ->
      includes "view" componentName = false /\ fetch_fails net) /\
  (forall viewName net,
      fetch_fails net ->
      getElementById (viewName +:+ "-view")
        (document (snd (loadComponent_finish parse (viewName +:+ "-view") net w))) =
        Some (fallbackElement (viewName +:+ "-view"))) /\
  (forall viewName started i net,
      pending w !! i = Some (retry_task viewName started) ->
      getElementById (viewName +:+ "-view")
        (document (snd (settle parse i net w))) = None ->
      currentView (snd (settle parse i net w)) = currentView w).
Proof.
  split; [|split; [|split; [|split; [|split; [|split; [|split; [|split;
    [|split; [|split]]]]]]]]].
  - apply total_unit, init_total.
  - intros viewName. apply total_unit, showView_total.
  - intros viewName element. apply total_unit, onViewActivated_total.
  - intros element. apply total_unit, initializeReviewManager_total.
  - intros element. apply total_unit, initializeReviewAnswersView_total.
  - intros i net. apply total_unit, settle_total.
  - intros element. apply total_unit. cbn [step].
    apply total_bind; [apply total_gets|intros doc].
    destruct (getElementById element doc ≫= backBtn) as [c|]; [|apply total_mret].
    apply total_fire, showView_total.
  - intros componentName net Hview.
    apply (loadComponent_finish_view_total parse _ net Hview w).
  - intros componentName net e Hthrow.
    apply (loadComponent_finish_throws parse _ _ _ _ Hthrow).
  - intros viewName net Hfail.
    rewrite (loadComponent_finish_failed parse _ _ _ Hfail (includes_view_suffix _)).
    cbn [snd]. apply (mount_lookup (fallbackElement (viewName +:+ "-view"))).
    apply view_id_nonempty.
  - intros viewName started i net Hi Hnone.
    apply (settle_retry_not_found parse _ _ _ _ _ Hi Hnone).
Qed.

(** * Further properties of the class *)

(** The rules of [preserves] with the step for [modify] left to [side]. *)
Ltac preserves_with side :=
  repeat first
    [ apply preserves_mret
    | apply preserves_throw
    | apply preserves_gets
    | apply preserves_capture
    | apply preserves_bind; [|intros ?]
    | apply preserves_try_catch; [|intros ?]
    | progress unfold console_error, emit, call, optional_call, own_or_app
    | match goal with
      | |- preserves _ (match ?x with _ => _ end) => destruct x
      end
    | apply preserves_modify; side
    | solve [eauto with preserves] ].

Lemma preserves_forEach {A} P (xs : list A) body :
  (forall x, preserves P (body x)) -> preserves P (forEach xs body).
Proof.
  intros Hb. induction xs as [|x xs IH]; simpl.
  - apply preserves_mret.
  - apply preserves_bind; [apply Hb|intros _; exact IH].
Qed.

Lemma preserves_fire P n (listener : JS unit) :
  preserves P listener -> preserves P (fire n listener).
Proof.
  intros Hl. induction n as [|n IH]; simpl; intros w Hw.
  - exact Hw.
  - specialize (Hl w Hw). destruct (listener w) as [[a|e] w']; simpl in *.
    + apply IH, Hl.
    + apply IH, Hl.
Qed.

(** ** The handle is built once (lines 140-142) *)

Lemma constructions_snoc e t :
  constructions (t ++ [e]) = (constructions t + if is_RM_new e then 1 else 0)%nat.
Proof.
  unfold constructions. rewrite List.filter_app, length_app. simpl.
  destruct (is_RM_new e); reflexivity.
Qed.

Ltac handle_side :=
  intros ? ?; unfold handle_counted in *; cbn;
  rewrite ?constructions_snoc; cbn; rewrite ?Nat.add_0_r; solve [auto].

(** All the case distinctions of [initializeReviewManager], one by one. *)
Ltac initializeReviewManager_cases :=
  unfold initializeReviewManager, try_catch, own_or_app, console_error, call, emit,
    mbind, JS_bind, bind, gets, modify, throw, mret, JS_ret, ret;
  cbn;
  repeat match goal with
  | |- context [match ?x with _ => _ end] =>
      lazymatch x with
      | context [match _ with _ => _ end] => fail
      | _ => destruct x eqn:?; cbn
      end
  end.

Lemma initializeReviewManager_handle element :
  preserves (fun w => constructor_returns w /\ handle_counted w)
    (initializeReviewManager element).
Proof.
  intros w [Hr Hw]. unfold constructor_returns, handle_counted, constructions in *.
  initializeReviewManager_cases;
    repeat match goal with
    | H : ReviewAnswersManager_class w = _ |- _ => rewrite H in Hr
    | H : reviewManager w = _ |- _ => rewrite H in Hw
    end;
    try contradiction;
    rewrite ?List.filter_app, ?length_app; cbn; split; try exact I; try congruence; try lia.
Qed.

(** Once a handle is stored the constructor is not called again. *)
Lemma initializeReviewManager_keeps_count element rm c :
  preserves (fun w => reviewManager w = Some rm /\ constructions (trace w) = c)
    (initializeReviewManager element).
Proof.
  intros w [Hw Hc]. unfold constructions in *.
  initializeReviewManager_cases;
    rewrite ?List.filter_app, ?length_app; cbn; split; try congruence; try lia.
Qed.

(** A constructor that throws never leaves a handle. *)
Lemma initializeReviewManager_no_handle element :
  preserves (fun w => ReviewAnswersManager_class w = Some Raises /\ reviewManager w = None)
    (initializeReviewManager element).
Proof.
  intros w [Hr Hw].
  initializeReviewManager_cases; split; congruence.
Qed.

(** A property of the world that [initializeReviewManager] and a write to the
    cache keep, and that depends on nothing else but the handle and the calls
    of the constructor, is kept by every event. *)
Section HandleInvariant.
Variable parse : string -> option Element.
Variable P : World -> Prop.
Hypothesis P_currentView : forall x w, P w -> P (with_currentView x w).
Hypothesis P_componentCache :
  forall name html w,
    P w -> P (with_componentCache (<[name := html]> (componentCache w)) w).
Hypothesis P_document : forall x w, P w -> P (with_document x w).
Hypothesis P_console : forall x w, P w -> P (with_console x w).
Hypothesis P_dispatched : forall x w, P w -> P (with_dispatched x w).
Hypothesis P_delivered : forall x w, P w -> P (with_delivered x w).
Hypothesis P_pending : forall x w, P w -> P (with_pending x w).
Hypothesis P_batches : forall x w, P w -> P (with_batches x w).
Hypothesis P_trace :
  forall e w, is_RM_new e = false -> P w -> P (with_trace (trace w ++ [e]) w).
Hypothesis P_initializeReviewManager :
  forall element, preserves P (initializeReviewManager element).

Ltac P_side :=
  intros ? ?; cbv beta;
  first [ apply P_currentView | apply P_componentCache | apply P_document
        | apply P_console | apply P_dispatched | apply P_delivered
        | apply P_pending | apply P_batches | apply P_trace; [reflexivity|] ];
  assumption.

Ltac P_tac :=
  repeat (cbv zeta;
    lazymatch goal with
    | |- preserves _ (initializeReviewManager _) => apply P_initializeReviewManager
    | |- preserves _ (mret _) => apply preserves_mret
    | |- preserves _ (ret _) => apply (preserves_mret P)
    | |- preserves _ (throw _) => apply preserves_throw
    | |- preserves _ (gets _) => apply preserves_gets
    | |- preserves _ (capture _) => apply preserves_capture
    | |- preserves _ (mbind _ _) => apply preserves_bind; [|intros ?]
    | |- preserves _ (try_catch _ _) => apply preserves_try_catch; [|intros ?]
    | |- preserves _ (forEach _ _) => apply preserves_forEach; intros ?
    | |- preserves _ (fire _ _) => apply preserves_fire
    | |- preserves _ (modify _) => apply preserves_modify; P_side
    | |- preserves _ (console_error _) => unfold console_error
    | |- preserves _ (emit _) => unfold emit
    | |- preserves _ (call _ _ _) => unfold call
    | |- preserves _ (optional_call _ _ _) => unfold optional_call
    | |- preserves _ (match ?x with _ => _ end) => destruct x
    | |- preserves _ _ =>
        match goal with
        | H : _ |- _ => apply H
        end
    end).

Lemma P_onViewActivated viewName element :
  preserves P (onViewActivated viewName element).
Proof. unfold onViewActivated. P_tac. Qed.

Lemma P_initializeComponent componentName element :
  preserves P (initializeComponent componentName element).
Proof. unfold initializeComponent, initializeReviewAnswersView. P_tac. Qed.

Lemma P_mount el : preserves P (mount el).
Proof. unfold mount. P_tac. Qed.

Lemma P_loadComponent_finish componentName net :
  preserves P (loadComponent_finish parse componentName net).
Proof.
  pose proof P_initializeComponent. pose proof P_mount.
  unfold loadComponent_finish, loadComponent_insert, createFallbackView. P_tac.
Qed.

Lemma P_loadComponent componentName k : preserves P (loadComponent componentName k).
Proof. unfold loadComponent, loadComponent_begin. P_tac. Qed.

Lemma P_showView viewName : preserves P (showView viewName).
Proof.
  pose proof P_onViewActivated. pose proof P_loadComponent.
  unfold showView, showView_deactivate. P_tac.
Qed.

Lemma P_showView_retry viewName outcome : preserves P (showView_retry viewName outcome).
Proof. pose proof P_onViewActivated. unfold showView_retry. P_tac. Qed.

Lemma P_init : preserves P init.
Proof. pose proof P_loadComponent. unfold init, loadAllComponents_begin. P_tac. Qed.

Lemma P_batch_settled b outcome : preserves P (batch_settled b outcome).
Proof.
  pose proof P_showView.
  unfold batch_settled, set_batch, init_end, loadAllComponents_end. P_tac.
Qed.

Lemma P_settle i net : preserves P (settle parse i net).
Proof.
  pose proof P_showView_retry. pose proof P_batch_settled.
  pose proof P_loadComponent_finish.
  unfold settle, resume. P_tac.
Qed.

Lemma P_sidebar_listener s chain : preserves P (sidebar_listener s chain).
Proof. unfold sidebar_listener. P_tac. Qed.

Lemma P_step ev : preserves P (step parse ev).
Proof.
  pose proof P_init. pose proof P_showView. pose proof P_loadComponent.
  pose proof P_settle. pose proof P_sidebar_listener.
  destruct ev; cbn [step]; P_tac.
Qed.

Lemma P_run evs w : P w -> P (run parse evs w).
Proof.
  revert w. induction evs as [|ev evs IH]; intros w Hw; simpl; [exact Hw|].
  apply IH, P_step, Hw.
Qed.

End HandleInvariant.

(** X1: over any sequence of events after construction: when the
    constructor of [ReviewAnswersManager] does not throw it has run exactly
    once if a handle is stored and not at all otherwise; when it throws no
    handle is ever stored; and a stored handle is never replaced or dropped,
    nor is the constructor called again while it is stored. *)
Theorem handle_is_constructed_once parse sm qm tm br evs :
  let w := run parse evs (constructor sm qm tm br) in
  (br_ReviewAnswersManager br <> Some Raises ->
   constructions (trace w) =
     match reviewManager w with Some _ => 1%nat | None => 0%nat end) /\
  (br_ReviewAnswersManager br = Some Raises -> reviewManager w = None) /\
  forall rm evs',
    reviewManager w = Some rm ->
    reviewManager (run parse evs' w) = Some rm /\
    constructions (trace (run parse evs' w)) = constructions (trace w).
Proof.
  intros w. split; [|split].
  - intros Hcls.
    assert (constructor_returns w /\ handle_counted w) as [_ Hc]; [|exact Hc].
    subst w.
    apply (P_run parse (fun w => constructor_returns w /\ handle_counted w));
      try (intros; assumption).
    + intros e w0 He [Hr Hw0]. split; [exact Hr|]. unfold handle_counted in *.
      cbn [trace with_trace reviewManager].
      rewrite constructions_snoc, He. lia.
    + apply initializeReviewManager_handle.
    + split; [|reflexivity]. unfold constructor_returns. cbn.
      destruct (br_ReviewAnswersManager br) as [[cls|]|]; try exact I. congruence.
  - intros Hcls.
    assert (ReviewAnswersManager_class w = Some Raises /\ reviewManager w = None)
      as [_ Hn]; [|exact Hn].
    subst w.
    apply (P_run parse
             (fun w => ReviewAnswersManager_class w = Some Raises /\ reviewManager w = None));
      try (intros; assumption).
    + apply initializeReviewManager_no_handle.
    + split; [exact Hcls|reflexivity].
  - intros rm evs' Hrm.
    apply (P_run parse
             (fun w0 => reviewManager w0 = Some rm /\
                        constructions (trace w0) = constructions (trace w)));
      try (intros; assumption).
    + intros e w0 He [Hw0 Hc]. split; [exact Hw0|].
      cbn [trace with_trace]. rewrite constructions_snoc, He. lia.
    + intros element. apply initializeReviewManager_keeps_count.
    + split; [exact Hrm|reflexivity].
Qed.

(** ** The fragment cache (lines 47-49, 58) *)

Lemma loadComponent_finish_failed_eq parse componentName net w :
  fetch_fails net ->
  exists e,
    loadComponent_finish parse componentName net w =
      (console_error ("Error loading component " +:+ componentName +:+ ":");;
       if includes "view" componentName
       then createFallbackView componentName
       else throw e) w.
Proof.
  intros Hfail. unfold loadComponent_finish, try_catch.
  destruct net as [|r].
  - exists NetworkError. reflexivity.
  - simpl in Hfail. destruct (ok r) eqn:Hok.
    + destruct Hfail as [Hf|Hf]; [congruence|].
      exists NetworkError. unfold mbind at 1, JS_bind, bind. cbn. rewrite Hok, Hf.
      reflexivity.
    + exists (FetchFailure componentName (status r)).
      unfold mbind at 1, JS_bind, bind. cbn. rewrite Hok. reflexivity.
Qed.

Lemma loadComponent_finish_failed_cache parse componentName net w :
  fetch_fails net ->
  componentCache (snd (loadComponent_finish parse componentName net w)) =
    componentCache w.
Proof.
  intros Hfail.
  destruct (loadComponent_finish_failed_eq parse componentName net w Hfail) as [e ->].
  assert (keeps componentCache
            (console_error ("Error loading component " +:+ componentName +:+ ":");;
             if includes "view" componentName
             then createFallbackView componentName
             else throw e)) as Hk by keeps_tac.
  apply Hk.
Qed.

(** X2: the cache only grows.  A fetch answered with a success status and a
    readable body writes the markup under the component's name; a failed
    fetch writes nothing; no event other than the settlement of a promise
    touches the cache; and no sequence of events removes an entry. *)
Theorem componentCache_only_grows parse :
  (forall componentName r html w,
      ok r = true -> text r = Returns html ->
      componentCache (snd (loadComponent_finish parse componentName (Responds r) w)) =
        <[componentName := html]> (componentCache w)) /\
  (forall componentName net w,
      fetch_fails net ->
      componentCache (snd (loadComponent_finish parse componentName net w)) =
        componentCache w) /\
  (forall ev w,
      (forall i net, ev <> Settle i net) ->
      componentCache (snd (step parse ev w)) = componentCache w) /\
  (forall evs w componentName,
      is_Some (componentCache w !! componentName) ->
      is_Some (componentCache (run parse evs w) !! componentName)).
Proof.
  split; [|split; [|split]].
  - intros componentName r html w Hok Htext.
    rewrite (loadComponent_finish_ok parse _ _ _ _ Hok Htext). cbn [snd].
    pose proof (loadComponent_insert_keeps parse componentName html
                  (with_componentCache (<[componentName := html]> (componentCache w)) w))
      as Hk.
    cbv beta in Hk. apply (f_equal snd) in Hk. exact Hk.
  - intros. apply loadComponent_finish_failed_cache. assumption.
  - intros ev w Hev.
    assert (forall v, keeps componentCache (showView v)) as HshowView.
    { intros v. unfold showView, showView_deactivate, loadComponent, loadComponent_begin.
      keeps_tac. }
    destruct ev as [|v|name|i net|element|element chain]; cbn [step].
    + assert (keeps componentCache init) as Hk
        by (unfold init, loadAllComponents_begin, loadComponent, loadComponent_begin;
            keeps_tac).
      apply Hk.
    + apply HshowView.
    + assert (keeps componentCache (loadComponent name KCaller)) as Hk
        by (unfold loadComponent, loadComponent_begin; keeps_tac).
      apply Hk.
    + exfalso. apply (Hev i net). reflexivity.
    + assert (keeps componentCache
                (doc ← gets document;
                 match getElementById element doc ≫= backBtn with
                 | Some c => fire (listeners c) (showView "result")
                 | None => mret tt
                 end)) as Hk.
      { apply keeps_bind; [apply keeps_gets|intros doc].
        destruct (getElementById element doc ≫= backBtn); [|apply keeps_mret].
        apply keeps_fire, HshowView. }
      apply Hk.
    + assert (keeps componentCache
                (doc ← gets document;
                 match getElementById element doc ≫= sidebarList with
                 | Some s => fire (sb_listeners s) (sidebar_listener s chain)
                 | None => mret tt
                 end)) as Hk.
      { apply keeps_bind; [apply keeps_gets|intros doc].
        destruct (getElementById element doc ≫= sidebarList); [|apply keeps_mret].
        apply keeps_fire. unfold sidebar_listener. keeps_tac. }
      apply Hk.
  - intros evs w componentName Hsome.
    apply (P_run parse (fun w0 => is_Some (componentCache w0 !! componentName)));
      try (intros; assumption).
    + intros name html w0 Hw0. cbn [componentCache with_componentCache].
      destruct (decide (name = componentName)) as [->|Hne].
      * rewrite lookup_insert_eq. eauto.
      * rewrite lookup_insert_ne by exact Hne. exact Hw0.
    + intros element. eapply preserves_keeps; [apply initializeReviewManager_keeps|].
      intros w0 w' Hf Hw0. cbv beta in Hf. unfold dispatch_frame in Hf.
      assert (componentCache w' = componentCache w0) as -> by congruence. exact Hw0.
Qed.

(** ** The document only grows (lines 73-78, 159, 165, 174) *)

(** The rules of [preserves], by the shape of the method; what is left is
    looked up among the hypotheses. *)
Ltac inv_tac side :=
  repeat (cbv zeta;
    lazymatch goal with
    | |- preserves _ (mret _) => apply preserves_mret
    | |- preserves ?P (ret _) => apply (preserves_mret P)
    | |- preserves _ (throw _) => apply preserves_throw
    | |- preserves _ (gets _) => apply preserves_gets
    | |- preserves _ (capture _) => apply preserves_capture
    | |- preserves _ (mbind _ _) => apply preserves_bind; [|intros ?]
    | |- preserves _ (try_catch _ _) => apply preserves_try_catch; [|intros ?]
    | |- preserves _ (forEach _ _) => apply preserves_forEach; intros ?
    | |- preserves _ (fire _ _) => apply preserves_fire
    | |- preserves _ (modify _) => apply preserves_modify; side
    | |- preserves _ (console_error _) => unfold console_error
    | |- preserves _ (emit _) => unfold emit
    | |- preserves _ (call _ _ _) => unfold call
    | |- preserves _ (optional_call _ _ _) => unfold optional_call
    | |- preserves _ (match ?x with _ => _ end) => destruct x
    | |- preserves _ _ =>
        match goal with
        | H : _ |- _ => apply H
        end
    end).

Lemma ids_update_first id f doc :
  (forall e, el_id (f e) = el_id e) -> ids (update_first id f doc) = ids doc.
Proof.
  intros Hf. induction doc as [|e doc IH]; simpl; [reflexivity|].
  destruct (has_id id e); simpl; [rewrite Hf|rewrite IH]; reflexivity.
Qed.

Lemma ids_deactivated doc : ids (deactivated doc) = ids doc.
Proof. unfold deactivated. rewrite !ids_update_first; reflexivity. Qed.

Lemma ids_markers doc doc' : markers doc' = markers doc -> ids doc' = ids doc.
Proof.
  intros H. apply (f_equal (List.map fst)) in H. unfold markers, ids in *.
  rewrite !List.map_map in H. exact H.
Qed.

Lemma getElementById_absent id doc :
  String.eqb id "" = false -> getElementById id doc = None -> ~ In id (ids doc).
Proof.
  intros Hid. unfold getElementById. rewrite Hid.
  induction doc as [|e doc IH]; simpl; [tauto|].
  unfold has_id at 1. destruct (String.eqb_spec (el_id e) id) as [E|Hne]; [discriminate|].
  intros Hnone [Heq|Hin]; [contradiction|]. exact (IH Hnone Hin).
Qed.

(** Lines 73-78: an element whose id is taken replaces the holder in place,
    any other is appended. *)
Lemma mount_ids el w :
  String.eqb (el_id el) "" = false ->
  ids (document (snd (mount el w))) =
    match getElementById (el_id el) (document w) with
    | Some _ => ids (document w)
    | None => ids (document w) ++ [el_id el]
    end.
Proof.
  intros Hid. unfold mount, mbind, JS_bind, bind, gets. cbn.
  destruct (getElementById (el_id el) (document w)) eqn:E; cbn.
  - clear E. induction (document w) as [|e0 doc IH]; simpl; [reflexivity|].
    unfold has_id at 1. destruct (String.eqb_spec (el_id e0) (el_id el)) as [Heq|Hne]; simpl.
    + rewrite Heq. reflexivity.
    + f_equal. exact IH.
  - unfold ids. rewrite List.map_app. reflexivity.
Qed.

Lemma mount_extends l el :
  String.eqb (el_id el) "" = false -> preserves (document_extends l) (mount el).
Proof.
  intros Hid w [[more Hmore] Hnd]. unfold document_extends.
  rewrite (mount_ids el w Hid).
  destruct (getElementById (el_id el) (document w)) eqn:E.
  - split; [exists more; exact Hmore|exact Hnd].
  - split.
    + exists (more ++ [el_id el]). rewrite Hmore, app_assoc. reflexivity.
    + intros Hl. apply NoDup_ListNoDup. apply NoDup_app. repeat split.
      * apply NoDup_ListNoDup, Hnd, Hl.
      * intros x Hx Hx'. apply list_elem_of_singleton in Hx'. subst x.
        apply (getElementById_absent _ _ Hid E). apply list_elem_of_In, Hx.
      * apply NoDup_singleton.
Qed.

Lemma keeps_ids_extends {A} l (m : JS A) :
  keeps (fun w => ids (document w)) m -> preserves (document_extends l) m.
Proof.
  intros Hk w Hw. unfold document_extends in *. rewrite (Hk w). exact Hw.
Qed.

Lemma showView_ids viewName : keeps (fun w => ids (document w)) (showView viewName).
Proof.
  intros w. destruct (getElementById (viewName +:+ "-view") (document w)) as [e|] eqn:E.
  - rewrite (showView_found _ _ _ E). cbn [snd]. rewrite onViewActivated_document.
    cbn [document with_currentView with_document].
    rewrite ids_update_first by reflexivity. apply ids_deactivated.
  - destruct (showView_missing_world _ _ E) as (Hdoc & _). rewrite Hdoc.
    apply ids_deactivated.
Qed.

Lemma showView_retry_ids viewName outcome :
  keeps (fun w => ids (document w)) (showView_retry viewName outcome).
Proof.
  intros w. destruct outcome as [html|e]; [|reflexivity].
  rewrite showView_retry_eq.
  destruct (getElementById (viewName +:+ "-view") (document w)); [|reflexivity].
  cbn [snd]. rewrite onViewActivated_document.
  cbn [document with_currentView with_document]. apply ids_update_first. reflexivity.
Qed.

Lemma initializeComponent_ids componentName element :
  keeps (fun w => ids (document w)) (initializeComponent componentName element).
Proof.
  eapply keeps_weaken; [apply initializeComponent_keeps|].
  intros w w' Hf. unfold hook_frame in Hf. apply ids_markers. congruence.
Qed.

Lemma includes_view_or_panel componentName :
  includes "view" componentName || String.eqb componentName "review-panel" = true ->
  includes "view" componentName = true.
Proof.
  destruct (includes "view" componentName) eqn:E; [reflexivity|]. simpl.
  intros H. apply String.eqb_eq in H. subst componentName. discriminate.
Qed.

Section DocumentInvariant.
Variable parse : string -> option Element.
Variable l : list string.

Ltac same_document := intros ? Hsame; exact Hsame.

Lemma loadComponent_finish_extends componentName net :
  preserves (document_extends l) (loadComponent_finish parse componentName net).
Proof.
  unfold loadComponent_finish. apply preserves_try_catch.
  - apply preserves_bind; [destruct net; inv_tac same_document|intros response].
    destruct (negb (ok response)); [apply preserves_throw|].
    apply preserves_bind; [destruct (text response); inv_tac same_document|intros html].
    apply preserves_bind; [apply preserves_modify; same_document|intros _].
    apply preserves_bind; [|intros _; apply preserves_mret].
    unfold loadComponent_insert.
    destruct (includes "view" componentName || String.eqb componentName "review-panel")
      eqn:Hkind; [|apply preserves_mret].
    apply includes_view_or_panel in Hkind.
    apply preserves_bind; [apply preserves_gets|intros container].
    destruct container; [|apply preserves_mret].
    destruct (parse html) as [el|]; [|apply preserves_mret].
    cbv zeta. rewrite Hkind. cbn [andb].
    apply preserves_bind.
    + apply mount_extends. unfold truthy.
      destruct (String.eqb (el_id el) "") eqn:Hel; cbn [negb set_id el_id].
      * apply (includes_nonempty "view" _ Hkind). reflexivity.
      * exact Hel.
    + intros _. apply keeps_ids_extends, initializeComponent_ids.
  - intros e. apply preserves_bind; [inv_tac same_document|intros _].
    destruct (includes "view" componentName) eqn:Hkind; [|apply preserves_throw].
    unfold createFallbackView.
    apply preserves_bind; [|intros _; apply preserves_mret].
    apply mount_extends. apply (includes_nonempty "view" _ Hkind). reflexivity.
Qed.

Lemma step_extends ev : preserves (document_extends l) (step parse ev).
Proof.
  pose proof (fun v => keeps_ids_extends l _ (showView_ids v)) as HshowView.
  pose proof (fun v o => keeps_ids_extends l _ (showView_retry_ids v o)) as Hretry.
  pose proof loadComponent_finish_extends as Hfinish.
  assert (forall name k, preserves (document_extends l) (loadComponent name k)) as Hload.
  { intros name k. unfold loadComponent, loadComponent_begin. inv_tac same_document. }
  destruct ev as [|v|name|i net|element|element chain]; cbn [step].
  - unfold init, loadAllComponents_begin. inv_tac same_document.
  - apply HshowView.
  - apply Hload.
  - unfold settle, resume, batch_settled, set_batch, init_end, loadAllComponents_end.
    inv_tac same_document.
  - inv_tac same_document.
  - unfold sidebar_listener. inv_tac same_document.
Qed.

End DocumentInvariant.

(** X3: whatever happens, the class never removes or reorders the elements of
    the document and never leaves two of them with one id: after any events
    the ids of the document start with the ids it had, in the same order,
    and are distinct if those were. *)
Theorem document_only_grows parse evs w :
  (exists more, ids (document (run parse evs w)) = ids (document w) ++ more) /\
  (List.NoDup (ids (document w)) -> List.NoDup (ids (document (run parse evs w)))).
Proof.
  assert (document_extends (ids (document w)) w) as H0.
  { split; [exists []; rewrite app_nil_r; reflexivity|tauto]. }
  revert H0. generalize (ids (document w)). intros l. revert w.
  induction evs as [|ev evs IH]; intros w Hw; simpl; [exact Hw|].
  apply IH, (step_extends parse l ev), Hw.
Qed.

(** ** Binding once (lines 101-105 and 108-124) *)

Lemma update_first_compose id f g doc :
  (forall e, has_id id e = true -> has_id id (g e) = true) ->
  update_first id f (update_first id g doc) = update_first id (fun e => f (g e)) doc.
Proof.
  intros Hg. induction doc as [|e doc IH]; simpl; [reflexivity|].
  destruct (has_id id e) eqn:He; simpl.
  - rewrite (Hg e He). reflexivity.
  - rewrite He, IH. reflexivity.
Qed.

Lemma update_first_ext id f g doc :
  (forall e, f e = g e) -> update_first id f doc = update_first id g doc.
Proof.
  intros Hfg. induction doc as [|e doc IH]; simpl; [reflexivity|].
  destruct (has_id id e); [rewrite Hfg|rewrite IH]; reflexivity.
Qed.

Lemma has_id_bind_backBtn id e : has_id id (bind_backBtn e) = has_id id e.
Proof. unfold has_id. destruct (bind_backBtn_same e) as [-> _]. reflexivity. Qed.

Lemma has_id_bind_sidebarList id e : has_id id (bind_sidebarList e) = has_id id e.
Proof. unfold has_id. destruct (bind_sidebarList_same e) as [-> _]. reflexivity. Qed.

Lemma initializeReviewAnswersView_document element w :
  document (snd (initializeReviewAnswersView element w)) =
    update_first element (fun e => bind_sidebarList (bind_backBtn e)) (document w).
Proof.
  unfold initializeReviewAnswersView, try_catch.
  set (w1 := with_document
               (update_first element bind_sidebarList
                  (update_first element bind_backBtn (document w))) w).
  change (document
            (snd (let (c, w') := initializeReviewManager element w1 in
                  match c with
                  | Normal a => (Normal a, w')
                  | Throw _ => console_error "initializeReviewAnswersView error:" w'
                  end)) =
          update_first element (fun e => bind_sidebarList (bind_backBtn e)) (document w)).
  pose proof (total_unit _ w1 (initializeReviewManager_total element)) as Hn.
  pose proof (initializeReviewManager_keeps element w1) as Hk.
  destruct (initializeReviewManager element w1) as [c w2].
  simpl in Hn, Hk. subst c. cbn [snd]. unfold dispatch_frame in Hk.
  assert (document w2 = document w1) as -> by congruence.
  cbn [w1 document with_document]. apply update_first_compose.
  intros e He. rewrite has_id_bind_backBtn. exact He.
Qed.

Lemma bind_twice e :
  bind_sidebarList (bind_backBtn (bind_sidebarList (bind_backBtn e))) =
  bind_sidebarList (bind_backBtn e).
Proof.
  destruct e as [id act [[[] n]|] [[[] m cs]|]]; reflexivity.
Qed.

(** X4: [initializeReviewAnswersView] attaches one click listener to the back
    button and one to the sidebar list when they are there and not flagged as
    bound, attaches none to a control that is flagged, sets both flags and
    leaves the list's children alone; run again on the same element it
    changes nothing in the document. *)
Theorem initializeReviewAnswersView_binds_once element w e :
  getElementById element (document w) = Some e ->
  let w1 := snd (initializeReviewAnswersView element w) in
  (exists e1,
      getElementById element (document w1) = Some e1 /\
      el_id e1 = el_id e /\ el_active e1 = el_active e /\
      backBtn e1 =
        option_map (fun c => {| bound := true;
                                listeners := if bound c then listeners c
                                             else S (listeners c) |}) (backBtn e) /\
      sidebarList e1 =
        option_map (fun s => {| delegationBound := true;
                                sb_listeners := if delegationBound s then sb_listeners s
                                                else S (sb_listeners s);
                                children := children s |}) (sidebarList e)) /\
  document (snd (initializeReviewAnswersView element w1)) = document w1.
Proof.
  intros He w1. split.
  - exists (bind_sidebarList (bind_backBtn e)). split.
    + subst w1. rewrite initializeReviewAnswersView_document.
      rewrite getElementById_update_first, String.eqb_refl, He; [reflexivity|].
      intros e0 He0. rewrite has_id_bind_sidebarList, has_id_bind_backBtn. exact He0.
    + destruct e as [id act [[[] n]|] [[[] m cs]|]]; repeat split; reflexivity.
  - subst w1. rewrite !initializeReviewAnswersView_document.
    rewrite update_first_compose.
    + apply update_first_ext. intros e0. apply bind_twice.
    + intros e0 He0. rewrite has_id_bind_sidebarList, has_id_bind_backBtn. exact He0.
Qed.

Lemma initializeReviewAnswersView_binds_once_witness :
  let fresh := Demo.controls_of Demo.review_markup "review-answers-view" in
  let w := with_document [Demo.landing_view; fresh] Demo.configured in
  let w1 := snd (initializeReviewAnswersView "review-answers-view" w) in
  document (snd (initializeReviewAnswersView "review-answers-view" w1)) = document w1.
Proof.
  exact (proj2 (initializeReviewAnswersView_binds_once "review-answers-view"
                  (with_document
                     [Demo.landing_view;
                      Demo.controls_of Demo.review_markup "review-answers-view"]
                     Demo.configured)
                  (Demo.controls_of Demo.review_markup "review-answers-view") eq_refl)).
Defined.

(** ** The sidebar listener at its edges (lines 110-122) *)

Lemma indexOf_from_absent cs item i :
  ~ In (node_key item) (List.map node_key cs) -> indexOf_from cs item i = (-1)%Z.
Proof.
  revert i. induction cs as [|c cs IH]; intros i Hnot; simpl; [reflexivity|].
  destruct (Nat.eqb_spec (node_key c) (node_key item)) as [E|_].
  - exfalso. apply Hnot. left. exact E.
  - apply IH. intros Hin. apply Hnot. right. exact Hin.
Qed.

Lemma indexOf_from_bounds cs item i :
  indexOf_from cs item i = (-1)%Z \/
  (i <= indexOf_from cs item i < i + Z.of_nat (length cs))%Z.
Proof.
  revert i. induction cs as [|c cs IH]; intros i; simpl; [left; reflexivity|].
  destruct (Nat.eqb (node_key c) (node_key item)); [right; lia|].
  destruct (IH (i + 1)%Z) as [H|H]; [left; exact H|right; lia].
Qed.

(** X5: the guard of line 114 never rejects a click.  Whenever the target has
    an [li] ancestor-or-self the collaborators are called with the index
    [indexOf] answered, which lies between -1 and the number of children,
    and is -1 when that [li] is not a child of the list (an item of a nested
    or of an enclosing list). *)
Theorem sidebar_listener_never_filters s chain btn w sm rm :
  closest_li chain = Some btn ->
  stateManager w = Some sm -> setReviewCurrentQuestion sm = Returns tt ->
  reviewManager w = Some rm ->
  loadReviewQuestion rm = Returns tt -> closeSidebar rm = Returns tt ->
  let idx := indexOf (children s) btn in
  sidebar_listener s chain w =
    (Normal tt,
     with_trace (trace w ++ [SM_setReviewCurrentQuestion idx;
                             RM_loadReviewQuestion idx; RM_closeSidebar]) w) /\
  (-1 <= idx < Z.of_nat (length (children s)))%Z /\
  (~ In (node_key btn) (List.map node_key (children s)) -> idx = (-1)%Z).
Proof.
  intros Hli Hsm Hset Hrm Hload Hclose idx. split; [|split].
  - unfold sidebar_listener. rewrite Hli. fold idx.
    unfold Number_isNaN, call, emit, mbind, JS_bind, bind, gets, modify, mret, JS_ret, ret.
    cbn. rewrite Hsm, Hset. cbn. rewrite Hrm, Hload. cbn. rewrite Hrm, Hclose. cbn.
    rewrite <- !app_assoc. reflexivity.
  - subst idx. unfold indexOf.
    destruct (indexOf_from_bounds (children s) btn 0) as [H|H]; lia.
  - intros Hnot. apply indexOf_from_absent, Hnot.
Qed.

Lemma sidebar_listener_never_filters_witness :
  let nested := {| node_key := 77; node_tag := "li" |} in
  fst (sidebar_listener
         {| delegationBound := true; sb_listeners := 1;
            children := [Demo.item 10; Demo.item 11; Demo.item 12] |}
         [nested; Demo.item 11] Demo.reviewing) = Normal tt /\
  indexOf [Demo.item 10; Demo.item 11; Demo.item 12] nested = (-1)%Z.
Proof.
  pose proof (sidebar_listener_never_filters
                {| delegationBound := true; sb_listeners := 1;
                   children := [Demo.item 10; Demo.item 11; Demo.item 12] |}
                [{| node_key := 77; node_tag := "li" |}; Demo.item 11]
                {| node_key := 77; node_tag := "li" |}
                Demo.reviewing Demo.state_manager Demo.review_manager
                eq_refl eq_refl eq_refl eq_refl eq_refl eq_refl) as (H1 & _ & H3).
  split.
  - rewrite H1. reflexivity.
  - apply H3. simpl. intuition lia.
Defined.

(** X6: without its collaborators the listener faults.  With no state
    collaborator it throws a TypeError before calling anything; with a state
    collaborator but no handle it does call [setReviewCurrentQuestion], skips
    [loadReviewQuestion] (guarded at line 116) and throws at the unguarded
    [closeSidebar] of line 119. *)
Theorem sidebar_listener_without_collaborators s chain btn w :
  closest_li chain = Some btn ->
  (stateManager w = None ->
   sidebar_listener s chain w = (Throw (TypeError "this.stateManager"), w)) /\
  (forall sm,
      stateManager w = Some sm -> setReviewCurrentQuestion sm = Returns tt ->
      reviewManager w = None ->
      sidebar_listener s chain w =
        (Throw (TypeError "this.reviewManager"),
         with_trace
           (trace w ++ [SM_setReviewCurrentQuestion (indexOf (children s) btn)]) w)).
Proof.
  intros Hli. split.
  - intros Hsm. unfold sidebar_listener. rewrite Hli.
    unfold Number_isNaN, mbind, JS_bind, bind, gets, throw. cbn. rewrite Hsm. reflexivity.
  - intros sm Hsm Hset Hrm. unfold sidebar_listener. rewrite Hli.
    unfold Number_isNaN, call, emit, mbind, JS_bind, bind, gets, modify, throw,
      mret, JS_ret, ret.
    cbn. rewrite Hsm, Hset. cbn. rewrite Hrm. cbn. rewrite Hrm. reflexivity.
Qed.

Lemma sidebar_listener_without_collaborators_witness :
  sidebar_listener
    {| delegationBound := true; sb_listeners := 1;
       children := [Demo.item 10; Demo.item 11; Demo.item 12] |}
    [Demo.item 11] Demo.configured =
  (Throw (TypeError "this.reviewManager"),
   with_trace [SM_setReviewCurrentQuestion 1] Demo.configured).
Proof.
  exact (proj2 (sidebar_listener_without_collaborators
                  {| delegationBound := true; sb_listeners := 1;
                     children := [Demo.item 10; Demo.item 11; Demo.item 12] |}
                  [Demo.item 11] (Demo.item 11) Demo.configured eq_refl)
           Demo.state_manager eq_refl eq_refl eq_refl).
Defined.

(** ** Fragments that are cached but not mounted (lines 58-78, 171-177) *)

Lemma getElementById_not_in id doc : ~ In id (ids doc) -> getElementById id doc = None.
Proof.
  intros Hnot. unfold getElementById. destruct (String.eqb id ""); [reflexivity|].
  induction doc as [|e doc IH]; simpl; [reflexivity|].
  unfold has_id at 1. destruct (String.eqb_spec (el_id e) id) as [E|Hne].
  - exfalso. apply Hnot. left. exact E.
  - apply IH. intros Hin. apply Hnot. right. exact Hin.
Qed.

Lemma getElementById_in id doc :
  String.eqb id "" = false -> In id (ids doc) -> getElementById id doc <> None.
Proof.
  intros Hid Hin Hnone. exact (getElementById_absent _ _ Hid Hnone Hin).
Qed.

(** X7: the cache is written before the fragment is mounted (line 58 before
    lines 61-78).  When the page has no [#app-container], or the markup has no
    root element, a successful fetch is cached and returned and the document
    is left as it was. *)
Theorem loadComponent_caches_what_it_cannot_mount parse componentName r html w :
  ok r = true -> text r = Returns html ->
  has_container w = false \/ parse html = None ->
  loadComponent_finish parse componentName (Responds r) w =
    (Normal html,
     with_componentCache (<[componentName := html]> (componentCache w)) w).
Proof.
  intros Hok Htext Hskip. rewrite (loadComponent_finish_ok parse _ _ _ _ Hok Htext).
  f_equal. unfold loadComponent_insert.
  destruct (includes "view" componentName || String.eqb componentName "review-panel");
    [|reflexivity].
  unfold mbind at 1, JS_bind, bind, gets. cbn [fst snd has_container with_componentCache].
  destruct (has_container w) eqn:Hc; [|reflexivity].
  destruct Hskip as [Hskip|Hskip]; [discriminate|]. rewrite Hskip. reflexivity.
Qed.

Lemma loadComponent_caches_what_it_cannot_mount_witness :
  loadComponent_finish Demo.firstElementChild "result-view"
    (Demo.ok_with "No results yet") Demo.configured =
    (Normal "No results yet",
     with_componentCache
       (<["result-view" := "No results yet"]> (componentCache Demo.configured))
       Demo.configured).
Proof.
  exact (loadComponent_caches_what_it_cannot_mount Demo.firstElementChild "result-view"
           {| status := 200; text := Returns "No results yet" |}
           "No results yet" Demo.configured eq_refl eq_refl (or_intror eq_refl)).
Defined.

(** X8: the fragment is mounted under the id of its own root element; the
    component's name is used only when the root has none (lines 70-72).  A
    fragment whose root carries another id is cached under the component's
    name, its root is in the document, and [getElementById] of the
    component's name still finds nothing. *)
Theorem loadComponent_mounts_under_the_roots_id parse componentName r html el w :
  ok r = true -> text r = Returns html ->
  has_container w = true ->
  includes "view" componentName = true ->
  parse html = Some el -> truthy (el_id el) = true -> el_id el <> componentName ->
  getElementById componentName (document w) = None ->
  let w' := snd (loadComponent_finish parse componentName (Responds r) w) in
  componentCache w' !! componentName = Some html /\
  getElementById componentName (document w') = None /\
  getElementById (el_id el) (document w') <> None.
Proof.
  intros Hok Htext Hc Hkind Hparse Hid Hne Hmiss w'. subst w'.
  rewrite (loadComponent_finish_ok parse _ _ _ _ Hok Htext). cbn [snd].
  set (w1 := with_componentCache (<[componentName := html]> (componentCache w)) w).
  assert (String.eqb (el_id el) "" = false) as Hid'.
  { unfold truthy in Hid. destruct (String.eqb (el_id el) ""); [discriminate|reflexivity]. }
  assert (String.eqb componentName "" = false) as Hname.
  { apply (includes_nonempty "view" _ Hkind). reflexivity. }
  split.
  - pose proof (loadComponent_insert_keeps parse componentName html w1) as Hk.
    apply (f_equal snd) in Hk. cbn [snd] in Hk. rewrite Hk.
    subst w1. cbn [componentCache with_componentCache]. apply lookup_insert_eq.
  - assert (ids (document (snd (loadComponent_insert parse componentName html w1))) =
            match getElementById (el_id el) (document w) with
            | Some _ => ids (document w)
            | None => ids (document w) ++ [el_id el]
            end) as Hids.
    { unfold loadComponent_insert. rewrite Hkind. cbn [orb].
      unfold mbind at 1, JS_bind, bind, gets. cbn [fst snd]. subst w1.
      cbn [has_container with_componentCache]. rewrite Hc, Hparse, Hid. cbn [negb andb].
      set (w1 := with_componentCache (<[componentName := html]> (componentCache w)) w).
      unfold mbind, JS_bind, bind.
      pose proof (mount_ids el w1 Hid') as Hm.
      pose proof (total_unit _ w1 (mount_total el)) as Hn.
      destruct (mount el w1) as [c w2]. cbn [fst snd] in *. subst c.
      rewrite initializeComponent_ids. exact Hm. }
    split.
    + apply getElementById_not_in. rewrite Hids.
      pose proof (getElementById_absent _ _ Hname Hmiss) as Habs.
      destruct (getElementById (el_id el) (document w)); [exact Habs|].
      rewrite in_app_iff. simpl. intuition congruence.
    + apply (getElementById_in _ _ Hid'). rewrite Hids.
      destruct (getElementById (el_id el) (document w)) eqn:E.
      * destruct (in_dec String.string_dec (el_id el) (ids (document w))) as [Hin|Hnin];
          [exact Hin|]. apply getElementById_not_in in Hnin. congruence.
      * rewrite in_app_iff. right. left. reflexivity.
Qed.

Lemma loadComponent_mounts_under_the_roots_id_witness :
  let w' := snd (loadComponent_finish Demo.firstElementChild "result-view"
                   (Demo.ok_with "<div id='results'>") Demo.configured) in
  componentCache w' !! "result-view" = Some "<div id='results'>" /\
  getElementById "result-view" (document w') = None /\
  getElementById "results" (document w') <> None.
Proof.
  apply (loadComponent_mounts_under_the_roots_id Demo.firstElementChild "result-view"
           {| status := 200; text := Returns "<div id='results'>" |}
           "<div id='results'>" (Demo.controls_of "<div id='results'>" "results")
           Demo.configured); try reflexivity.
  simpl. discriminate.
Defined.

(** One attempt to show a view whose fragment is cached while its element is
    not in the document: the call and the settlement of the promise it
    queued. *)
Lemma showView_cached_unmounted parse viewName html net w :
  componentCache w !! (viewName +:+ "-view") = Some html -> truthy html = true ->
  getElementById (viewName +:+ "-view") (document w) = None ->
  run parse [CallShowView viewName; Settle (length (pending w)) net] w =
    with_console (console w ++ ["View " +:+ viewName +:+ " not found in DOM"])
      (with_document (deactivated (document w)) w).
Proof.
  intros Hc Ht Hmiss. cbn [run step].
  rewrite (showView_missing _ _ Hmiss), loadComponent_eq. cbn [snd].
  set (w0 := with_console (console w ++ ["View " +:+ viewName +:+ " not found in DOM"])
               (with_document (deactivated (document w)) w)).
  assert (started_of (viewName +:+ "-view") w0 = Hit html) as Hs.
  { unfold started_of. subst w0. cbn [componentCache with_console with_document].
    rewrite Hc, Ht. reflexivity. }
  rewrite Hs.
  assert (pending w0 = pending w) as Hp by reflexivity.
  rewrite <- Hp.
  erewrite (settle_retry parse (length (pending w0)) net _ viewName (Hit html))
    by (cbn [pending with_pending]; apply lookup_snoc).
  cbv zeta. cbn [pending with_pending]. rewrite delete_snoc.
  rewrite showView_retry_eq. cbn [document with_pending].
  assert (getElementById (viewName +:+ "-view") (document w0) = None) as Hmiss0.
  { subst w0. cbn [document with_console with_document].
    apply deactivated_found, Hmiss. }
  rewrite Hmiss0. cbn [snd]. apply with_pending_restore'.
Qed.

(** X9: a view whose fragment is cached while its element is not in the
    document can never be shown.  [showView] clears the four views and asks
    [loadComponent], which answers from the cache without fetching and
    without mounting (lines 47-49), so the retry finds nothing (line 173);
    the cache, the document's lack of the element and the current view are
    as before, and the next attempt goes the same way.  After [n] attempts
    the element is still missing, nothing was fetched, nothing is pending
    and the console holds [n] more reports. *)
Theorem cached_unmounted_view_stays_missing parse viewName html nets w :
  componentCache w !! (viewName +:+ "-view") = Some html -> truthy html = true ->
  getElementById (viewName +:+ "-view") (document w) = None ->
  let attempt w net := run parse [CallShowView viewName; Settle (length (pending w)) net] w in
  let w' := List.fold_left attempt nets w in
  getElementById (viewName +:+ "-view") (document w') = None /\
  currentView w' = currentView w /\
  dispatched w' = dispatched w /\
  trace w' = trace w /\
  pending w' = pending w /\
  componentCache w' = componentCache w /\
  length (console w') = (length (console w) + length nets)%nat /\
  (nets <> [] -> forall u, In u views -> carries w' u = false).
Proof.
  intros Hc Ht Hmiss attempt w'. subst w'.
  revert w Hc Ht Hmiss. induction nets as [|net nets IH]; intros w Hc Ht Hmiss.
  - simpl. rewrite Nat.add_0_r. repeat split; try assumption. congruence.
  - cbn [List.fold_left].
    set (w1 := with_console (console w ++ ["View " +:+ viewName +:+ " not found in DOM"])
                 (with_document (deactivated (document w)) w)).
    assert (attempt w net = w1) as Ha
      by exact (showView_cached_unmounted parse _ _ net _ Hc Ht Hmiss).
    rewrite Ha.
    assert (getElementById (viewName +:+ "-view") (document w1) = None) as Hmiss1.
    { subst w1. cbn [document with_console with_document]. apply deactivated_found, Hmiss. }
    destruct (IH w1 Hc Ht Hmiss1) as (H1 & H2 & H3 & H4 & H5 & H6 & H7 & H8).
    split; [exact H1|]. split; [exact H2|]. split; [exact H3|]. split; [exact H4|].
    split; [exact H5|]. split; [exact H6|]. split.
    + rewrite H7. subst w1. cbn [console with_console with_document].
      rewrite length_app. simpl. lia.
    + intros _ u Hu. destruct nets as [|net' nets'].
      * simpl. subst w1. unfold carries. cbn [document with_console with_document].
        apply (marker_at_deactivated _ _ Hu).
      * apply H8; [discriminate|exact Hu].
Qed.

Lemma cached_unmounted_view_stays_missing_witness :
  let w := with_componentCache {["result-view" := "No results yet"]} Demo.configured in
  let attempt w net :=
    run Demo.firstElementChild
      [CallShowView "result"; Settle (length (pending w)) net] w in
  let w' := List.fold_left attempt [Demo.not_found; Demo.ok_with "<div>"] w in
  getElementById "result-view" (document w') = None /\ trace w' = trace w /\
  length (console w') = (length (console w) + 2)%nat.
Proof.
  pose proof (cached_unmounted_view_stays_missing Demo.firstElementChild "result"
                "No results yet" [Demo.not_found; Demo.ok_with "<div>"]
                (with_componentCache {["result-view" := "No results yet"]} Demo.configured)
                eq_refl eq_refl eq_refl) as (H1 & _ & _ & H4 & _ & _ & H7 & _).
  split; [exact H1|]. split; [exact H4|exact H7].
Defined.

(** ** Direct activation (lines 156-168) *)

(** X10: when the target element is in the document, [showView] completes
    in the call itself: it returns normally whatever the collaborators do,
    the target carries the marker and none of the four views does unless it
    is the target, the current view is the target, one activation is
    dispatched, and nothing is fetched, queued, cached, added to or removed
    from the document. *)
Theorem showView_direct_activation viewName w e :
  getElementById (viewName +:+ "-view") (document w) = Some e ->
  let w' := snd (showView viewName w) in
  fst (showView viewName w) = Normal tt /\
  carries w' viewName = true /\
  (forall u, In u views -> carries w' u = String.eqb u viewName) /\
  currentView w' = viewName /\
  dispatched w' = dispatched w ++ [viewName] /\
  pending w' = pending w /\
  fetches (trace w') = fetches (trace w) /\
  componentCache w' = componentCache w /\
  ids (document w') = ids (document w).
Proof.
  intros Hfound w'. subst w'.
  destruct (showView_found_state _ _ _ Hfound) as [Hcur Hdis].
  split; [rewrite (showView_found _ _ _ Hfound); reflexivity|].
  split; [rewrite (showView_found_carries _ _ _ _ Hfound), String.eqb_refl; reflexivity|].
  split; [exact (showView_found_exclusive _ _ _ Hfound)|].
  split; [exact Hcur|]. split; [exact Hdis|].
  rewrite showView_ids.
  rewrite (showView_found _ _ _ Hfound). cbn [snd].
  match goal with
  | |- context [onViewActivated ?v ?el ?w1] =>
      pose proof (onViewActivated_keeps v el w1) as Hk
  end.
  unfold dispatch_frame in Hk. cbn -[fetches] in Hk.
  injection Hk as _ Hcache Hpen _ _ _ _ Hfetch.
  repeat split; assumption.
Qed.

Lemma showView_direct_activation_witness :
  let w := with_currentView "review-answers" Demo.reviewing in
  let w' := snd (showView "landing" w) in
  carries w' "landing" = true /\ carries w' "review-answers" = false /\
  currentView w' = "landing".
Proof.
  pose proof (showView_direct_activation "landing"
                (with_currentView "review-answers" Demo.reviewing) Demo.landing_view
                eq_refl) as (_ & H2 & H3 & H4 & _).
  split; [exact H2|]. split; [|exact H4].
  apply (H3 "review-answers"). simpl. tauto.
Defined.

(** X11: [showView] clears the four views of [this.views] and nothing else
    (line 157), and it does not check its argument against that list.  A view
    of another name keeps its marker through the activation of any other
    view, whether that activation finds its target or not. *)
Theorem showView_clears_only_the_four viewName u w :
  is_view_id (u +:+ "-view") = false -> u <> viewName ->
  carries (snd (showView viewName w)) u = carries w u.
Proof.
  intros Hu Hne.
  destruct (getElementById (viewName +:+ "-view") (document w)) as [e|] eqn:E.
  - rewrite (showView_found_carries _ _ _ _ E), Hu.
    destruct (String.eqb_spec u viewName); [contradiction|reflexivity].
  - destruct (showView_missing_world _ _ E) as (Hdoc & _).
    unfold carries. rewrite Hdoc, deactivated_lookup, Hu. reflexivity.
Qed.

Lemma showView_clears_only_the_four_witness :
  let settings :=
    {| el_id := "settings-view"; el_active := true; backBtn := None; sidebarList := None |} in
  let w := with_document [Demo.landing_view; settings] Demo.configured in
  carries (snd (showView "landing" w)) "settings" = true /\
  carries (snd (showView "landing" w)) "landing" = true.
Proof.
  split.
  - rewrite (showView_clears_only_the_four "landing" "settings"); [reflexivity|reflexivity|].
    discriminate.
  - reflexivity.
Defined.

(** ** Loading a view on demand (lines 169-177) *)

(** [showView] on a missing, uncached view, and the settlement of the fetch
    it started. *)
Lemma showView_fetching parse viewName net w :
  getElementById (viewName +:+ "-view") (document w) = None ->
  started_of (viewName +:+ "-view") w = Fetching ->
  run parse [CallShowView viewName; Settle (length (pending w)) net] w =
    let r := loadComponent_finish parse (viewName +:+ "-view") net
               (with_trace
                  (trace w ++ [Fetch ("components/" +:+ (viewName +:+ "-view") +:+ ".html")])
                  (with_console (console w ++ ["View " +:+ viewName +:+ " not found in DOM"])
                     (with_document (deactivated (document w)) w))) in
    snd (showView_retry viewName (fst r) (snd r)).
Proof.
  intros Hmiss Hs. cbn [run step].
  rewrite (showView_missing _ _ Hmiss), loadComponent_eq. cbn [snd].
  set (w0 := with_console (console w ++ ["View " +:+ viewName +:+ " not found in DOM"])
               (with_document (deactivated (document w)) w)).
  change (started_of (viewName +:+ "-view") w0) with (started_of (viewName +:+ "-view") w).
  rewrite Hs.
  set (wf := with_trace
               (trace w0 ++ [Fetch ("components/" +:+ (viewName +:+ "-view") +:+ ".html")])
               w0).
  change (pending w0) with (pending wf).
  erewrite (settle_retry parse (length (pending wf)) net _ viewName Fetching)
    by (cbn [pending with_pending]; apply lookup_snoc).
  cbv zeta. cbn [pending with_pending]. rewrite delete_snoc.
  rewrite with_pending_restore'. reflexivity.
Qed.

(** X12: showing a view that is neither in the document nor in the cache
    loads it.  When the fetch succeeds, the page has its container and the
    fragment's root element has no id or the view's id and no marker of its
    own, then once the fetch has settled the view is mounted, it is the one
    of the four views that carries the marker, it is the current view, one
    activation was dispatched, one request was made, the markup is cached
    and nothing is left pending. *)
Theorem showView_loads_then_activates parse viewName r html el w :
  getElementById (viewName +:+ "-view") (document w) = None ->
  started_of (viewName +:+ "-view") w = Fetching ->
  ok r = true -> text r = Returns html -> has_container w = true ->
  parse html = Some el -> el_id el = "" \/ el_id el = viewName +:+ "-view" ->
  el_active el = false ->
  let w2 := run parse [CallShowView viewName; Settle (length (pending w)) (Responds r)] w in
  carries w2 viewName = true /\
  (forall u, In u views -> carries w2 u = String.eqb u viewName) /\
  currentView w2 = viewName /\
  dispatched w2 = dispatched w ++ [viewName] /\
  pending w2 = pending w /\
  componentCache w2 = <[viewName +:+ "-view" := html]> (componentCache w) /\
  fetches (trace w2) =
    fetches (trace w) ++ [Fetch ("components/" +:+ (viewName +:+ "-view") +:+ ".html")] /\
  ids (document w2) = ids (document w) ++ [viewName +:+ "-view"].
Proof.
  intros Hmiss Hs Hok Htext Hc Hparse Hid Hact w2.
  assert (mounts_unmarked parse (Responds r)) as Hnet.
  { unfold mounts_unmarked. rewrite Htext, Hparse. exact Hact. }
  pose proof (showView_recovered_exclusive parse viewName w (Responds r) Hmiss Hnet) as Hex.
  cbv zeta in Hex. change (snd (settle parse _ _ _)) with w2 in Hex.
  subst w2. rewrite (showView_fetching parse _ _ _ Hmiss Hs) in *. cbv zeta in *.
  set (wf := with_trace _ _) in *.
  rewrite (loadComponent_finish_ok parse _ _ _ _ Hok Htext) in *. cbn [fst snd] in *.
  set (wc := with_componentCache _ wf) in *.
  pose proof (loadComponent_insert_keeps parse (viewName +:+ "-view") html wc) as Hk.
  assert (ids (document (snd (loadComponent_insert parse (viewName +:+ "-view") html wc))) =
          ids (document w) ++ [viewName +:+ "-view"]) as Hids.
  { unfold loadComponent_insert. rewrite includes_view_suffix. cbn [orb andb].
    unfold mbind at 1, JS_bind, bind, gets. cbn [fst snd].
    change (has_container wc) with (has_container w). rewrite Hc, Hparse.
    set (el' := if negb (truthy (el_id el)) then set_id (viewName +:+ "-view") el else el).
    assert (el_id el' = viewName +:+ "-view") as Hid'.
    { subst el'. destruct Hid as [Hid|Hid]; [rewrite Hid; reflexivity|].
      unfold truthy. rewrite Hid, view_id_nonempty. cbn [negb]. exact Hid. }
    unfold mbind, JS_bind, bind.
    pose proof (mount_ids el' wc) as Hm. rewrite Hid' in Hm.
    specialize (Hm (view_id_nonempty viewName)).
    pose proof (total_unit _ wc (mount_total el')) as Hn.
    destruct (mount el' wc) as [c w3]. cbn [fst snd] in *. subst c.
    rewrite Hid', initializeComponent_ids, Hm.
    change (document wc) with (deactivated (document w)).
    rewrite (proj2 (deactivated_found _ _) Hmiss), ids_deactivated. reflexivity. }
  set (w3 := snd (loadComponent_insert parse (viewName +:+ "-view") html wc)) in *.
  assert (getElementById (viewName +:+ "-view") (document w3) <> None) as Hfound3.
  { apply getElementById_in; [apply view_id_nonempty|].
    rewrite Hids, in_app_iff. right. left. reflexivity. }
  rewrite showView_retry_eq in *.
  destruct (getElementById (viewName +:+ "-view") (document w3)) as [e3|] eqn:E3;
    [clear Hfound3|contradiction].
  cbn [snd] in *.
  set (wa := with_currentView viewName _) in *.
  pose proof (onViewActivated_keeps viewName (viewName +:+ "-view") wa) as Hka.
  assert (getElementById (viewName +:+ "-view")
            (document (snd (onViewActivated viewName (viewName +:+ "-view") wa))) =
          Some (set_active true e3)) as Hfound.
  { rewrite onViewActivated_document. subst wa. cbn [document with_currentView with_document].
    rewrite getElementById_update_first by apply has_id_on.
    rewrite String.eqb_refl, E3. reflexivity. }
  destruct Hex as [Hcur Hcar]; [rewrite Hfound; discriminate|].
  split; [unfold carries; rewrite Hfound; reflexivity|].
  split; [exact Hcar|]. split; [exact Hcur|].
  split.
  { rewrite onViewActivated_dispatched. subst wa. cbn [dispatched with_currentView with_document].
    apply (f_equal fst) in Hk. unfold load_frame in Hk. cbn -[fetches] in Hk.
    injection Hk as _ _ _ _ Hd _. rewrite Hd. reflexivity. }
  unfold dispatch_frame in Hka. cbn -[fetches] in Hka.
  injection Hka as _ Hcache Hpen _ _ _ Hdoc Hfetch.
  unfold load_frame in Hk. cbn -[fetches] in Hk.
  injection Hk as _ Hpen3 _ _ _ _ Hfetch3 _ _ _ _ _ Hcache3.
  split; [rewrite Hpen; exact Hpen3|].
  split; [rewrite Hcache; exact Hcache3|].
  split.
  { rewrite Hfetch, Hfetch3, fetches_snoc. reflexivity. }
  rewrite Hdoc, ids_update_first by reflexivity. exact Hids.
Qed.

Lemma showView_loads_then_activates_witness :
  let w2 := run Demo.firstElementChild
              [CallShowView "test";
               Settle (length (pending Demo.configured))
                 (Demo.ok_with "<div id='test-view' class='view'>")]
              Demo.configured in
  carries w2 "test" = true /\ carries w2 "landing" = false /\ currentView w2 = "test".
Proof.
  pose proof (showView_loads_then_activates Demo.firstElementChild "test"
                {| status := 200; text := Returns "<div id='test-view' class='view'>" |}
                "<div id='test-view' class='view'>"
                (Demo.controls_of "<div id='test-view' class='view'>" "test-view")
                Demo.configured eq_refl eq_refl eq_refl eq_refl eq_refl eq_refl
                (or_intror eq_refl) eq_refl) as (H1 & H2 & H3 & _).
  split; [exact H1|]. split; [|exact H3].
  apply (H2 "landing"). simpl. tauto.
Defined.

(** ** The order of the calls in initializeReviewManager (lines 136-147) *)

(** X13: the handle is constructed before the collaborators are asked for
    their data (line 141 before lines 144-145), and stored.  With both
    collaborators injected and the class loaded, the calls that leave the
    class are, in this order, the constructor (only when there is no handle
    yet), [getTestResults], [getQuestions] and [initialize] with the two
    answers and the element; the sequence stops at the first call that
    throws, the fault is reported on the console once and not rethrown.  A
    constructor that throws leaves no handle, so the next call constructs
    again; a handle whose construction succeeded stays stored even when a
    later call throws and it was never initialized. *)
Theorem initializeReviewManager_call_order element w sm qm construct :
  stateManager w = Some sm -> questionManager w = Some qm ->
  ReviewAnswersManager_class w = Some construct ->
  let w' := snd (initializeReviewManager element w) in
  let handle :=
    match reviewManager w with
    | Some rm => Some rm
    | None => match construct with Returns rm => Some rm | Raises => None end
    end in
  fst (initializeReviewManager element w) = Normal tt /\
  reviewManager w' = handle /\
  trace w' =
    trace w ++
    (match reviewManager w with Some _ => [] | None => [RM_new] end) ++
    match handle with
    | None => []
    | Some _ =>
        SM_getTestResults ::
        match getTestResults sm with
        | Raises => []
        | Returns results =>
            QM_getQuestions ::
            match getQuestions qm with
            | Raises => []
            | Returns questions => [RM_initialize results questions element]
            end
        end
    end /\
  (forall rm, handle = Some rm ->
     getTestResults sm <> Raises -> getQuestions qm <> Raises -> rm_initialize rm <> Raises ->
     console w' = console w) /\
  (handle = None \/ getTestResults sm = Raises \/ getQuestions qm = Raises \/
   (exists rm, handle = Some rm /\ rm_initialize rm = Raises) ->
   console w' = console w ++ ["Error initializing review manager:"]).
Proof.
  intros Hsm Hqm Hcls w' handle. subst w' handle.
  unfold initializeReviewManager, own_or_app, try_catch, call, emit, console_error,
    mbind, JS_bind, bind, gets, modify, throw, mret, JS_ret, ret.
  destruct (reviewManager w) as [rm0|] eqn:Hrm;
    destruct construct as [cls|];
    destruct (getTestResults sm) as [results|] eqn:Hr;
    destruct (getQuestions qm) as [questions|] eqn:Hq;
    repeat (cbn; rewrite ?Hsm, ?Hqm, ?Hcls, ?Hrm, ?Hr, ?Hq);
    try (destruct (rm_initialize _) as [[]|] eqn:Hi); cbn; rewrite <- ?app_assoc; cbn;
    rewrite ?Hrm;
    (split; [reflexivity|]); (split; [reflexivity|]); (split; [reflexivity|]);
    (split;
     [ intros rm Hh; try discriminate Hh; injection Hh as <-; intros; (reflexivity || congruence)
     | intros [Hh|[Hh|[Hh|(rm & Hh & Hh')]]]; try discriminate Hh; try reflexivity;
       injection Hh as <-; congruence ]).
Qed.

Lemma initializeReviewManager_call_order_witness :
  let w' := snd (initializeReviewManager "review-answers-view" Demo.configured) in
  let throwing :=
    constructor (Some Demo.state_manager) (Some Demo.question_manager) None
      {| br_app := None; br_stateManager := None; br_questionManager := None;
         br_testManager := None; br_ReviewAnswersManager := Some Raises;
         br_has_container := true; br_document := [Demo.landing_view] |} in
  let w1 := snd (initializeReviewManager "review-answers-view" throwing) in
  let w2 := snd (initializeReviewManager "review-answers-view" w1) in
  (reviewManager w' = Some Demo.review_manager /\
   trace w' =
     [RM_new; SM_getTestResults; QM_getQuestions; RM_initialize 7 9 "review-answers-view"]) /\
  (reviewManager w2 = None /\ trace w2 = [RM_new; RM_new]).
Proof.
  split.
  - pose proof (initializeReviewManager_call_order "review-answers-view" Demo.configured
                  Demo.state_manager Demo.question_manager (Returns Demo.review_manager)
                  eq_refl eq_refl eq_refl) as (_ & H2 & H3 & _).
    split; [exact H2|exact H3].
  - cbv zeta.
    match goal with
    | |- reviewManager (snd (initializeReviewManager _ ?w1)) = _ /\ _ =>
        pose proof (initializeReviewManager_call_order "review-answers-view" w1
                      Demo.state_manager Demo.question_manager Raises
                      eq_refl eq_refl eq_refl) as (_ & H2 & H3 & _)
    end.
    split; [exact H2|exact H3].
Defined.

(** ** The bootstrap (lines 17-43) *)

(** One call of [loadComponent], seen from a world [w0] that agrees with [w]
    on everything but the pending list and the trace. *)
Lemma loadComponent_queues componentName k w0 w :
  (batches w, currentView w, dispatched w, has_container w, document w,
   componentCache w, console w) =
  (batches w0, currentView w0, dispatched w0, has_container w0, document w0,
   componentCache w0, console w0) ->
  exists w',
    loadComponent componentName k w = (Normal tt, w') /\
    pending w' =
      pending w ++ [{| task_name := componentName;
                       task_started := started_of componentName w0;
                       task_cont := k |}] /\
    (batches w', currentView w', dispatched w', has_container w', document w',
     componentCache w', console w') =
    (batches w0, currentView w0, dispatched w0, has_container w0, document w0,
     componentCache w0, console w0).
Proof.
  intros Hf. eexists. split; [apply loadComponent_eq|].
  assert (started_of componentName w = started_of componentName w0) as Hs.
  { unfold started_of. injection Hf as _ _ _ _ _ Hc _. rewrite Hc. reflexivity. }
  rewrite Hs. destruct (started_of componentName w0); split; try reflexivity; exact Hf.
Qed.

Lemma loadAllComponents_begin_eq w :
  exists w0,
    loadAllComponents_begin w = (Normal (length (batches w)), w0) /\
    pending w0 = pending w ++ List.map (batch_load (length (batches w)) w) components /\
    batches w0 = batches w ++ [BWaiting 5] /\
    currentView w0 = currentView w /\ dispatched w0 = dispatched w /\
    has_container w0 = has_container w /\ document w0 = document w /\
    componentCache w0 = componentCache w /\ console w0 = console w.
Proof.
  unfold loadAllComponents_begin.
  rewrite (bind_normal _ _ w (length (batches w)) w) by reflexivity.
  set (b := length (batches w)).
  destruct (loadComponent_queues "landing-view" (KBatch b) w w eq_refl)
    as (w1 & E1 & P1 & F1).
  rewrite (bind_normal _ _ _ _ _ E1).
  destruct (loadComponent_queues "test-view" (KBatch b) w w1 F1) as (w2 & E2 & P2 & F2).
  rewrite (bind_normal _ _ _ _ _ E2).
  destruct (loadComponent_queues "result-view" (KBatch b) w w2 F2) as (w3 & E3 & P3 & F3).
  rewrite (bind_normal _ _ _ _ _ E3).
  destruct (loadComponent_queues "review-answers-view" (KBatch b) w w3 F3)
    as (w4 & E4 & P4 & F4).
  rewrite (bind_normal _ _ _ _ _ E4).
  destruct (loadComponent_queues "review-panel" (KBatch b) w w4 F4) as (w5 & E5 & P5 & F5).
  rewrite (bind_normal _ _ _ _ _ E5).
  eexists. split; [reflexivity|].
  cbn [pending batches currentView dispatched has_container document componentCache
       console with_batches].
  injection F5 as Hb Hcv Hd Hc Hdoc Hcache Hcon.
  rewrite P5, P4, P3, P2, P1, Hb, Hcv, Hd, Hc, Hdoc, Hcache, Hcon, <- !app_assoc.
  repeat split; reflexivity.
Qed.

Lemma init_eq w :
  exists w0,
    init w = (Normal tt, w0) /\
    pending w0 = pending w ++ List.map (batch_load (length (batches w)) w) components /\
    batches w0 = batches w ++ [BWaiting 5] /\
    currentView w0 = currentView w /\ dispatched w0 = dispatched w /\
    has_container w0 = has_container w /\ document w0 = document w /\
    componentCache w0 = componentCache w /\ console w0 = console w.
Proof.
  destruct (loadAllComponents_begin_eq w) as (w0 & Heq & Hrest).
  exists w0. split; [|exact Hrest].
  unfold init, try_catch, mbind, JS_bind, bind. rewrite Heq. reflexivity.
Qed.

Lemma showView_found_pending viewName w e :
  getElementById (viewName +:+ "-view") (document w) = Some e ->
  pending (snd (showView viewName w)) = pending w.
Proof.
  intros Hfound. rewrite (showView_found _ _ _ Hfound). cbn [snd].
  match goal with
  | |- context [onViewActivated ?v ?el ?w1] =>
      pose proof (onViewActivated_keeps v el w1) as Hk
  end.
  unfold dispatch_frame in Hk. cbn -[fetches] in Hk.
  injection Hk as _ _ Hpen _ _ _ _ _. exact Hpen.
Qed.

Lemma run_cons parse ev evs w :
  run parse (ev :: evs) w = run parse evs (snd (step parse ev w)).
Proof. reflexivity. Qed.

Lemma showView_batches viewName : keeps batches (showView viewName).
Proof.
  intros w. destruct (getElementById (viewName +:+ "-view") (document w)) as [e|] eqn:E.
  - rewrite (showView_found _ _ _ E). cbn [snd].
    match goal with
    | |- context [onViewActivated ?v ?el ?w1] =>
        pose proof (onViewActivated_keeps v el w1) as Hk
    end.
    unfold dispatch_frame in Hk. cbn -[fetches] in Hk.
    injection Hk as _ _ _ _ Hb _ _ _. exact Hb.
  - rewrite (showView_missing _ _ E), loadComponent_eq. cbn [snd batches with_pending].
    destruct (started_of _ _); reflexivity.
Qed.

Section Bootstrap.
Variable parse : string -> option Element.

Lemma mount_in el w :
  String.eqb (el_id el) "" = false -> In (el_id el) (ids (document (snd (mount el w)))).
Proof.
  intros Hid. rewrite (mount_ids el w Hid).
  destruct (getElementById (el_id el) (document w)) eqn:E.
  - destruct (in_dec String.string_dec (el_id el) (ids (document w))) as [Hin|Hnin];
      [exact Hin|].
    apply getElementById_not_in in Hnin. congruence.
  - rewrite in_app_iff. right. left. reflexivity.
Qed.

Lemma loadComponent_finish_mounts componentName net w :
  includes "view" componentName = true ->
  yields_element parse componentName net (has_container w) ->
  In componentName (ids (document (snd (loadComponent_finish parse componentName net w)))).
Proof.
  intros Hv Hy.
  assert (String.eqb componentName "" = false) as Hname
    by (apply (includes_nonempty "view" _ Hv); reflexivity).
  assert (fetch_fails net ->
          In componentName
            (ids (document (snd (loadComponent_finish parse componentName net w))))) as Hfail.
  { intros Hf. rewrite (loadComponent_finish_failed parse _ _ _ Hf Hv). cbn [snd].
    apply (mount_in (fallbackElement componentName)). exact Hname. }
  destruct net as [|r]; [apply Hfail; exact I|]. cbn [yields_element] in Hy.
  destruct (ok r) eqn:Hok; [|apply Hfail; left; exact Hok]. cbn [negb] in Hy.
  destruct (text r) as [html|] eqn:Htext; [|apply Hfail; right; exact Htext].
  destruct Hy as [Hc Hel].
  destruct (parse html) as [el|] eqn:Hparse; [|contradiction].
  rewrite (loadComponent_finish_ok parse _ _ _ _ Hok Htext). cbn [snd].
  unfold loadComponent_insert. rewrite Hv. cbn [orb andb].
  unfold mbind at 1, JS_bind, bind, gets. cbn [fst snd has_container with_componentCache].
  rewrite Hc, Hparse.
  set (el' := if negb (truthy (el_id el)) then set_id componentName el else el).
  assert (el_id el' = componentName) as Hid'.
  { subst el'. destruct Hel as [Hid|Hid]; [rewrite Hid; reflexivity|].
    unfold truthy. rewrite Hid, Hname. cbn [negb]. exact Hid. }
  unfold mbind, JS_bind, bind.
  match goal with
  | |- context [mount el' ?w1] =>
      pose proof (mount_in el' w1) as Hm;
      pose proof (total_unit _ w1 (mount_total el')) as Hn;
      destruct (mount el' w1) as [c w3]
  end.
  cbn [fst snd] in *. subst c. rewrite initializeComponent_ids.
  rewrite Hid' in Hm. apply Hm, Hname.
Qed.

Lemma run_extends l evs w :
  document_extends l w -> document_extends l (run parse evs w).
Proof.
  revert w. induction evs as [|ev evs IH]; intros w Hw; simpl; [exact Hw|].
  apply IH, (step_extends parse l ev), Hw.
Qed.

Lemma run_keeps_element id evs w :
  getElementById id (document w) <> None ->
  getElementById id (document (run parse evs w)) <> None.
Proof.
  intros Hfound.
  assert (String.eqb id "" = false) as Hid.
  { unfold getElementById in Hfound. destruct (String.eqb id ""); congruence. }
  apply (getElementById_in _ _ Hid).
  assert (document_extends (ids (document w)) w) as H0.
  { split; [exists []; rewrite app_nil_r; reflexivity|tauto]. }
  destruct (run_extends _ evs w H0) as [[more Hmore] _]. rewrite Hmore, in_app_iff. left.
  destruct (in_dec String.string_dec id (ids (document w))) as [Hin|Hnin]; [exact Hin|].
  apply getElementById_not_in in Hnin. contradiction.
Qed.

(** What the settled load of a batch task leaves behind. *)
Lemma batch_load_outcome t net wl :
  includes "view" (task_name t) = true ->
  exists html wf,
    (match task_started t with
     | Hit html => mret (Normal html)
     | Fetching => capture (loadComponent_finish parse (task_name t) net)
     end) wl = (Normal (Normal html), wf) /\
    load_frame wf = load_frame wl /\
    wf = match task_started t with
         | Hit _ => wl
         | Fetching => snd (loadComponent_finish parse (task_name t) net wl)
         end.
Proof.
  intros Hv. destruct (task_started t) as [h|].
  - exists h, wl. repeat split.
  - destruct (loadComponent_finish_view_total parse _ net Hv wl) as [html Hn].
    pose proof (loadComponent_finish_keeps parse (task_name t) net wl) as Hk.
    unfold capture.
    destruct (loadComponent_finish parse (task_name t) net wl) as [c wf].
    cbn [fst snd] in *. subst c. exists html, wf. repeat split. exact Hk.
Qed.

Lemma settle_batch_waiting p b cv d n t rest net w :
  batch_waits p b cv d (S (S n)) (t :: rest) w ->
  batch_waits p b cv d (S n) rest (snd (settle parse (length p) net w)).
Proof.
  intros (Hp & Hb & Hcv & Hd & Hall).
  apply Forall_cons in Hall as [[Hk Hv] Hrest].
  rewrite (settle_eq parse _ _ _ t) by (rewrite Hp; apply list_lookup_middle; reflexivity).
  rewrite Hp, delete_middle.
  destruct (batch_load_outcome t net (with_pending (p ++ rest) w) Hv)
    as (html & wf & Ho & Hf & _).
  rewrite (bind_normal _ _ _ _ _ Ho), Hk. cbn [resume].
  unfold load_frame in Hf. cbn -[fetches] in Hf.
  injection Hf as Hcv' Hp' _ Hb' Hd' _.
  unfold batch_settled. rewrite (bind_normal _ _ wf (batches wf) wf) by reflexivity.
  rewrite Hb', Hb. unfold set_batch, modify. cbn [snd].
  unfold batch_waits. cbn [pending currentView dispatched batches with_batches].
  rewrite Hp', Hcv', Hd'. repeat split; try assumption.
  apply list_lookup_insert_eq. rewrite Hb'. apply (lookup_lt_Some _ _ _ Hb).
Qed.

Lemma settle_batch_last p b cv d t rest net w :
  batch_waits p b cv d 1 (t :: rest) w ->
  exists wy,
    snd (settle parse (length p) net w) = snd (showView "landing" wy) /\
    pending wy = p ++ rest /\ currentView wy = cv /\ dispatched wy = d /\
    batches wy !! b = Some BFulfilled.
Proof.
  intros (Hp & Hb & Hcv & Hd & Hall).
  apply Forall_cons in Hall as [[Hk Hv] Hrest].
  rewrite (settle_eq parse _ _ _ t) by (rewrite Hp; apply list_lookup_middle; reflexivity).
  rewrite Hp, delete_middle.
  destruct (batch_load_outcome t net (with_pending (p ++ rest) w) Hv)
    as (html & wf & Ho & Hf & _).
  rewrite (bind_normal _ _ _ _ _ Ho), Hk. cbn [resume].
  unfold load_frame in Hf. cbn -[fetches] in Hf.
  injection Hf as Hcv' Hp' _ Hb' Hd' _.
  unfold batch_settled. rewrite (bind_normal _ _ wf (batches wf) wf) by reflexivity.
  rewrite Hb', Hb.
  exists (with_batches (<[b := BFulfilled]> (batches wf)) wf).
  split.
  - unfold set_batch, init_end, loadAllComponents_end, try_catch, mbind, JS_bind, bind,
      modify, mret, JS_ret, ret.
    cbn [fst snd].
    pose proof (total_unit _ (with_batches (<[b := BFulfilled]> (batches wf)) wf)
                  (showView_total "landing")) as Hn.
    destruct (showView "landing" (with_batches (<[b := BFulfilled]> (batches wf)) wf))
      as [c w2].
    cbn [fst snd] in *. subst c. reflexivity.
  - cbn [pending currentView dispatched batches with_batches].
    rewrite Hp', Hcv', Hd'. repeat split; try assumption.
    apply list_lookup_insert_eq. rewrite Hb'. apply (lookup_lt_Some _ _ _ Hb).
Qed.

Lemma settle_batch_waiting_document p b cv d n t rest net w :
  batch_waits p b cv d (S (S n)) (t :: rest) w ->
  document (snd (settle parse (length p) net w)) =
    document
      match task_started t with
      | Hit _ => w
      | Fetching =>
          snd (loadComponent_finish parse (task_name t) net (with_pending (p ++ rest) w))
      end.
Proof.
  intros (Hp & Hb & Hcv & Hd & Hall).
  apply Forall_cons in Hall as [[Hk Hv] Hrest].
  rewrite (settle_eq parse _ _ _ t) by (rewrite Hp; apply list_lookup_middle; reflexivity).
  rewrite Hp, delete_middle.
  destruct (batch_load_outcome t net (with_pending (p ++ rest) w) Hv)
    as (html & wf & Ho & Hf & Hwf).
  rewrite (bind_normal _ _ _ _ _ Ho), Hk. cbn [resume].
  unfold load_frame in Hf. cbn -[fetches] in Hf.
  injection Hf as _ _ _ Hb' _ _.
  unfold batch_settled. rewrite (bind_normal _ _ wf (batches wf) wf) by reflexivity.
  rewrite Hb', Hb. unfold set_batch, modify. cbn [snd document with_batches].
  rewrite Hwf. destruct (task_started t); reflexivity.
Qed.

Lemma settle_batch_waiting_console p b cv d n t rest net w :
  batch_waits p b cv d (S (S n)) (t :: rest) w ->
  console (snd (settle parse (length p) net w)) =
    console
      match task_started t with
      | Hit _ => w
      | Fetching =>
          snd (loadComponent_finish parse (task_name t) net (with_pending (p ++ rest) w))
      end.
Proof.
  intros (Hp & Hb & Hcv & Hd & Hall).
  apply Forall_cons in Hall as [[Hk Hv] Hrest].
  rewrite (settle_eq parse _ _ _ t) by (rewrite Hp; apply list_lookup_middle; reflexivity).
  rewrite Hp, delete_middle.
  destruct (batch_load_outcome t net (with_pending (p ++ rest) w) Hv)
    as (html & wf & Ho & Hf & Hwf).
  rewrite (bind_normal _ _ _ _ _ Ho), Hk. cbn [resume].
  unfold load_frame in Hf. cbn -[fetches] in Hf.
  injection Hf as _ _ _ Hb' _ _.
  unfold batch_settled. rewrite (bind_normal _ _ wf (batches wf) wf) by reflexivity.
  rewrite Hb', Hb. unfold set_batch, modify. cbn [snd console with_batches].
  rewrite Hwf. destruct (task_started t); reflexivity.
Qed.

Lemma fetch_fails_yields componentName net container :
  fetch_fails net -> yields_element parse componentName net container.
Proof.
  destruct net as [|r]; [intros _; exact I|]. cbn [fetch_fails yields_element].
  destruct (ok r); cbn [negb]; [|intros _; exact I].
  intros [Hf|Hf]; [discriminate|]. rewrite Hf. exact I.
Qed.

(** The console never loses a line. *)
Lemma step_console msg ev : preserves (fun w => In msg (console w)) (step parse ev).
Proof.
  pose proof (initializeReviewManager_console msg) as HiRM.
  pose proof (onViewActivated_console msg) as HoVA.
  pose proof (loadComponent_finish_console parse msg) as Hfinish.
  assert (forall name k, preserves (fun w => In msg (console w)) (loadComponent name k))
    as Hload.
  { intros name k. unfold loadComponent, loadComponent_begin.
    inv_tac ltac:(intros ? Hin; first [exact Hin | apply in_or_app; left; exact Hin]). }
  assert (forall v, preserves (fun w => In msg (console w)) (showView v)) as HshowView.
  { intros v. unfold showView, showView_deactivate.
    inv_tac ltac:(intros ? Hin; first [exact Hin | apply in_or_app; left; exact Hin]). }
  assert (forall v o, preserves (fun w => In msg (console w)) (showView_retry v o))
    as Hretry.
  { intros v o. unfold showView_retry.
    inv_tac ltac:(intros ? Hin; first [exact Hin | apply in_or_app; left; exact Hin]). }
  destruct ev as [|v|name|i net|element|element chain]; cbn [step].
  - unfold init, loadAllComponents_begin.
    inv_tac ltac:(intros ? Hin; first [exact Hin | apply in_or_app; left; exact Hin]).
  - apply HshowView.
  - apply Hload.
  - unfold settle, resume, batch_settled, set_batch, init_end, loadAllComponents_end.
    inv_tac ltac:(intros ? Hin; first [exact Hin | apply in_or_app; left; exact Hin]).
  - inv_tac ltac:(intros ? Hin; first [exact Hin | apply in_or_app; left; exact Hin]).
  - unfold sidebar_listener.
    inv_tac ltac:(intros ? Hin; first [exact Hin | apply in_or_app; left; exact Hin]).
Qed.

Lemma run_console msg evs w : In msg (console w) -> In msg (console (run parse evs w)).
Proof.
  revert w. induction evs as [|ev evs IH]; intros w Hw; simpl; [exact Hw|].
  apply IH, (step_console msg ev), Hw.
Qed.

(** A failed fetch of a load of the batch is reported by [loadComponent] and
    answered by the fallback, and both the report and the fallback stay. *)
Lemma batch_failure_is_reported p b cv d n t rest net evs w :
  batch_waits p b cv d (S (S n)) (t :: rest) w ->
  task_started t = Fetching -> fetch_fails net ->
  let w' := run parse (Settle (length p) net :: evs) w in
  In ("Error loading component " +:+ task_name t +:+ ":") (console w') /\
  getElementById (task_name t) (document w') <> None.
Proof.
  intros Hw Hs Hfail w'. subst w'. cbn [run step].
  pose proof Hw as (_ & _ & _ & _ & Hall).
  apply Forall_cons in Hall as [[_ Hv] _].
  split.
  - apply run_console. rewrite (settle_batch_waiting_console _ _ _ _ _ _ _ net _ Hw), Hs.
    rewrite (loadComponent_finish_failed parse _ _ _ Hfail Hv). cbn [snd].
    apply (mount_console _ (fallbackElement (task_name t))).
    cbn [console with_console]. apply in_or_app. right. left. reflexivity.
  - apply run_keeps_element.
    rewrite (settle_batch_waiting_document _ _ _ _ _ _ _ net _ Hw), Hs.
    apply getElementById_in; [apply (includes_nonempty "view" _ Hv); reflexivity|].
    apply loadComponent_finish_mounts; [exact Hv|].
    apply fetch_fails_yields, Hfail.
Qed.

(** The landing view is mounted by the first settlement of the batch and
    stays. *)
Lemma bootstrap_mounts_landing n1 evs w :
  started_of "landing-view" w = Fetching ->
  yields_element parse "landing-view" n1 (has_container w) ->
  getElementById "landing-view"
    (document (run parse (CallInit :: Settle (length (pending w)) n1 :: evs) w)) <> None.
Proof.
  intros Hs Hy. cbn [run step]. apply run_keeps_element.
  destruct (init_eq w) as (w0 & Hinit & Hp0 & Hb0 & Hcv0 & Hd0 & Hc0 & _).
  rewrite Hinit. cbn [snd].
  assert (batch_waits (pending w) (length (batches w)) (currentView w) (dispatched w) 5
            (List.map (batch_load (length (batches w)) w) components) w0) as H5.
  { unfold batch_waits. rewrite Hb0. repeat split; try assumption.
    - apply lookup_snoc.
    - unfold components. cbn [List.map].
      repeat (constructor; [split; reflexivity|]). constructor. }
  unfold components in H5. cbn [List.map] in H5.
  rewrite (settle_batch_waiting_document _ _ _ _ _ _ _ n1 _ H5).
  cbn [batch_load task_started task_name]. rewrite Hs.
  apply getElementById_in; [reflexivity|].
  apply loadComponent_finish_mounts; [reflexivity|].
  cbn [has_container with_pending]. rewrite Hc0. exact Hy.
Qed.

End Bootstrap.

(** X14: the bootstrap.  [init] starts the five loads and waits for all of
    them; when they have settled in the order they were started, whatever the
    network answered (a failed fetch is answered by the fallback), the batch
    is complete and [showView('landing')] has run once, after the last
    settlement and not before.  If the landing view is in the document then,
    it is the current view, the one view that carries the marker, one
    activation was dispatched and nothing is pending; if it is not, no view
    carries the marker, the current view is as it was and the recovery load
    is pending.  The landing view is there when the page already held it,
    and when its fragment was not cached and its fetch either failed or
    brought markup whose root has no id or the id [landing-view], the page
    having its container. *)
Theorem bootstrap_activates_landing parse n1 n2 n3 n4 n5 w :
  let i := length (pending w) in
  let w' := run parse [CallInit; Settle i n1; Settle i n2; Settle i n3;
                       Settle i n4; Settle i n5] w in
  dispatched (run parse [CallInit; Settle i n1; Settle i n2; Settle i n3; Settle i n4] w) =
    dispatched w /\
  (getElementById "landing-view" (document w') <> None ->
   currentView w' = "landing" /\
   (forall u, In u views -> carries w' u = String.eqb u "landing") /\
   dispatched w' = dispatched w ++ ["landing"] /\
   pending w' = pending w) /\
  (getElementById "landing-view" (document w') = None ->
   currentView w' = currentView w /\
   (forall u, In u views -> carries w' u = false) /\
   dispatched w' = dispatched w /\
   exists started, pending w' = pending w ++ [retry_task "landing" started]) /\
  (getElementById "landing-view" (document w) <> None ->
   getElementById "landing-view" (document w') <> None) /\
  (started_of "landing-view" w = Fetching ->
   yields_element parse "landing-view" n1 (has_container w) ->
   getElementById "landing-view" (document w') <> None).
Proof.
  intros i w'.
  assert ((getElementById "landing-view" (document w) <> None ->
           getElementById "landing-view" (document w') <> None) /\
          (started_of "landing-view" w = Fetching ->
           yields_element parse "landing-view" n1 (has_container w) ->
           getElementById "landing-view" (document w') <> None)) as Hkeep
    by (split; [apply run_keeps_element|apply bootstrap_mounts_landing]).
  revert Hkeep. subst w'. cbn [run step].
  destruct (init_eq w) as (w0 & Hinit & Hp0 & Hb0 & Hcv0 & Hd0 & _).
  rewrite Hinit in *. cbn [snd] in *.
  assert (batch_waits (pending w) (length (batches w)) (currentView w) (dispatched w) 5
            (List.map (batch_load (length (batches w)) w) components) w0) as H5.
  { unfold batch_waits. rewrite Hb0. repeat split; try assumption.
    - apply lookup_snoc.
    - unfold components. cbn [List.map].
      repeat (constructor; [split; reflexivity|]). constructor. }
  unfold components in H5. cbn [List.map] in H5. subst i.
  apply (settle_batch_waiting parse _ _ _ _ _ _ _ n1) in H5.
  apply (settle_batch_waiting parse _ _ _ _ _ _ _ n2) in H5.
  apply (settle_batch_waiting parse _ _ _ _ _ _ _ n3) in H5.
  apply (settle_batch_waiting parse _ _ _ _ _ _ _ n4) in H5.
  pose proof H5 as (_ & _ & _ & Hd4 & _).
  destruct (settle_batch_last parse _ _ _ _ _ _ n5 _ H5)
    as (wy & Heq & Hpy & Hcvy & Hdy & _).
  rewrite app_nil_r in Hpy.
  rewrite Heq. intros Hkeep.
  split; [exact Hd4|]. split; [|split; [|exact Hkeep]].
  - intros Hfound.
    assert (getElementById "landing-view" (document wy) <> None) as Hy.
    { apply getElementById_in; [reflexivity|]. rewrite <- (showView_ids "landing" wy).
      destruct (in_dec String.string_dec "landing-view"
                  (ids (document (snd (showView "landing" wy))))) as [Hin|Hnin];
        [exact Hin|].
      apply getElementById_not_in in Hnin. contradiction. }
    destruct (getElementById "landing-view" (document wy)) as [e|] eqn:E; [|contradiction].
    change "landing-view" with ("landing" +:+ "-view") in E.
    destruct (showView_found_state _ _ _ E) as [Hcur Hdis].
    split; [exact Hcur|]. split; [exact (showView_found_exclusive _ _ _ E)|].
    split; [rewrite Hdis, Hdy; reflexivity|].
    rewrite (showView_found_pending _ _ _ E). exact Hpy.
  - intros Hnone.
    assert (getElementById "landing-view" (document wy) = None) as Hy.
    { apply getElementById_not_in. rewrite <- (showView_ids "landing" wy).
      apply getElementById_absent; [reflexivity|exact Hnone]. }
    change "landing-view" with ("landing" +:+ "-view") in Hy.
    destruct (showView_missing_world _ _ Hy) as (Hdoc & Hcur & Hdis & _ & Hpen & _).
    split; [rewrite Hcur; exact Hcvy|]. split; [|split].
    + intros u Hu. unfold carries. rewrite Hdoc. apply (marker_at_deactivated _ _ Hu).
    + rewrite Hdis. exact Hdy.
    + eexists. rewrite Hpen, Hpy. reflexivity.
Qed.

Lemma bootstrap_activates_landing_witness :
  let w := with_document [] Demo.configured in
  let w' := run Demo.firstElementChild
              [CallInit;
               Settle 0 (Demo.ok_with "<div id='landing-view' class='view'>");
               Settle 0 Demo.not_found;
               Settle 0 (Demo.ok_with "<div class='view'>");
               Settle 0 (Demo.ok_with Demo.review_markup);
               Settle 0 FetchRejects] w in
  currentView w' = "landing" /\ carries w' "landing" = true /\
  carries w' "test" = false /\ dispatched w' = ["landing"] /\ pending w' = [].
Proof.
  destruct (bootstrap_activates_landing Demo.firstElementChild
              (Demo.ok_with "<div id='landing-view' class='view'>")
              Demo.not_found
              (Demo.ok_with "<div class='view'>")
              (Demo.ok_with Demo.review_markup)
              FetchRejects
              (with_document [] Demo.configured)) as (_ & H2 & _ & _ & H5).
  destruct (H2 (H5 eq_refl (conj eq_refl (or_intror eq_refl)))) as (Hc & Hx & Hd & Hp).
  split; [exact Hc|]. split; [apply (Hx "landing"); simpl; tauto|].
  split; [apply (Hx "test"); simpl; tauto|]. split; [exact Hd|exact Hp].
Defined.

(** ** The bootstrap when fetches fail (lines 17-43, 86-91) *)



(** ** One click, one handler (lines 101-105, 108-124) *)

Lemma initializeReviewAnswersView_iter_document element n w :
  document (Nat.iter (S n) (fun w => snd (initializeReviewAnswersView element w)) w) =
    update_first element (fun e => bind_sidebarList (bind_backBtn e)) (document w).
Proof.
  induction n as [|n IH].
  - apply initializeReviewAnswersView_document.
  - change (Nat.iter (S (S n)) ?f w) with (f (Nat.iter (S n) f w)). cbv beta.
    rewrite initializeReviewAnswersView_document, IH, update_first_compose.
    + apply update_first_ext. intros e0. apply bind_twice.
    + intros e0 He0. rewrite has_id_bind_sidebarList, has_id_bind_backBtn. exact He0.
Qed.

Lemma fire_once (listener : JS unit) w : fire 1 listener w = listener w.
Proof. cbn [fire]. destruct (listener w) as [[[]|e] w']; reflexivity. Qed.

(** X15: however often a view with fresh controls is initialized, each
    control has one listener.  A click on the back button then runs
    [showView('result')] once, and a click inside the sidebar list runs the
    delegated listener once. *)
Theorem one_click_one_handler parse element e n w :
  getElementById element (document w) = Some e ->
  let w1 := Nat.iter (S n) (fun w => snd (initializeReviewAnswersView element w)) w in
  (forall c, backBtn e = Some c -> bound c = false -> listeners c = 0%nat ->
     step parse (ClickBack element) w1 = showView "result" w1) /\
  (forall s chain,
     sidebarList e = Some s -> delegationBound s = false -> sb_listeners s = 0%nat ->
     step parse (ClickSidebar element chain) w1 =
       sidebar_listener
         {| delegationBound := true; sb_listeners := 1; children := children s |}
         chain w1).
Proof.
  intros He w1.
  assert (getElementById element (document w1) = Some (bind_sidebarList (bind_backBtn e)))
    as H1.
  { subst w1. rewrite initializeReviewAnswersView_iter_document.
    rewrite getElementById_update_first, String.eqb_refl, He; [reflexivity|].
    intros e0 He0. rewrite has_id_bind_sidebarList, has_id_bind_backBtn. exact He0. }
  split.
  - intros [b k] Hc Hb Hk. cbn [bound listeners] in Hb, Hk. subst b k.
    cbn [step]. rewrite (bind_normal _ _ w1 (document w1) w1) by reflexivity.
    rewrite H1.
    change (Some (bind_sidebarList (bind_backBtn e)) ≫= backBtn)
      with (backBtn (bind_sidebarList (bind_backBtn e))).
    assert (backBtn (bind_sidebarList (bind_backBtn e)) =
            Some {| bound := true; listeners := 1 |}) as ->.
    { destruct e as [id act bb [[[] m cs]|]]; cbn in Hc; subst bb; reflexivity. }
    cbn [listeners]. apply fire_once.
  - intros [b k cs] chain Hs Hb Hk. cbn [delegationBound sb_listeners] in Hb, Hk. subst b k.
    cbn [step]. rewrite (bind_normal _ _ w1 (document w1) w1) by reflexivity.
    rewrite H1.
    change (Some (bind_sidebarList (bind_backBtn e)) ≫= sidebarList)
      with (sidebarList (bind_sidebarList (bind_backBtn e))).
    assert (sidebarList (bind_sidebarList (bind_backBtn e)) =
            Some {| delegationBound := true; sb_listeners := 1; children := cs |}) as ->.
    { destruct e as [id act [[[] m]|] sl]; cbn in Hs; subst sl; reflexivity. }
    cbn [sb_listeners]. apply fire_once.
Qed.

Lemma one_click_one_handler_witness :
  let fresh := Demo.controls_of Demo.review_markup "review-answers-view" in
  let w := with_document [Demo.landing_view; fresh] Demo.configured in
  let w1 := Nat.iter 3 (fun w => snd (initializeReviewAnswersView "review-answers-view" w)) w in
  step Demo.firstElementChild (ClickBack "review-answers-view") w1 = showView "result" w1.
Proof.
  exact (proj1 (one_click_one_handler Demo.firstElementChild "review-answers-view"
                  (Demo.controls_of Demo.review_markup "review-answers-view") 2
                  (with_document
                     [Demo.landing_view;
                      Demo.controls_of Demo.review_markup "review-answers-view"]
                     Demo.configured) eq_refl)
           {| bound := false; listeners := 0 |} eq_refl eq_refl eq_refl).
Defined.

(** ** Loads in flight (lines 47-58) *)

Section InFlight.
Variable parse : string -> option Element.

(** An awaited load whose fetch succeeds, settled at the head of what was
    queued behind [p]. *)
Lemma settle_caller_ok p componentName rest r html w :
  pending w = p ++ {| task_name := componentName; task_started := Fetching;
                      task_cont := KCaller |} :: rest ->
  ok r = true -> text r = Returns html ->
  let w' := snd (settle parse (length p) (Responds r) w) in
  pending w' = p ++ rest /\
  delivered w' = delivered w ++ [(componentName, Normal html)] /\
  componentCache w' = <[componentName := html]> (componentCache w) /\
  fetches (trace w') = fetches (trace w).
Proof.
  intros Hp Hok Htext w'. subst w'.
  rewrite (settle_eq parse _ _ _ _ ltac:(rewrite Hp; apply list_lookup_middle; reflexivity)).
  rewrite Hp, delete_middle. cbn [task_started task_name task_cont].
  unfold mbind, JS_bind, bind, capture.
  rewrite (loadComponent_finish_ok parse _ _ _ _ Hok Htext). cbn [resume fst snd modify].
  match goal with
  | |- context [loadComponent_insert parse ?n ?h ?w1] =>
      pose proof (loadComponent_insert_keeps parse n h w1) as Hk
  end.
  unfold load_frame in Hk. cbn -[fetches] in Hk.
  injection Hk as _ Hpen Hdel _ _ _ Hfetch _ _ _ _ _ Hcache.
  cbn [pending delivered componentCache trace with_delivered].
  split; [exact Hpen|]. split; [|split; [exact Hcache|exact Hfetch]].
  exact (f_equal (fun l => l ++ [(componentName, Normal html)]) Hdel).
Qed.

End InFlight.

(** X16: loads in flight are not shared.  Two calls of [loadComponent] for
    one uncached name, the second made before the first fetch has settled,
    each send a request (the cache is consulted at the call and written at
    the settlement).  When both fetches succeed each caller receives the
    markup of its own response and the cache keeps the one that settled
    last. *)
Theorem overlapping_loads_fetch_twice parse componentName r1 r2 html1 html2 w :
  started_of componentName w = Fetching ->
  ok r1 = true -> text r1 = Returns html1 ->
  ok r2 = true -> text r2 = Returns html2 ->
  let url := "components/" +:+ componentName +:+ ".html" in
  let w2 := run parse [CallLoadComponent componentName; CallLoadComponent componentName] w in
  let i := length (pending w) in
  let w4 := run parse [Settle i (Responds r1); Settle i (Responds r2)] w2 in
  fetches (trace w2) = fetches (trace w) ++ [Fetch url; Fetch url] /\
  fetches (trace w4) = fetches (trace w2) /\
  delivered w4 =
    delivered w ++ [(componentName, Normal html1); (componentName, Normal html2)] /\
  componentCache w4 = <[componentName := html2]> (componentCache w) /\
  pending w4 = pending w.
Proof.
  intros Hs Hok1 Ht1 Hok2 Ht2 url w2 i w4.
  assert (pending w2 =
            pending w ++ [{| task_name := componentName; task_started := Fetching;
                             task_cont := KCaller |};
                          {| task_name := componentName; task_started := Fetching;
                             task_cont := KCaller |}] /\
          fetches (trace w2) = fetches (trace w) ++ [Fetch url; Fetch url] /\
          delivered w2 = delivered w /\ componentCache w2 = componentCache w)
    as (Hp2 & Hf2 & Hd2 & Hc2).
  { subst w2. cbn [run step]. rewrite !loadComponent_eq. cbn [snd]. rewrite Hs.
    change (started_of componentName (with_pending _ _))
      with (started_of componentName w).
    rewrite Hs. cbn -[fetches]. rewrite !fetches_snoc, <- !app_assoc. cbn.
    repeat split; reflexivity. }
  subst w4. cbn [run step].
  destruct (settle_caller_ok parse _ _ _ _ _ _ Hp2 Hok1 Ht1) as (Hp3 & Hd3 & Hc3 & Hf3).
  fold i in Hp3, Hd3, Hc3, Hf3.
  set (w3 := snd (settle parse i (Responds r1) w2)) in *.
  destruct (settle_caller_ok parse _ _ _ _ _ _ Hp3 Hok2 Ht2) as (Hp4 & Hd4 & Hc4 & Hf4).
  fold i in Hp4, Hd4, Hc4, Hf4.
  split; [exact Hf2|]. split; [rewrite Hf4; exact Hf3|].
  split; [rewrite Hd4, Hd3, Hd2, <- app_assoc; reflexivity|].
  split; [rewrite Hc4, Hc3, Hc2; apply insert_insert_eq|].
  rewrite Hp4, app_nil_r. reflexivity.
Qed.

Lemma overlapping_loads_fetch_twice_witness :
  let w2 := run Demo.firstElementChild
              [CallLoadComponent "test-view"; CallLoadComponent "test-view"] Demo.configured in
  fetches (trace w2) =
    [Fetch "components/test-view.html"; Fetch "components/test-view.html"].
Proof.
  exact (proj1 (overlapping_loads_fetch_twice Demo.firstElementChild "test-view"
                  {| status := 200; text := Returns "<div id='test-view'>" |}
                  {| status := 200; text := Returns "<div id='test-view' class='view'>" |}
                  "<div id='test-view'>" "<div id='test-view' class='view'>"
                  Demo.configured eq_refl eq_refl eq_refl eq_refl eq_refl)).
Defined.
